(** * moontvplus: banner carousel, trending route and danmaku selection memory

    A shallow embedding of three source files of the repository:

    - [src/lib/danmaku/selection-memory.ts]  (module [SelectionMemory]),
    - the trending API route, [GET], [getTXBannerContent] and
      [parseTXBannerData]  (module [TrendingRoute]),
    - the banner carousel component, [fetchTrending], [goToNext],
      [goToPrevious]  (module [BannerCarousel]),

    and the properties of them that the specification states.  The
    danmaku panel component takes no part in these properties.

    The JavaScript platform the code runs on (strings, numbers, JSON
    values, arrays, Web Storage) is modelled in module [Js]; module
    [JsonText] implements [JSON.stringify] and [JSON.parse] on the values
    of the model.

    Modelling conventions.
    - A JavaScript [number] that holds an index, an id or a timestamp is
      an integer of [Z]; non-integral numbers, NaN and the infinities are
      outside the model, [NaN] as the result of [parseInt] is [None].
    - A JavaScript string is a [string] holding its UTF-8 bytes; prefix
      and substring tests on well-formed strings agree with those on
      UTF-16 code units.
    - [try { .. } catch] is modelled with the [completion] type: a
      platform operation either completes normally or abruptly, and the
      handler of the source decides what an abrupt completion becomes.
    - [console.log] and [console.error] have no effect on any value the
      program returns or stores and are left out.

    The definitions come first, the properties follow from
    [Properties] on. *)

From Stdlib Require Import ZArith String Ascii Lia.
From stdpp Require Import gmap strings list fin_maps.

Set Warnings "-register-all".
Open Scope string_scope.

(** ** The platform *)

Module Js.

(** Abrupt completions: the exceptions the platform raises. *)
Inductive error : Type :=
  | TypeError
  | SyntaxError
  | SecurityError
  | QuotaExceededError
  | NetworkError.

Inductive completion (A : Type) : Type :=
  | Normal (a : A)
  | Abrupt (e : error).

Arguments Normal {A} a.
Arguments Abrupt {A} e.

#[global] Instance completion_ret : MRet completion := fun A a => Normal a.

#[global] Instance completion_bind : MBind completion := fun A B k c =>
  match c with
  | Normal a => k a
  | Abrupt e => Abrupt e
  end.

(** [try c catch => h] *)
Definition try_catch {A} (c : completion A) (h : error -> A) : A :=
  match c with
  | Normal a => a
  | Abrupt e => h e
  end.

(** *** Strings *)

(** [s.startsWith(p)] *)
Definition startsWith (s p : string) : bool := String.prefix p s.

(** [s.includes(p)]: [p] occurs in [s] at some position. *)
Fixpoint includes (s p : string) : bool :=
  String.prefix p s ||
  match s with
  | EmptyString => false
  | String _ s' => includes s' p
  end.

(** *** Number.prototype.toString and parseInt, on integers *)

Definition digit_char (d : N) : ascii := ascii_of_N (48 + d).

(** The decimal digit a character stands for, if it is one. *)
Definition digit_val (c : ascii) : option N :=
  let n := N_of_ascii c in
  if (48 <=? n)%N && (n <=? 57)%N then Some (n - 48)%N else None.

(** Digits of [n], most significant first, put in front of [acc]. *)
Fixpoint digits_onto (fuel : nat) (n : N) (acc : string) : string :=
  match fuel with
  | O => acc
  | S f =>
      let acc' := String (digit_char (n mod 10)) acc in
      if (n / 10 =? 0)%N then acc' else digits_onto f (n / 10) acc'
  end.

Definition N_toString (n : N) : string :=
  digits_onto (S (N.to_nat (N.log2 n))) n "".

(** [z.toString()] for an integer [z]: decimal digits, ["-"] in front of
    a negative one.  This is what the platform prints for a safe
    integer; see [isSafeInteger]. *)
Definition Number_toString (z : Z) : string :=
  if (z <? 0)%Z then "-" ++ N_toString (Z.to_N (- z)) else N_toString (Z.to_N z).

(** [Number.MAX_SAFE_INTEGER] and [Number.isSafeInteger], on integers.
    On the safe integers the model is the platform: each of them is a
    number, [toString] prints its digits in full and [parseInt] returns
    the integer it reads.  Beyond them the platform prints the shortest
    digits that read back to the same double and, from [10^21] on,
    exponent notation (["1e+21"], of which [parseInt] reads [1]), and
    [parseInt] returns the double nearest to the integer it reads. *)
Definition MAX_SAFE_INTEGER : Z := 2 ^ 53 - 1.

Definition isSafeInteger (z : Z) : bool :=
  (- MAX_SAFE_INTEGER <=? z)%Z && (z <=? MAX_SAFE_INTEGER)%Z.

(** StrWhiteSpaceChar at the head of a string: the white space and line
    terminator code points, in their UTF-8 encoding.  Returns the rest
    of the string behind one such character. *)
Definition skip_one_space (s : string) : option string :=
  match s with
  | String c1 r1 =>
      let n1 := N_of_ascii c1 in
      if ((9 <=? n1) && (n1 <=? 13))%N || (n1 =? 32)%N then Some r1
      else match r1 with
      | String c2 r2 =>
          let n2 := N_of_ascii c2 in
          if ((n1 =? 194) && (n2 =? 160))%N then Some r2           (* U+00A0 *)
          else match r2 with
          | String c3 r3 =>
              let n3 := N_of_ascii c3 in
              if ((n1 =? 225) && (n2 =? 154) && (n3 =? 128))%N then Some r3 (* U+1680 *)
              else if ((n1 =? 226) && (n2 =? 128) &&
                       (((128 <=? n3) && (n3 <=? 138))             (* U+2000..U+200A *)
                        || (n3 =? 168) || (n3 =? 169)              (* U+2028, U+2029 *)
                        || (n3 =? 175)))%N then Some r3            (* U+202F *)
              else if ((n1 =? 226) && (n2 =? 129) && (n3 =? 159))%N then Some r3 (* U+205F *)
              else if ((n1 =? 227) && (n2 =? 128) && (n3 =? 128))%N then Some r3 (* U+3000 *)
              else if ((n1 =? 239) && (n2 =? 187) && (n3 =? 191))%N then Some r3 (* U+FEFF *)
              else None
          | EmptyString => None
          end
      | EmptyString => None
      end
  | EmptyString => None
  end.

Fixpoint trim_start_fuel (fuel : nat) (s : string) : string :=
  match fuel with
  | O => s
  | S f =>
      match skip_one_space s with
      | Some r => trim_start_fuel f r
      | None => s
      end
  end.

Definition trim_start (s : string) : string := trim_start_fuel (String.length s) s.

(** The value of the longest prefix of decimal digits of [s], read into
    the accumulator [acc]; [seen] tells whether a digit was read. *)
Fixpoint read_digits (s : string) (acc : N) (seen : bool) : option N :=
  match s with
  | EmptyString => if seen then Some acc else None
  | String c r =>
      match digit_val c with
      | Some d => read_digits r (10 * acc + d)%N true
      | None => if seen then Some acc else None
      end
  end.

(** [parseInt(s, 10)]; [None] is NaN.  The result is the integer the
    digits stand for, which is the platform's result while that is a
    safe integer. *)
Definition parseInt (s : string) : option Z :=
  let trimmed := trim_start s in
  match trimmed with
  | String c r =>
      if Ascii.eqb c "-" then (fun n => (- Z.of_N n)%Z) <$> read_digits r 0 false
      else if Ascii.eqb c "+" then Z.of_N <$> read_digits r 0 false
      else Z.of_N <$> read_digits trimmed 0 false
  | EmptyString => None
  end.

(** *** Values

    The values [JSON.parse] and [response.json()] produce.  A value that
    may also be [undefined] (a property that is not there) is an
    [option json], [None] being [undefined]. *)
Inductive json : Type :=
  | JNull
  | JBool (b : bool)
  | JNum (n : Z)
  | JStr (s : string)
  | JArr (elements : list json)
  | JObj (fields : list (string * json)).

Abbreviation value := (option json).

(** ToBoolean *)
Definition truthy (v : value) : bool :=
  match v with
  | None | Some JNull => false
  | Some (JBool b) => b
  | Some (JNum n) => negb (n =? 0)%Z
  | Some (JStr s) => negb (String.eqb s "")
  | Some (JArr _) | Some (JObj _) => true
  end.

(** The own property [k] of an object. *)
Fixpoint field (k : string) (fields : list (string * json)) : value :=
  match fields with
  | [] => None
  | (k', v) :: rest => if String.eqb k k' then Some v else field k rest
  end.

(** [v.k] for the property names the program reads ([data], [type],
    [params], [title], ...): none of them is a property of a primitive,
    of an array or of a prototype, so the result is the own property of
    an object and [undefined] on everything else; reading a property of
    [null] or [undefined] raises [TypeError]. *)
Definition get (v : value) (k : string) : completion value :=
  match v with
  | None | Some JNull => Abrupt TypeError
  | Some (JObj fields) => Normal (field k fields)
  | Some _ => Normal None
  end.

(** [v?.k] *)
Definition get_opt (v : value) (k : string) : value :=
  match v with
  | Some (JObj fields) => field k fields
  | _ => None
  end.

(** [v || d] *)
Definition or_else (v : value) (d : json) : json :=
  match v with
  | Some x => if truthy v then x else d
  | None => d
  end.

(** [Array.isArray(v)], with the elements when it holds. *)
Definition as_array (v : value) : option (list json) :=
  match v with
  | Some (JArr l) => Some l
  | _ => None
  end.

(** [l.find(p)], [l.filter(p)] and [l.map(f)], the callback applied to
    the elements in order; the first callback that raises ends the
    call. *)
Fixpoint Array_find {A} (p : A -> completion bool) (l : list A) : completion (option A) :=
  match l with
  | [] => mret None
  | x :: rest => b ← p x; if b : bool then mret (Some x) else Array_find p rest
  end.

Fixpoint Array_filter {A} (p : A -> completion bool) (l : list A) : completion (list A) :=
  match l with
  | [] => mret []
  | x :: rest =>
      b ← p x;
      rest' ← Array_filter p rest;
      mret (if b : bool then x :: rest' else rest')
  end.

Fixpoint Array_map_from {A B} (f : A -> nat -> completion B) (index : nat) (l : list A)
  : completion (list B) :=
  match l with
  | [] => mret []
  | x :: rest =>
      y ← f x index;
      rest' ← Array_map_from f (S index) rest;
      mret (y :: rest')
  end.

Definition Array_map {A B} (f : A -> nat -> completion B) (l : list A) : completion (list B) :=
  Array_map_from f 0 l.

(** [s.split(sep)] for a separator of one character. *)
Fixpoint split (sep : ascii) (s : string) : list string :=
  match s with
  | EmptyString => [""]
  | String c r =>
      if Ascii.eqb c sep then "" :: split sep r
      else match split sep r with
           | piece :: pieces => String c piece :: pieces
           | [] => [String c ""]
           end
  end.

(** *** Web Storage ([sessionStorage], [localStorage])

    The stored entries, whether access to the storage area is denied
    (every operation then raises [SecurityError]), and the quota in
    bytes, if there is one ([setItem] raises [QuotaExceededError] when
    the entries would no longer fit).  An operation that raises leaves
    the entries as they were. *)
Record Storage : Type := mkStorage {
  denied : bool;
  quota : option nat;
  entries : gmap string string
}.

Definition with_entries (st : Storage) (m : gmap string string) : Storage :=
  {| denied := denied st; quota := quota st; entries := m |}.

Definition used_bytes (m : gmap string string) : nat :=
  map_fold (fun k v acc => String.length k + String.length v + acc) 0 m.

Definition fits (st : Storage) (k v : string) : bool :=
  match quota st with
  | None => true
  | Some q => bool_decide (used_bytes (<[k:=v]> (entries st)) <= q)
  end.

Definition getItem (st : Storage) (k : string) : completion (option string) :=
  if denied st then Abrupt SecurityError else Normal (entries st !! k).

Definition setItem (st : Storage) (k v : string) : completion Storage :=
  if denied st then Abrupt SecurityError
  else if fits st k v then Normal (with_entries st (<[k:=v]> (entries st)))
  else Abrupt QuotaExceededError.

Definition removeItem (st : Storage) (k : string) : completion Storage :=
  if denied st then Abrupt SecurityError
  else Normal (with_entries st (delete k (entries st))).

(** The keys in the order [key(0)], [key(1)], ... enumerates them. *)
Definition keys (st : Storage) : list string := (map_to_list (entries st)).*1.

Definition Storage_length (st : Storage) : completion nat :=
  if denied st then Abrupt SecurityError else Normal (length (keys st)).

Definition key (st : Storage) (i : nat) : completion (option string) :=
  if denied st then Abrupt SecurityError else Normal (keys st !! i).

End Js.

(** ** Danmaku selection memory ([src/lib/danmaku/selection-memory.ts]) *)

Module SelectionMemory.
Import Js.

Definition STORAGE_KEY_PREFIX : string := "danmaku_selection_".

(** What the functions of the module see of their surroundings: whether
    [window] is defined (it is not when the module runs on the server)
    and the session storage area. *)
Record Env : Type := mkEnv {
  window_defined : bool;
  sessionStorage : Storage
}.

Definition with_storage (env : Env) (st : Storage) : Env :=
  {| window_defined := window_defined env; sessionStorage := st |}.

(** [`${STORAGE_KEY_PREFIX}index_${title}`] *)
Definition index_key (title : string) : string :=
  STORAGE_KEY_PREFIX ++ "index_" ++ title.

(** [`${STORAGE_KEY_PREFIX}manual_${title}_${episodeIndex}`] *)
Definition manual_key (title : string) (episodeIndex : Z) : string :=
  STORAGE_KEY_PREFIX ++ "manual_" ++ title ++ "_" ++ Number_toString episodeIndex.

(** [`${STORAGE_KEY_PREFIX}manual_${title}_`] *)
Definition manual_prefix (title : string) : string :=
  STORAGE_KEY_PREFIX ++ "manual_" ++ title ++ "_".

Definition saveDanmakuSourceIndex (title : string) (selectedIndex : Z) (env : Env) : Env :=
  if negb (window_defined env) then env
  else
    try_catch
      (let key := index_key title in
       st ← setItem (sessionStorage env) key (Number_toString selectedIndex);
       mret (with_storage env st))
      (fun _ => env).

(** [None] is [null]. *)
Definition getDanmakuSourceIndex (title : string) (env : Env) : option Z :=
  if negb (window_defined env) then None
  else
    try_catch
      (let key := index_key title in
       value ← getItem (sessionStorage env) key;
       mret (match value with
             | Some value =>
                 match parseInt value with
                 | Some index => if (0 <=? index)%Z then Some index else None
                 | None => None
                 end
             | None => None
             end))
      (fun _ => None).

Definition saveManualDanmakuSelection
    (title : string) (episodeIndex episodeId : Z) (env : Env) : Env :=
  if negb (window_defined env) then env
  else
    try_catch
      (let key := manual_key title episodeIndex in
       st ← setItem (sessionStorage env) key (Number_toString episodeId);
       mret (with_storage env st))
      (fun _ => env).

Definition getManualDanmakuSelection
    (title : string) (episodeIndex : Z) (env : Env) : option Z :=
  if negb (window_defined env) then None
  else
    try_catch
      (let key := manual_key title episodeIndex in
       value ← getItem (sessionStorage env) key;
       mret (match value with
             | Some value =>
                 match parseInt value with
                 | Some episodeId => Some episodeId
                 | None => None
                 end
             | None => None
             end))
      (fun _ => None).

(** [key && key.startsWith(p)]: the key exists, is not the empty string
    and starts with [p]. *)
Definition key_matches (p : string) (key : option string) : bool :=
  match key with
  | Some k => negb (String.eqb k "") && startsWith k p
  | None => false
  end.

(** The loop [for (let i = ..; i < sessionStorage.length; i++)] with
    [n] iterations left: the keys it pushes on [keysToRemove]. *)
Fixpoint scan_keys (st : Storage) (p : string) (n i : nat) : completion (list string) :=
  match n with
  | O => mret []
  | S n' =>
      key ← Js.key st i;
      rest ← scan_keys st p n' (S i);
      mret (if key_matches p key then default "" key :: rest else rest)
  end.

(** [keysToRemove.forEach(key => sessionStorage.removeItem(key))] *)
Fixpoint remove_each (st : Storage) (keysToRemove : list string) : completion Storage :=
  match keysToRemove with
  | [] => mret st
  | key :: rest => st' ← removeItem st key; remove_each st' rest
  end.

(** Removing raises only when access is denied, and then from the first
    operation on: the handler finds the storage as it was. *)
Definition clearDanmakuSelectionMemory (title : string) (env : Env) : Env :=
  if negb (window_defined env) then env
  else
    try_catch
      (let indexKey := index_key title in
       st ← removeItem (sessionStorage env) indexKey;
       len ← Storage_length st;
       keysToRemove ← scan_keys st (manual_prefix title) len 0;
       st' ← remove_each st keysToRemove;
       mret (with_storage env st'))
      (fun _ => env).

Definition clearAllDanmakuSelectionMemory (env : Env) : Env :=
  if negb (window_defined env) then env
  else
    try_catch
      (let st := sessionStorage env in
       len ← Storage_length st;
       keysToRemove ← scan_keys st STORAGE_KEY_PREFIX len 0;
       st' ← remove_each st keysToRemove;
       mret (with_storage env st'))
      (fun _ => env).

(** A browser tab with an empty, unrestricted session storage. *)
Definition fresh_browser : Env :=
  {| window_defined := true;
     sessionStorage := {| denied := false; quota := None; entries := ∅ |} |}.

End SelectionMemory.

(** ** The trending route ([GET], [getTXBannerContent], [parseTXBannerData]) *)

Module BannerItem.
Import Js.

(** The object [parseTXBannerData] builds for a card.  [title],
    [subtitle] and the image reference are whatever value the card
    holds, hence of type [json]. *)
Record t : Type := mk {
  id : Z;
  title : json;
  subtitle : json;
  tags : list string;
  backdrop_path : json;
  poster_path : json;
  release_date : string;
  overview : json;
  vote_average : Z;
  media_type : string;
  genre_ids : list Z
}.

End BannerItem.

(** [{ code, list }], what [getTXBannerContent] resolves to. *)
Module TXResult.

Record t : Type := mk {
  code : Z;
  list : list BannerItem.t
}.

End TXResult.

Module TrendingRoute.
Import Js.

(** 3 hours, in milliseconds. *)
Definition CACHE_DURATION : Z := 3 * 60 * 60 * 1000.

Definition pc_shelves : string := "pc_shelves".

(** The marker of promotional collections, ["免费合集"]. *)
Definition promo_marker : string := "免费合集".

(** [data?.data?.CardList] *)
Definition card_list (data : json) : value :=
  get_opt (get_opt (Some data) "data") "CardList".

(** [pcShelvesCard?.children_list?.list?.cards] *)
Definition shelf_cards (pcShelvesCard : value) : value :=
  get_opt (get_opt (get_opt pcShelvesCard "children_list") "list") "cards".

(** [card.type === 'pc_shelves'] *)
Definition is_pc_shelves (card : json) : completion bool :=
  t ← get (Some card) "type";
  mret (match t with
        | Some (JStr s) => String.eqb s pc_shelves
        | _ => false
        end).

(** [card.params], as a condition. *)
Definition has_params (card : json) : completion bool :=
  p ← get (Some card) "params"; mret (truthy p).

(** [topicLabel ? topicLabel.split('|').filter(Boolean) : []]; a label
    that is not a string has no [split] to call. *)
Definition tags_of (topicLabel : json) : completion (list string) :=
  if truthy (Some topicLabel) then
    match topicLabel with
    | JStr s => mret (filter (fun piece => piece ≠ "") (split "|" s))
    | _ => Abrupt TypeError
    end
  else mret [].

(** The callback of [.map]. *)
Definition to_item (card : json) (index : nat) : completion BannerItem.t :=
  params ← get (Some card) "params";
  title ← get params "title";
  priority_sub_title ← get params "priority_sub_title";
  rec_normal_reason ← get params "rec_normal_reason";
  topic_label ← get params "topic_label";
  priority_image_url ← get params "priority_image_url";
  let title := or_else title (JStr "") in
  let subtitle := or_else priority_sub_title (or_else rec_normal_reason (JStr "")) in
  let topicLabel := or_else topic_label (JStr "") in
  tags ← tags_of topicLabel;
  let backdropPath := or_else priority_image_url (JStr "") in
  mret {| BannerItem.id := Z.of_nat index + 1;
          BannerItem.title := title;
          BannerItem.subtitle := subtitle;
          BannerItem.tags := tags;
          BannerItem.backdrop_path := backdropPath;
          BannerItem.poster_path := backdropPath;
          BannerItem.release_date := "";
          BannerItem.overview := subtitle;
          BannerItem.vote_average := 0;
          BannerItem.media_type := "tv";
          BannerItem.genre_ids := [] |}.

(** [title.includes(marker)] for a title known to be truthy: the
    substring test of a string, the membership test of an array, and
    [TypeError] for any other value, which has no [includes] to call. *)
Definition title_includes (title : json) (marker : string) : completion bool :=
  match title with
  | JStr s => mret (includes s marker)
  | JArr l => mret (existsb (fun e => match e with
                                      | JStr s => String.eqb s marker
                                      | _ => false
                                      end) l)
  | _ => Abrupt TypeError
  end.

(** The callback of the last [.filter]. *)
Definition keep_item (item : BannerItem.t) : completion bool :=
  if negb (truthy (Some (BannerItem.title item)))
     || negb (truthy (Some (BannerItem.backdrop_path item)))
  then mret false
  else
    promo ← title_includes (BannerItem.title item) promo_marker;
    if promo : bool then mret false else mret true.

(** The body of the [try] block of [parseTXBannerData]. *)
Definition parseTXBannerData_try (data : json) : completion (list BannerItem.t) :=
  let cardList := card_list data in
  match as_array cardList with
  | None => mret []
  | Some cardList =>
      pcShelvesCard ← Array_find is_pc_shelves cardList;
      if negb (truthy pcShelvesCard) then mret []
      else
        let cards := shelf_cards pcShelvesCard in
        match as_array cards with
        | None => mret []
        | Some cards =>
            withParams ← Array_filter has_params cards;
            mapped ← Array_map to_item withParams;
            Array_filter keep_item mapped
        end
  end.

Definition parseTXBannerData (data : json) : list BannerItem.t :=
  try_catch (parseTXBannerData_try data) (fun _ => []).

(** What the request to the video portal comes to: [fetch] rejects
    (network failure, or the 15 second timeout), or there is a response
    with a status, whose body [response.json()] parses or fails to. *)
Inductive fetch_outcome : Type :=
  | FetchRejected (e : error)
  | FetchResponse (status : Z) (body : completion json).

(** [response.ok] *)
Definition response_ok (status : Z) : bool :=
  (200 <=? status)%Z && (status <=? 299)%Z.

Definition getTXBannerContent (upstream : fetch_outcome) : TXResult.t :=
  try_catch
    (match upstream with
     | FetchRejected e => Abrupt e
     | FetchResponse status body =>
         if negb (response_ok status) then mret {| TXResult.code := status; TXResult.list := [] |}
         else
           data ← body;
           let bannerItems := parseTXBannerData data in
           mret {| TXResult.code := 200; TXResult.list := bannerItems |}
     end)
    (fun _ => {| TXResult.code := 500; TXResult.list := [] |}).

(** The part of the configuration the handler reads; a field that is
    not set is [None]. *)
Record site_config : Type := mkSiteConfig {
  BannerDataSource : option string;
  TMDBApiKey : option string;
  TMDBProxy : option string
}.

Record admin_config : Type := mkAdminConfig {
  SiteConfig : option site_config
}.

(** A string that may be [undefined], as a condition. *)
Definition string_truthy (s : option string) : bool :=
  match s with
  | Some x => negb (String.eqb x "")
  | None => false
  end.

(** [s || d] on strings *)
Definition string_or (s : option string) (d : string) : string :=
  if string_truthy s then default d s else d.

(** [config.SiteConfig?.BannerDataSource || 'TMDB'] *)
Definition bannerDataSource (config : admin_config) : string :=
  string_or (SiteConfig config ≫= BannerDataSource) "TMDB".

Inductive upstream : Type := TX | TMDB.

Section Handler.

(** What [getTMDBTrendingContent] resolves to; the client of the
    metadata provider is not part of these sources. *)
Context {TMDBContent : Type}.

Inductive data : Type :=
  | TXData (result : TXResult.t)
  | TMDBData (result : TMDBContent).

Record CacheEntry : Type := mkCacheEntry {
  entry_data : data;
  timestamp : Z
}.

(** The two module-level variables. *)
Record Caches : Type := mkCaches {
  tmdbCache : option CacheEntry;
  txCache : option CacheEntry
}.

Inductive body : Type :=
  | DataBody (d : data)
  | ErrorBody (code : Z) (message : string).

(** [NextResponse.json(body, { status })]; the status is 200 when none
    is given. *)
Record Response : Type := mkResponse {
  status : Z;
  response_body : body
}.

(** What one call of the handler meets: the configuration loader, the
    clock when the cache is checked and when it is filled, and the two
    upstream services. *)
Record World : Type := mkWorld {
  getConfig : completion admin_config;
  now_at_check : Z;
  tx_upstream : fetch_outcome;
  getTMDBTrendingContent : string -> option string -> completion TMDBContent;
  now_at_store : Z
}.

(** What a call leaves: the response, the caches, and the upstream
    services it called. *)
Record Outcome : Type := mkOutcome {
  response : Response;
  caches : Caches;
  upstream_calls : list upstream
}.

(** [cache && Date.now() - cache.timestamp < CACHE_DURATION], with the
    data of the entry when it holds. *)
Definition cache_hit (cache : option CacheEntry) (now : Z) : option data :=
  match cache with
  | Some entry =>
      if (now - timestamp entry <? CACHE_DURATION)%Z then Some (entry_data entry)
      else None
  | None => None
  end.

Definition json_response (d : data) : Response :=
  {| status := 200; response_body := DataBody d |}.

Definition missing_api_key : Response :=
  {| status := 400; response_body := ErrorBody 400 "TMDB API Key 未配置" |}.

(** The response of the [catch] clause. *)
Definition failed : Response :=
  {| status := 500; response_body := ErrorBody 500 "获取热门内容失败" |}.

(** [bannerDataSource === 'TX' ? txCache : tmdbCache] *)
Definition slot (bannerDataSource : string) (c : Caches) : option CacheEntry :=
  if String.eqb bannerDataSource "TX" then txCache c else tmdbCache c.

Definition GET (w : World) (c : Caches) : Outcome :=
  match getConfig w with
  | Abrupt _ => {| response := failed; caches := c; upstream_calls := [] |}
  | Normal config =>
      let bannerDataSource := bannerDataSource config in
      let cache := slot bannerDataSource c in
      match cache_hit cache (now_at_check w) with
      | Some cached =>
          {| response := json_response cached; caches := c; upstream_calls := [] |}
      | None =>
          if String.eqb bannerDataSource "TX" then
            let result := TXData (getTXBannerContent (tx_upstream w)) in
            {| response := json_response result;
               caches := {| tmdbCache := tmdbCache c;
                            txCache := Some {| entry_data := result;
                                               timestamp := now_at_store w |} |};
               upstream_calls := [TX] |}
          else
            let apiKey := SiteConfig config ≫= TMDBApiKey in
            let proxy := SiteConfig config ≫= TMDBProxy in
            if negb (string_truthy apiKey) then
              {| response := missing_api_key; caches := c; upstream_calls := [] |}
            else
              match getTMDBTrendingContent w (default "" apiKey) proxy with
              | Abrupt _ =>
                  {| response := failed; caches := c; upstream_calls := [TMDB] |}
              | Normal result =>
                  let result := TMDBData result in
                  {| response := json_response result;
                     caches := {| tmdbCache := Some {| entry_data := result;
                                                       timestamp := now_at_store w |};
                                  txCache := txCache c |};
                     upstream_calls := [TMDB] |}
              end
      end
  end.

(** The caches with the slot of a source emptied. *)
Definition without_slot (bannerDataSource : string) (c : Caches) : Caches :=
  if String.eqb bannerDataSource "TX"
  then {| tmdbCache := tmdbCache c; txCache := None |}
  else {| tmdbCache := None; txCache := txCache c |}.

End Handler.

End TrendingRoute.

(** ** The banner carousel component *)

Module BannerCarousel.
Import Js.

Definition LOCALSTORAGE_KEY : string := "tmdb_trending_cache".

(** 1 day, in milliseconds. *)
Definition LOCALSTORAGE_DURATION : Z := 24 * 60 * 60 * 1000.

(** *** Navigation

    The state the navigation callbacks touch.  [%] of JavaScript is the
    remainder of the truncated division, [Z.rem]. *)
Record Carousel : Type := mkCarousel {
  currentIndex : Z;
  isPaused : bool;
  skipNextAutoPlay : bool;
  isManualChange : bool
}.

Definition goToPrevious (items_length : Z) (s : Carousel) : Carousel :=
  {| isManualChange := true;
     skipNextAutoPlay := true;
     currentIndex := Z.rem (currentIndex s - 1 + items_length) items_length;
     isPaused := isPaused s |}.

Definition goToNext (items_length : Z) (s : Carousel) : Carousel :=
  {| isManualChange := true;
     skipNextAutoPlay := true;
     currentIndex := Z.rem (currentIndex s + 1) items_length;
     isPaused := isPaused s |}.

Definition goToSlide (index : Z) (s : Carousel) : Carousel :=
  {| isManualChange := true;
     skipNextAutoPlay := true;
     currentIndex := index;
     isPaused := isPaused s |}.

(** The callback of [setTimeout(.., 100)]. *)
Definition manualChangeDone (s : Carousel) : Carousel :=
  {| isManualChange := false;
     skipNextAutoPlay := skipNextAutoPlay s;
     currentIndex := currentIndex s;
     isPaused := isPaused s |}.

(** The callback of the auto-play timer, which runs only while there
    are items and the carousel is not paused. *)
Definition autoPlayTick (items_length : Z) (s : Carousel) : Carousel :=
  if skipNextAutoPlay s then
    {| isManualChange := isManualChange s;
       skipNextAutoPlay := false;
       currentIndex := currentIndex s;
       isPaused := isPaused s |}
  else
    {| isManualChange := isManualChange s;
       skipNextAutoPlay := skipNextAutoPlay s;
       currentIndex := Z.rem (currentIndex s + 1) items_length;
       isPaused := isPaused s |}.

Definition initial : Carousel :=
  {| currentIndex := 0; isPaused := false;
     skipNextAutoPlay := false; isManualChange := false |}.

(** *** The client cache *)

Section FetchTrending.

(** [JSON.parse] and [JSON.stringify] of the platform. *)
Variable JSON_parse : string -> completion json.
Variable JSON_stringify : json -> string.

(** ToNumber of the platform on strings, arrays and objects; [None]
    when the result is NaN or the conversion raises. *)
Variable ToNumber_other : json -> option Z.

Definition ToNumber (v : value) : option Z :=
  match v with
  | None => None
  | Some JNull => Some 0%Z
  | Some (JBool b) => Some (if b then 1 else 0)%Z
  | Some (JNum n) => Some n
  | Some other => ToNumber_other other
  end.

(** [a - b < c] and [a > c] with [b], respectively [a], converted to a
    number; a comparison with NaN is false. *)
Definition minus_lt (a : Z) (b : value) (c : Z) : bool :=
  match ToNumber b with
  | Some b => (a - b <? c)%Z
  | None => false
  end.

Definition gt (a : value) (c : Z) : bool :=
  match ToNumber a with
  | Some a => (c <? a)%Z
  | None => false
  end.

(** [v.length]; of a string the number of bytes, which is 0 exactly
    when the number of code units is. *)
Definition length_of (v : value) : completion value :=
  match v with
  | None | Some JNull => Abrupt TypeError
  | Some (JArr l) => Normal (Some (JNum (Z.of_nat (length l))))
  | Some (JStr s) => Normal (Some (JNum (Z.of_nat (String.length s))))
  | Some (JObj fields) => Normal (field "length" fields)
  | Some _ => Normal None
  end.

(** The inner [try] of the read: [Some data] when the stored text
    parses and is not expired, [data] being what [setItems] receives;
    [None] when the request goes on to the API. *)
Definition read_cached (cached : string) (now : Z) : option value :=
  try_catch
    (parsed ← JSON_parse cached;
     data ← get (Some parsed) "data";
     timestamp ← get (Some parsed) "timestamp";
     mret (if minus_lt now timestamp LOCALSTORAGE_DURATION then Some data else None))
    (fun _ => None).

(** [result.code === 200 && result.list.length > 0], with [result.list]
    when it holds. *)
Definition usable (result : json) : completion (option json) :=
  code ← get (Some result) "code";
  match code with
  | Some (JNum 200) =>
      list ← get (Some result) "list";
      len ← length_of list;
      mret (if gt len 0 then list else None)
  | _ => mret None
  end.

(** [{ data: list, timestamp: now }] *)
Definition cache_record (list : json) (now : Z) : json :=
  JObj [("data", list); ("timestamp", JNum now)].

(** The state of the component the effect sets. *)
Record View : Type := mkView {
  items : value;
  isLoading : bool
}.

(** The clock when the cache is read, the answer of
    [fetch('/api/tmdb/trending')] followed by [response.json()], and the
    clock when the cache is written. *)
Record World : Type := mkWorld {
  now_at_read : Z;
  api : completion json;
  now_at_write : Z
}.

Record Outcome : Type := mkOutcome {
  view : View;
  localStorage : Storage;
  requested : bool
}.

Definition fetchTrending (w : World) (localStorage : Storage) (v : View) : Outcome :=
  let finally (items : value) (localStorage : Storage) (requested : bool) :=
    {| view := {| items := items; isLoading := false |};
       localStorage := localStorage;
       requested := requested |} in
  match getItem localStorage LOCALSTORAGE_KEY with
  | Abrupt _ => finally (items v) localStorage false
  | Normal cached =>
      let hit :=
        match cached with
        | Some cached =>
            if String.eqb cached "" then None else read_cached cached (now_at_read w)
        | None => None
        end in
      match hit with
      | Some data => finally data localStorage false
      | None =>
          match api w ≫= usable with
          | Abrupt _ | Normal None => finally (items v) localStorage true
          | Normal (Some list) =>
              let localStorage' :=
                try_catch
                  (setItem localStorage LOCALSTORAGE_KEY
                     (JSON_stringify (cache_record list (now_at_write w))))
                  (fun _ => localStorage) in
              finally (Some list) localStorage' true
          end
      end
  end.

End FetchTrending.

End BannerCarousel.

(** ** The events of the carousel

    The handlers the rendered carousel attaches, on the navigation state
    and the two refs of the touch handlers.  A coordinate is a whole
    number of pixels. *)

Module CarouselEvents.
Import BannerCarousel.

Record Component : Type := mkComponent {
  carousel : Carousel;
  touchStartX : Z;
  touchEndX : Z
}.

Definition on_carousel (f : Carousel -> Carousel) (t : Component) : Component :=
  {| carousel := f (carousel t);
     touchStartX := touchStartX t;
     touchEndX := touchEndX t |}.

Definition handleTouchStart (clientX : Z) (t : Component) : Component :=
  if isManualChange (carousel t) then t
  else {| carousel := carousel t; touchStartX := clientX; touchEndX := 0 |}.

Definition handleTouchMove (clientX : Z) (t : Component) : Component :=
  if isManualChange (carousel t) then t
  else {| carousel := carousel t; touchStartX := touchStartX t; touchEndX := clientX |}.

Definition handleTouchEnd (items_length : Z) (t : Component) : Component :=
  if isManualChange (carousel t) then t
  else if (touchStartX t =? 0)%Z then t
  else
    let carousel' :=
      if negb (touchEndX t =? 0)%Z then
        let distance := (touchStartX t - touchEndX t)%Z in
        let minSwipeDistance := 50%Z in
        if (minSwipeDistance <? Z.abs distance)%Z then
          if (0 <? distance)%Z then goToNext items_length (carousel t)
          else goToPrevious items_length (carousel t)
        else carousel t
      else carousel t in
    {| carousel := carousel'; touchStartX := 0; touchEndX := 0 |}.

(** [setIsPaused] *)
Definition setIsPaused (paused : bool) (s : Carousel) : Carousel :=
  {| isManualChange := isManualChange s;
     skipNextAutoPlay := skipNextAutoPlay s;
     currentIndex := currentIndex s;
     isPaused := paused |}.

(** What can happen to the rendered carousel: the pointer enters or
    leaves it, a touch starts, moves or ends, one of the two arrows or
    the indicator of a slide is clicked, the auto-play timer fires, the
    100 ms timeout of a manual change runs out. *)
Inductive event : Type :=
  | MouseEnter
  | MouseLeave
  | TouchStart (clientX : Z)
  | TouchMove (clientX : Z)
  | TouchEnd
  | ClickPrevious
  | ClickNext
  | ClickIndicator (index : nat)
  | AutoPlayTimer
  | ManualChangeTimeout.

(** There is an indicator for each index of [items], and a timer only
    while there are items and the carousel is not paused. *)
Definition step (items_length : Z) (t : Component) (e : event) : Component :=
  match e with
  | MouseEnter => on_carousel (setIsPaused true) t
  | MouseLeave => on_carousel (setIsPaused false) t
  | TouchStart clientX => handleTouchStart clientX t
  | TouchMove clientX => handleTouchMove clientX t
  | TouchEnd => handleTouchEnd items_length t
  | ClickPrevious => on_carousel (goToPrevious items_length) t
  | ClickNext => on_carousel (goToNext items_length) t
  | ClickIndicator index =>
      if (Z.of_nat index <? items_length)%Z
      then on_carousel (goToSlide (Z.of_nat index)) t
      else t
  | AutoPlayTimer =>
      if (items_length =? 0)%Z || isPaused (carousel t) then t
      else on_carousel (autoPlayTick items_length) t
  | ManualChangeTimeout => on_carousel manualChangeDone t
  end.

Definition run (items_length : Z) (t : Component) (events : list event) : Component :=
  foldl (step items_length) t events.

(** A touch gesture: the start, the moves, the end. *)
Definition gesture (start : Z) (moves : list Z) : list event :=
  (TouchStart start :: map TouchMove moves ++ [TouchEnd])%list.

Definition mounted : Component :=
  {| carousel := initial; touchStartX := 0; touchEndX := 0 |}.

(** The clicks that navigate. *)
Definition manual (e : event) : bool :=
  match e with
  | ClickPrevious | ClickNext | ClickIndicator _ => true
  | _ => false
  end.

End CarouselEvents.

(** ** The danmaku panel

    The state of the panel and its handlers.  The two calls of the
    danmaku API are given from outside: what the promise of
    [searchAnime] and of [getEpisodes] settles with.  Of the anime and
    episode types the fields the handlers read are kept. *)

Module DanmakuAnime.
Record t : Type := mk {
  animeId : Z;
  animeTitle : string
}.
End DanmakuAnime.

Module DanmakuEpisode.
Record t : Type := mk {
  episodeId : Z;
  episodeTitle : string
}.
End DanmakuEpisode.

Module DanmakuSelection.
Record t : Type := mk {
  animeId : Z;
  episodeId : Z;
  animeTitle : string;
  episodeTitle : string;
  searchKeyword : option string
}.
End DanmakuSelection.

Module DanmakuPanel.
Import Js.

(** [s.trim()]: [trimEnd] cuts the string where what follows is white
    space only. *)
Fixpoint trim_end (s : string) : string :=
  match s with
  | EmptyString => EmptyString
  | String c r => if String.eqb (trim_start s) "" then EmptyString else String c (trim_end r)
  end.

Definition trim (s : string) : string := trim_end (trim_start s).

(** The answers of the API. *)
Record SearchResponse : Type := mkSearchResponse {
  search_success : bool;
  animes : list DanmakuAnime.t;
  errorMessage : option string
}.

Record Bangumi : Type := mkBangumi {
  bangumi_episodes : list DanmakuEpisode.t
}.

Record EpisodesResponse : Type := mkEpisodesResponse {
  episodes_success : bool;
  bangumi : Bangumi
}.

Record Panel : Type := mkPanel {
  searchKeyword : string;
  searchResults : list DanmakuAnime.t;
  selectedAnime : option DanmakuAnime.t;
  episodes : list DanmakuEpisode.t;
  isSearching : bool;
  isLoadingEpisodes : bool;
  searchError : option string;
  initializedRef : bool
}.

Definition setSearchKeyword (x : string) (p : Panel) : Panel :=
  {| searchKeyword := x; searchResults := searchResults p;
     selectedAnime := selectedAnime p; episodes := episodes p;
     isSearching := isSearching p; isLoadingEpisodes := isLoadingEpisodes p;
     searchError := searchError p; initializedRef := initializedRef p |}.

Definition setSearchResults (x : list DanmakuAnime.t) (p : Panel) : Panel :=
  {| searchKeyword := searchKeyword p; searchResults := x;
     selectedAnime := selectedAnime p; episodes := episodes p;
     isSearching := isSearching p; isLoadingEpisodes := isLoadingEpisodes p;
     searchError := searchError p; initializedRef := initializedRef p |}.

Definition setSelectedAnime (x : option DanmakuAnime.t) (p : Panel) : Panel :=
  {| searchKeyword := searchKeyword p; searchResults := searchResults p;
     selectedAnime := x; episodes := episodes p;
     isSearching := isSearching p; isLoadingEpisodes := isLoadingEpisodes p;
     searchError := searchError p; initializedRef := initializedRef p |}.

Definition setEpisodes (x : list DanmakuEpisode.t) (p : Panel) : Panel :=
  {| searchKeyword := searchKeyword p; searchResults := searchResults p;
     selectedAnime := selectedAnime p; episodes := x;
     isSearching := isSearching p; isLoadingEpisodes := isLoadingEpisodes p;
     searchError := searchError p; initializedRef := initializedRef p |}.

Definition setIsSearching (x : bool) (p : Panel) : Panel :=
  {| searchKeyword := searchKeyword p; searchResults := searchResults p;
     selectedAnime := selectedAnime p; episodes := episodes p;
     isSearching := x; isLoadingEpisodes := isLoadingEpisodes p;
     searchError := searchError p; initializedRef := initializedRef p |}.

Definition setIsLoadingEpisodes (x : bool) (p : Panel) : Panel :=
  {| searchKeyword := searchKeyword p; searchResults := searchResults p;
     selectedAnime := selectedAnime p; episodes := episodes p;
     isSearching := isSearching p; isLoadingEpisodes := x;
     searchError := searchError p; initializedRef := initializedRef p |}.

Definition setSearchError (x : option string) (p : Panel) : Panel :=
  {| searchKeyword := searchKeyword p; searchResults := searchResults p;
     selectedAnime := selectedAnime p; episodes := episodes p;
     isSearching := isSearching p; isLoadingEpisodes := isLoadingEpisodes p;
     searchError := x; initializedRef := initializedRef p |}.

Definition setInitialized (x : bool) (p : Panel) : Panel :=
  {| searchKeyword := searchKeyword p; searchResults := searchResults p;
     selectedAnime := selectedAnime p; episodes := episodes p;
     isSearching := isSearching p; isLoadingEpisodes := isLoadingEpisodes p;
     searchError := searchError p; initializedRef := x |}.

(** The panel when it is mounted. *)
Definition mounted : Panel :=
  {| searchKeyword := ""; searchResults := []; selectedAnime := None; episodes := [];
     isSearching := false; isLoadingEpisodes := false; searchError := None;
     initializedRef := false |}.

Section Handlers.

Variable searchAnime : string -> completion SearchResponse.
Variable getEpisodes : Z -> completion EpisodesResponse.

(** The panel a search leaves, and the keywords the API was asked
    for. *)
Record Searched : Type := mkSearched {
  panel : Panel;
  asked : list string
}.

Definition handleSearch (keyword : string) (p : Panel) : Searched :=
  if String.eqb (trim keyword) "" then
    {| panel := setSearchError (Some "请输入搜索关键词") p; asked := [] |}
  else
    let p := setSearchError None (setIsSearching true p) in
    let p :=
      try_catch
        (response ← searchAnime (trim keyword);
         mret
           (if search_success response && (0 <? length (animes response))%nat then
              setSearchError None (setSearchResults (animes response) p)
            else
              setSearchError
                (Some (TrendingRoute.string_or (errorMessage response)
                         "未找到匹配的剧集，请尝试其他关键词"))
                (setSearchResults [] p)))
        (fun _ =>
           setSearchResults []
             (setSearchError (Some "搜索失败，请检查弹幕 API 服务是否正常运行") p)) in
    {| panel := setIsSearching false p; asked := [trim keyword] |}.

Definition handleAnimeSelect (anime : DanmakuAnime.t) (p : Panel) : Panel :=
  let p := setIsLoadingEpisodes true (setSelectedAnime (Some anime) p) in
  let p :=
    try_catch
      (response ← getEpisodes (DanmakuAnime.animeId anime);
       mret
         (if episodes_success response
             && (0 <? length (bangumi_episodes (bangumi response)))%nat then
            setEpisodes (bangumi_episodes (bangumi response)) p
          else
            setSearchError (Some "该剧集暂无弹幕信息") (setEpisodes [] p)))
      (fun _ => setSearchError (Some "获取剧集失败") (setEpisodes [] p)) in
  setIsLoadingEpisodes false p.

End Handlers.

(** What [onDanmakuSelect] is called with, if it is called. *)
Definition handleEpisodeSelect (episode : DanmakuEpisode.t) (p : Panel)
    : option DanmakuSelection.t :=
  match selectedAnime p with
  | None => None
  | Some selectedAnime =>
      Some {| DanmakuSelection.animeId := DanmakuAnime.animeId selectedAnime;
              DanmakuSelection.episodeId := DanmakuEpisode.episodeId episode;
              DanmakuSelection.animeTitle := DanmakuAnime.animeTitle selectedAnime;
              DanmakuSelection.episodeTitle := DanmakuEpisode.episodeTitle episode;
              DanmakuSelection.searchKeyword :=
                if String.eqb (trim (searchKeyword p)) "" then None
                else Some (trim (searchKeyword p)) |}
  end.

Definition handleBackToResults (p : Panel) : Panel :=
  setEpisodes [] (setSelectedAnime None p).

(** [currentSelection?.episodeId === episodeId] *)
Definition isEpisodeSelected (currentSelection : option DanmakuSelection.t)
    (episodeId : Z) : bool :=
  match currentSelection with
  | Some selection => (DanmakuSelection.episodeId selection =? episodeId)%Z
  | None => false
  end.

(** The effect that runs when [videoTitle] changes. *)
Definition onVideoTitle (videoTitle : string) (p : Panel) : Panel :=
  if negb (String.eqb videoTitle "") && negb (initializedRef p) then
    setInitialized true (setSearchKeyword videoTitle p)
  else p.

(** What fills the search box: the title of the video, through the
    effect, and the user, through [onChange]. *)
Inductive input : Type :=
  | VideoTitle (videoTitle : string)
  | Typed (text : string).

Definition fill (p : Panel) (i : input) : Panel :=
  match i with
  | VideoTitle videoTitle => onVideoTitle videoTitle p
  | Typed text => setSearchKeyword text p
  end.

Definition typed (i : input) : option string :=
  match i with
  | Typed text => Some text
  | VideoTitle _ => None
  end.

End DanmakuPanel.

(** ** JSON text

    An implementation of [JSON.stringify] and [JSON.parse] on the values
    of the model, to run the client cache on.  Numbers are integers: a
    number with a fraction or an exponent is outside the model and is
    refused by [parse].  Strings are UTF-8 texts: an escaped surrogate
    pair is read as the code point it stands for, and an escaped
    surrogate without its partner, which no UTF-8 text holds, is outside
    the model and refused. *)

Module JsonText.
Import Js.

Definition dquote : ascii := "034".
Definition backslash : ascii := "092".

Definition hex_digit (n : N) : ascii :=
  if (n <? 10)%N then ascii_of_N (48 + n) else ascii_of_N (87 + n).

(** QuoteJSONString, one character. *)
Definition escape_char (c : ascii) : string :=
  let n := N_of_ascii c in
  if (n =? 34)%N then String backslash (String dquote "")
  else if (n =? 92)%N then String backslash (String backslash "")
  else if (n =? 8)%N then String backslash "b"
  else if (n =? 9)%N then String backslash "t"
  else if (n =? 10)%N then String backslash "n"
  else if (n =? 12)%N then String backslash "f"
  else if (n =? 13)%N then String backslash "r"
  else if (n <? 32)%N then
    String backslash (String "u" (String "0" (String "0"
      (String (hex_digit (n / 16)) (String (hex_digit (n mod 16)) "")))))
  else String c "".

Fixpoint escape (s : string) : string :=
  match s with
  | EmptyString => ""
  | String c r => escape_char c ++ escape r
  end.

Definition quote (s : string) : string :=
  String dquote (escape s ++ String dquote "").

Fixpoint join (sep : string) (l : list string) : string :=
  match l with
  | [] => ""
  | [x] => x
  | x :: rest => x ++ sep ++ join sep rest
  end.

Fixpoint stringify (v : json) : string :=
  match v with
  | JNull => "null"
  | JBool true => "true"
  | JBool false => "false"
  | JNum n => Number_toString n
  | JStr s => quote s
  | JArr l => "[" ++ join "," (map stringify l) ++ "]"
  | JObj fields =>
      "{" ++ join "," (map (fun '(k, v) => quote k ++ ":" ++ stringify v) fields) ++ "}"
  end.

Definition is_ws (c : ascii) : bool :=
  let n := N_of_ascii c in
  ((n =? 32) || (n =? 9) || (n =? 10) || (n =? 13))%N.

Fixpoint skip_ws (s : string) : string :=
  match s with
  | String c r => if is_ws c then skip_ws r else s
  | EmptyString => ""
  end.

Definition hex_val (c : ascii) : option N :=
  let n := N_of_ascii c in
  if ((48 <=? n) && (n <=? 57))%N then Some (n - 48)%N
  else if ((97 <=? n) && (n <=? 102))%N then Some (n - 87)%N
  else if ((65 <=? n) && (n <=? 70))%N then Some (n - 55)%N
  else None.

(** The UTF-8 bytes of a code point. *)
Definition utf8 (cp : N) : string :=
  if (cp <? 128)%N then String (ascii_of_N cp) ""
  else if (cp <? 2048)%N then
    String (ascii_of_N (192 + cp / 64)) (String (ascii_of_N (128 + cp mod 64)) "")
  else if (cp <? 65536)%N then
    String (ascii_of_N (224 + cp / 4096))
      (String (ascii_of_N (128 + (cp / 64) mod 64))
         (String (ascii_of_N (128 + cp mod 64)) ""))
  else
    String (ascii_of_N (240 + cp / 262144))
      (String (ascii_of_N (128 + (cp / 4096) mod 64))
         (String (ascii_of_N (128 + (cp / 64) mod 64))
            (String (ascii_of_N (128 + cp mod 64)) ""))).

(** The code unit four hexadecimal digits stand for. *)
Definition hex4 (h1 h2 h3 h4 : ascii) : option N :=
  match hex_val h1, hex_val h2, hex_val h3, hex_val h4 with
  | Some a, Some b, Some c, Some d => Some (4096 * a + 256 * b + 16 * c + d)%N
  | _, _, _, _ => None
  end.

Definition high_surrogate (u : N) : bool := (55296 <=? u)%N && (u <=? 56319)%N.
Definition low_surrogate (u : N) : bool := (56320 <=? u)%N && (u <=? 57343)%N.

(** The character a two-character escape stands for. *)
Definition unescape (e : ascii) : option ascii :=
  let n := N_of_ascii e in
  if (n =? 34)%N then Some dquote
  else if (n =? 92)%N then Some backslash
  else if (n =? 47)%N then Some "/"%char
  else if (n =? 98)%N then Some "008"%char
  else if (n =? 116)%N then Some "009"%char
  else if (n =? 110)%N then Some "010"%char
  else if (n =? 102)%N then Some "012"%char
  else if (n =? 114)%N then Some "013"%char
  else None.

Definition prepend (s : string) (r : option (string * string)) : option (string * string) :=
  match r with
  | Some (content, rest) => Some (s ++ content, rest)
  | None => None
  end.

(** The characters of a string up to its closing quote, and the text
    behind it. *)
Fixpoint parse_chars (s : string) : option (string * string) :=
  match s with
  | EmptyString => None
  | String c r =>
      if Ascii.eqb c dquote then Some ("", r)
      else if Ascii.eqb c backslash then
        match r with
        | String e r' =>
            match unescape e with
            | Some c' => prepend (String c' "") (parse_chars r')
            | None =>
                if Ascii.eqb e "u" then
                  match r' with
                  | String h1 (String h2 (String h3 (String h4 r''))) =>
                      match hex4 h1 h2 h3 h4 with
                      | Some u =>
                          if high_surrogate u then
                            match r'' with
                            | String b2 (String e2
                                (String l1 (String l2 (String l3 (String l4 r3))))) =>
                                if Ascii.eqb b2 backslash && Ascii.eqb e2 "u" then
                                  match hex4 l1 l2 l3 l4 with
                                  | Some v =>
                                      if low_surrogate v then
                                        prepend
                                          (utf8 (65536 + (u - 55296) * 1024 + (v - 56320))%N)
                                          (parse_chars r3)
                                      else None
                                  | None => None
                                  end
                                else None
                            | _ => None
                            end
                          else if low_surrogate u then None
                          else prepend (utf8 u) (parse_chars r'')
                      | None => None
                      end
                  | _ => None
                  end
                else None
            end
        | EmptyString => None
        end
      else if (N_of_ascii c <? 32)%N then None
      else prepend (String c "") (parse_chars r)
  end.

Fixpoint span_digits (s : string) : string * string :=
  match s with
  | String c r =>
      match digit_val c with
      | Some _ => let (digits, rest) := span_digits r in (String c digits, rest)
      | None => ("", s)
      end
  | EmptyString => ("", "")
  end.

(** The digits of a number behind its sign. *)
Definition parse_unsigned (negative : bool) (body : string) : option (json * string) :=
  let (digits, rest) := span_digits body in
  let leading_zero :=
    match digits with
    | String c (String _ _) => Ascii.eqb c "0"
    | _ => false
    end in
  let fraction :=
    match rest with
    | String c _ => Ascii.eqb c "." || Ascii.eqb c "e" || Ascii.eqb c "E"
    | EmptyString => false
    end in
  if leading_zero || fraction then None
  else
    match read_digits digits 0 false with
    | Some n => Some (JNum (if negative then - Z.of_N n else Z.of_N n)%Z, rest)
    | None => None
    end.

Definition parse_number (s : string) : option (json * string) :=
  match s with
  | String c r => if Ascii.eqb c "-" then parse_unsigned true r else parse_unsigned false s
  | EmptyString => None
  end.

(** What may follow a value inside a text: nothing, or one of [,],
    []] and [}]. *)
Definition at_delimiter (rest : string) : bool :=
  match rest with
  | EmptyString => true
  | String c _ => Ascii.eqb c "," || Ascii.eqb c "]" || Ascii.eqb c "}"
  end.

(** The text behind the word [p], when [s] starts with it. *)
Fixpoint strip_prefix (p s : string) : option string :=
  match p with
  | EmptyString => Some s
  | String a p' =>
      match s with
      | String b s' => if Ascii.eqb a b then strip_prefix p' s' else None
      | EmptyString => None
      end
  end.

Definition literal (word : string) (v : json) (s : string) : option (json * string) :=
  match strip_prefix word s with
  | Some rest => Some (v, rest)
  | None => None
  end.

(** A property defined twice keeps its place and takes the later value. *)
Fixpoint set_field (k : string) (v : json) (fields : list (string * json))
  : list (string * json) :=
  match fields with
  | [] => [(k, v)]
  | (k', v') :: rest =>
      if String.eqb k k' then (k, v) :: rest else (k', v') :: set_field k v rest
  end.

Fixpoint parse_value (fuel : nat) (s : string) : option (json * string) :=
  match fuel with
  | O => None
  | S fuel =>
      match skip_ws s with
      | EmptyString => None
      | String c r as s =>
          if Ascii.eqb c "n" then literal "null" JNull s
          else if Ascii.eqb c "t" then literal "true" (JBool true) s
          else if Ascii.eqb c "f" then literal "false" (JBool false) s
          else if Ascii.eqb c dquote then
            match parse_chars r with
            | Some (content, rest) => Some (JStr content, rest)
            | None => None
            end
          else if Ascii.eqb c "[" then
            match skip_ws r with
            | String c' r' as inner =>
                if Ascii.eqb c' "]" then Some (JArr [], r')
                else
                  match parse_elements fuel inner with
                  | Some (elements, rest) => Some (JArr elements, rest)
                  | None => None
                  end
            | EmptyString => None
            end
          else if Ascii.eqb c "{" then
            match skip_ws r with
            | String c' r' as inner =>
                if Ascii.eqb c' "}" then Some (JObj [], r')
                else
                  match parse_members fuel inner [] with
                  | Some (fields, rest) => Some (JObj fields, rest)
                  | None => None
                  end
            | EmptyString => None
            end
          else parse_number s
      end
  end
with parse_elements (fuel : nat) (s : string) : option (list json * string) :=
  match fuel with
  | O => None
  | S fuel =>
      match parse_value fuel s with
      | Some (v, rest) =>
          match skip_ws rest with
          | String c r =>
              if Ascii.eqb c "," then
                match parse_elements fuel r with
                | Some (vs, rest') => Some (v :: vs, rest')
                | None => None
                end
              else if Ascii.eqb c "]" then Some ([v], r)
              else None
          | EmptyString => None
          end
      | None => None
      end
  end
with parse_members (fuel : nat) (s : string) (acc : list (string * json))
  : option (list (string * json) * string) :=
  match fuel with
  | O => None
  | S fuel =>
      match skip_ws s with
      | String q r =>
          if Ascii.eqb q dquote then
            match parse_chars r with
            | Some (k, rest) =>
                match skip_ws rest with
                | String colon rest' =>
                    if Ascii.eqb colon ":" then
                      match parse_value fuel rest' with
                      | Some (v, rest'') =>
                          let acc := set_field k v acc in
                          match skip_ws rest'' with
                          | String c r' =>
                              if Ascii.eqb c "," then parse_members fuel r' acc
                              else if Ascii.eqb c "}" then Some (acc, r')
                              else None
                          | EmptyString => None
                          end
                      | None => None
                      end
                    else None
                | EmptyString => None
                end
            | None => None
            end
          else None
      | EmptyString => None
      end
  end.

Definition parse (s : string) : completion json :=
  match parse_value (S (String.length s)) s with
  | Some (v, rest) =>
      match skip_ws rest with
      | EmptyString => Normal v
      | String _ _ => Abrupt SyntaxError
      end
  | None => Abrupt SyntaxError
  end.

(** A conversion to run the samples with: the decimal text of an integer
    converts to that integer, and every other string, array and object
    is taken as NaN.  (The platform converts more: surrounding white
    space, other notations, arrays of one element.) *)
Definition ToNumber_other (v : json) : option Z :=
  match v with
  | JStr s => if String.eqb (Number_toString (default 0%Z (parseInt s))) s
              then parseInt s else None
  | _ => None
  end.

(** The values [parse] gives back as they are: every object names each
    of its properties once. *)
Fixpoint well_formed (v : json) : bool :=
  match v with
  | JArr l => forallb well_formed l
  | JObj fields =>
      bool_decide (NoDup (map fst fields))
      && forallb (fun '(_, v) => well_formed v) fields
  | _ => true
  end.

(** A bound on the fuel [parse_value] needs for the text of a value. *)
Fixpoint size (v : json) : nat :=
  match v with
  | JArr l => S (sum_list_with (fun v => S (size v)) l)
  | JObj fields => S (sum_list_with (fun '(_, v) => S (size v)) fields)
  | _ => 1
  end.

(** The text of a property. *)
Definition member (kv : string * json) : string :=
  let '(k, v) := kv in quote k ++ ":" ++ stringify v.

(** The first character of the text of a value is not white space and
    closes neither an array nor an object. *)
Definition opens_value (c : ascii) : Prop :=
  is_ws c = false /\ Ascii.eqb c "]" = false /\ Ascii.eqb c "}" = false.

(** [parse_value] reads a well-formed value back from its text, with
    fuel for its size and whatever delimiter follows. *)
Definition reads_back (v : json) : Prop :=
  well_formed v = true ->
  forall (fuel : nat) (rest : string),
    size v <= fuel -> at_delimiter rest = true ->
    parse_value fuel (stringify v ++ rest) = Some (v, rest).

End JsonText.

(** ** Sample inputs *)

Module Samples.
Import Js TrendingRoute.

Definition card (params : list (string * json)) : json :=
  JObj [("params", JObj params)].

(** A payload of the video portal: a banner card, then the shelf card
    with five cards, of which the second has no [params], the third is
    a promotional collection and the fourth has no image. *)
Definition tx_payload : json :=
  JObj [("data", JObj [("CardList", JArr [
    JObj [("type", JStr "pc_banner")];
    JObj [("type", JStr "pc_shelves");
          ("children_list", JObj [("list", JObj [("cards", JArr [
             card [("title", JStr "Show A");
                   ("priority_image_url", JStr "https://img/1.jpg");
                   ("topic_label", JStr "drama|2024||new");
                   ("rec_normal_reason", JStr "popular")];
             JObj [("id", JNum 5)];
             card [("title", JStr "Show B 免费合集");
                   ("priority_image_url", JStr "https://img/2.jpg")];
             card [("title", JStr "Show C")];
             card [("title", JStr "Show D");
                   ("priority_image_url", JStr "https://img/4.jpg")]
          ])])])]])])].

Definition show_a : BannerItem.t :=
  {| BannerItem.id := 1;
     BannerItem.title := JStr "Show A";
     BannerItem.subtitle := JStr "popular";
     BannerItem.tags := ["drama"; "2024"; "new"];
     BannerItem.backdrop_path := JStr "https://img/1.jpg";
     BannerItem.poster_path := JStr "https://img/1.jpg";
     BannerItem.release_date := "";
     BannerItem.overview := JStr "popular";
     BannerItem.vote_average := 0;
     BannerItem.media_type := "tv";
     BannerItem.genre_ids := [] |}.

(** A payload without a shelf card, one of its cards being [null]. *)
Definition no_shelf_payload : json :=
  JObj [("data", JObj [("CardList", JArr [JObj [("type", JStr "pc_banner")]; JNull])])].

(** Configurations: the video portal as source and no API key; the
    default source and no API key; the default source with a key. *)
Definition config_tx : admin_config :=
  {| SiteConfig := Some {| BannerDataSource := Some "TX";
                           TMDBApiKey := None; TMDBProxy := None |} |}.

Definition config_no_key : admin_config :=
  {| SiteConfig := Some {| BannerDataSource := None;
                           TMDBApiKey := None; TMDBProxy := None |} |}.

Definition config_with_key : admin_config :=
  {| SiteConfig := Some {| BannerDataSource := Some "TMDB";
                           TMDBApiKey := Some "k3y"; TMDBProxy := None |} |}.

(** The trending list of the metadata provider is taken as a [json]
    value here. *)
Definition tmdb_list : json :=
  JObj [("code", JNum 200); ("list", JArr [JObj [("id", JNum 7); ("title", JStr "Film")]])].

(** A call at time [now], the upstream services answering when asked. *)
Definition world (config : admin_config) (now : Z) : World (TMDBContent := json) :=
  {| getConfig := Normal config;
     now_at_check := now;
     tx_upstream := FetchResponse 200 (Normal tx_payload);
     getTMDBTrendingContent := fun _ _ => Normal tmdb_list;
     now_at_store := now + 250 |}.

Definition no_caches : Caches (TMDBContent := json) :=
  {| tmdbCache := None; txCache := None |}.

(** Caches whose slot of the metadata provider was filled at time 1000. *)
Definition tmdb_cached : Caches (TMDBContent := json) :=
  {| tmdbCache := Some {| entry_data := TMDBData tmdb_list; timestamp := 1000 |};
     txCache := None |}.

(** The runs of the carousel: the list the API answers with, an empty
    local storage, one that holds a text that is not JSON, a first visit
    at time 1000 and a second one at time 5000 with the network down. *)
Definition trending_list : json :=
  JArr [JObj [("id", JNum 7); ("title", JStr "Film")]].

Definition empty_storage : Storage :=
  {| denied := false; quota := None; entries := ∅ |}.

Definition corrupted_storage : Storage :=
  {| denied := false; quota := None;
     entries := {[ BannerCarousel.LOCALSTORAGE_KEY := "{oops" ]} |}.

Definition first_visit : BannerCarousel.World :=
  {| BannerCarousel.now_at_read := 1000;
     BannerCarousel.api := Normal tmdb_list;
     BannerCarousel.now_at_write := 1010 |}.

Definition second_visit : BannerCarousel.World :=
  {| BannerCarousel.now_at_read := 5000;
     BannerCarousel.api := Abrupt NetworkError;
     BannerCarousel.now_at_write := 5000 |}.

Definition loading : BannerCarousel.View :=
  {| BannerCarousel.items := Some (JArr []); BannerCarousel.isLoading := true |}.

End Samples.

(** * Properties *)

(** ** Facts about the platform model *)

Module JsFacts.
Import Js.

Lemma digit_val_char (d : N) : (d < 10)%N -> digit_val (digit_char d) = Some d.
Proof.
  intros Hd. unfold digit_val, digit_char.
  rewrite N_ascii_embedding by lia.
  replace (48 <=? 48 + d)%N with true by (symmetry; apply N.leb_le; lia).
  replace (48 + d <=? 57)%N with true by (symmetry; apply N.leb_le; lia).
  simpl. f_equal. lia.
Qed.

Lemma digits_onto_S (f : nat) (n : N) (rest : string) :
  digits_onto (S f) n rest =
  if (n / 10 =? 0)%N then String (digit_char (n mod 10)) rest
  else digits_onto f (n / 10) (String (digit_char (n mod 10)) rest).
Proof. reflexivity. Qed.

Lemma div10_zero (n : N) : (n / 10 = 0)%N -> (n < 10)%N.
Proof.
  intros Hq. pose proof (N.div_mod n 10 ltac:(lia)) as Hdm.
  pose proof (N.mod_lt n 10 ltac:(lia)). lia.
Qed.

(** Reading back the digits [digits_onto] writes: with enough fuel the
    reader is left with the accumulator scaled and [n] added. *)
Lemma read_digits_onto (f : nat) :
  forall (n : N) (rest : string) (a : N) (seen : bool),
    (n < 2 ^ N.of_nat (S f))%N ->
    exists k : N,
      read_digits (digits_onto (S f) n rest) a seen = read_digits rest (k * a + n) true.
Proof.
  induction f as [|f IH]; intros n rest a seen Hn; rewrite digits_onto_S.
  - assert (n < 2)%N as Hn2 by (simpl in Hn; lia).
    exists 10%N.
    assert (n / 10 = 0)%N as -> by (apply N.div_small; lia).
    simpl. rewrite N.mod_small by lia.
    rewrite digit_val_char by lia. reflexivity.
  - destruct (N.eqb_spec (n / 10) 0) as [Hq|Hq].
    + exists 10%N. apply div10_zero in Hq.
      cbn [read_digits]. rewrite N.mod_small by lia.
      rewrite digit_val_char by lia. reflexivity.
    + assert (n / 10 < 2 ^ N.of_nat (S f))%N as Hq'.
      { apply N.Div0.div_lt_upper_bound.
        rewrite (Nat2N.inj_succ (S f)), N.pow_succ_r' in Hn. lia. }
      destruct (IH (n / 10)%N (String (digit_char (n mod 10)) rest) a seen Hq') as [k Hk].
      exists (10 * k)%N. rewrite Hk. cbn [read_digits].
      rewrite digit_val_char by (apply N.mod_lt; lia).
      f_equal. pose proof (N.div_mod n 10 ltac:(lia)). lia.
Qed.

Lemma enough_fuel (n : N) : (n < 2 ^ N.of_nat (S (N.to_nat (N.log2 n))))%N.
Proof.
  rewrite Nat2N.inj_succ, N2Nat.id.
  destruct n as [|p]; [reflexivity|].
  apply N.log2_spec. lia.
Qed.

Lemma read_N_toString (n : N) (seen : bool) :
  read_digits (N_toString n) 0 seen = Some n.
Proof.
  unfold N_toString.
  destruct (read_digits_onto _ n "" 0%N seen (enough_fuel n)) as [k ->].
  simpl. f_equal. lia.
Qed.

(** The text of a number starts with a digit. *)
Lemma digits_onto_head (f : nat) :
  forall (n : N) (rest : string),
    exists (d : N) (r : string), (d < 10)%N /\ digits_onto (S f) n rest = String (digit_char d) r.
Proof.
  induction f as [|f IH]; intros n rest; rewrite digits_onto_S.
  - destruct (n / 10 =? 0)%N; exists (n mod 10)%N, rest;
      (split; [apply N.mod_lt; lia | reflexivity]).
  - destruct (n / 10 =? 0)%N.
    + exists (n mod 10)%N, rest. split; [apply N.mod_lt; lia | reflexivity].
    + apply IH.
Qed.

Lemma N_toString_head (n : N) :
  exists (d : N) (r : string), (d < 10)%N /\ N_toString n = String (digit_char d) r.
Proof. apply digits_onto_head. Qed.

Lemma small_cases (d : N) :
  (d < 10)%N ->
  d = 0%N \/ d = 1%N \/ d = 2%N \/ d = 3%N \/ d = 4%N \/
  d = 5%N \/ d = 6%N \/ d = 7%N \/ d = 8%N \/ d = 9%N.
Proof. lia. Qed.

Ltac eval_digit :=
  match goal with
  | H : context [digit_char ?d] |- _ =>
      let c := eval vm_compute in (digit_char d) in
      change (digit_char d) with c in *
  end.

(** A digit is neither white space nor a sign. *)
Lemma trim_start_digit (d : N) (r : string) :
  (d < 10)%N -> trim_start (String (digit_char d) r) = String (digit_char d) r.
Proof.
  intros Hd. unfold trim_start. cbn [String.length trim_start_fuel].
  destruct (small_cases d Hd) as [->|[->|[->|[->|[->|[->|[->|[->|[->| ->]]]]]]]]];
    destruct r as [|c2 [|c3 r3]]; reflexivity.
Qed.

Lemma trim_start_minus (r : string) : trim_start (String "-" r) = String "-" r.
Proof.
  unfold trim_start. cbn [String.length trim_start_fuel].
  destruct r as [|c2 [|c3 r3]]; reflexivity.
Qed.

Lemma parseInt_N_toString (n : N) : parseInt (N_toString n) = Some (Z.of_N n).
Proof.
  unfold parseInt.
  destruct (N_toString_head n) as (d & r & Hd & Heq).
  pose proof (read_N_toString n false) as Hread.
  rewrite Heq in *. rewrite trim_start_digit by exact Hd.
  destruct (small_cases d Hd) as [->|[->|[->|[->|[->|[->|[->|[->|[->| ->]]]]]]]]];
    eval_digit; cbv beta iota zeta; cbn [Ascii.eqb Bool.eqb]; rewrite Hread; reflexivity.
Qed.

(** [parseInt] reads back what [toString] writes. *)
Lemma parseInt_toString (z : Z) : parseInt (Number_toString z) = Some z.
Proof.
  unfold Number_toString. destruct (Z.ltb_spec z 0) as [Hneg|Hpos].
  - change ("-" ++ N_toString (Z.to_N (- z))) with (String "-" (N_toString (Z.to_N (- z)))).
    unfold parseInt. rewrite trim_start_minus. cbv beta iota zeta.
    cbn [Ascii.eqb Bool.eqb]. rewrite read_N_toString. simpl. f_equal. lia.
  - rewrite parseInt_N_toString. f_equal. lia.
Qed.

(** *** Strings *)

Lemma append_nil_l (s : string) : "" ++ s = s.
Proof. reflexivity. Qed.

Lemma append_cons (c : ascii) (a b : string) : String c a ++ b = String c (a ++ b).
Proof. reflexivity. Qed.

Lemma string_app_assoc (a b c : string) : (a ++ b) ++ c = a ++ (b ++ c).
Proof. induction a as [|x a IH]; [done|]. by rewrite !append_cons, IH. Qed.

(** [startsWith] and [includes] against their meaning. *)

Lemma prefix_cons (c c' : ascii) (p s : string) :
  String.prefix (String c p) (String c' s) =
  if ascii_dec c c' then String.prefix p s else false.
Proof. reflexivity. Qed.

Lemma prefix_spec (p s : string) :
  String.prefix p s = true <-> exists b, s = p ++ b.
Proof.
  revert s. induction p as [|c p IH]; intros s.
  - split; [intros _; by exists s | by destruct s].
  - destruct s as [|c' s].
    + split; [discriminate | intros [b Hb]; discriminate].
    + rewrite prefix_cons. destruct (ascii_dec c c') as [->|Hne].
      * rewrite IH. split; intros [b Hb]; exists b.
        -- by rewrite append_cons, Hb.
        -- rewrite append_cons in Hb. by injection Hb.
      * split; [discriminate | intros [b Hb]].
        rewrite append_cons in Hb. injection Hb as ? _. done.
Qed.

Lemma includes_cons (c : ascii) (s p : string) :
  includes (String c s) p = String.prefix p (String c s) || includes s p.
Proof. reflexivity. Qed.

Lemma includes_spec (s p : string) :
  includes s p = true <-> exists a b, s = a ++ p ++ b.
Proof.
  induction s as [|c s IH].
  - change (includes "" p) with (String.prefix p "" || false).
    rewrite orb_false_r, prefix_spec. split.
    + intros [b Hb]. by exists "", b.
    + intros (a & b & Hab). destruct a; [by exists b | discriminate].
  - rewrite includes_cons, orb_true_iff, prefix_spec, IH. split.
    + intros [[b Hb]|(a & b & Hab)].
      * by exists "", b.
      * exists (String c a), b. by rewrite append_cons, Hab.
    + intros (a & b & Hab). destruct a as [|c' a].
      * left. by exists b.
      * right. rewrite append_cons in Hab. injection Hab as _ Hab. by exists a, b.
Qed.

(** *** Storage *)

Lemma getItem_setItem (st st' : Storage) (k v : string) :
  setItem st k v = Normal st' -> getItem st' k = Normal (Some v).
Proof.
  unfold setItem, getItem. destruct (denied st) eqn:Hd; [discriminate|].
  destruct (fits st k v); [|discriminate].
  intros [= <-]. simpl. rewrite Hd. by rewrite lookup_insert_eq.
Qed.

Lemma setItem_fits (st : Storage) (k v : string) :
  denied st = false -> fits st k v = true ->
  setItem st k v = Normal (with_entries st (<[k:=v]> (entries st))).
Proof. intros Hd Hf. unfold setItem. by rewrite Hd, Hf. Qed.

End JsFacts.

(** ** [JsonText.parse] reads back what [JsonText.stringify] writes *)

Module JsonTextProofs.
Import Js JsFacts JsonText.


Lemma parse_chars_escape_char (c : ascii) (r : string) :
  parse_chars (escape_char c ++ r) = prepend (String c "") (parse_chars r).
Proof.
  destruct c as [[] [] [] [] [] [] [] []]; reflexivity.
Qed.

Lemma parse_chars_escape (s rest : string) :
  parse_chars (escape s ++ String dquote rest) = Some (s, rest).
Proof.
  induction s as [|c s IH]; [reflexivity|].
  cbn [escape]. rewrite string_app_assoc, parse_chars_escape_char, IH. reflexivity.
Qed.

Lemma digits_onto_app (f : nat) :
  forall (n : N) (acc : string), digits_onto f n acc = digits_onto f n "" ++ acc.
Proof.
  induction f as [|f IH]; intros n acc; [reflexivity|].
  rewrite !digits_onto_S. destruct (n / 10 =? 0)%N; [reflexivity|].
  rewrite IH, (IH _ (String _ "")), string_app_assoc. reflexivity.
Qed.

Lemma span_digits_cons (d : N) (s : string) :
  (d < 10)%N ->
  span_digits (String (digit_char d) s) =
  (String (digit_char d) (fst (span_digits s)), snd (span_digits s)).
Proof.
  intros Hd. cbn [span_digits]. rewrite digit_val_char by done.
  by destruct (span_digits s).
Qed.

Lemma span_digits_onto (f : nat) :
  forall (n : N) (acc : string),
    span_digits (digits_onto f n acc) =
    (digits_onto f n (fst (span_digits acc)), snd (span_digits acc)).
Proof.
  induction f as [|f IH]; intros n acc.
  - cbn [digits_onto]. by destruct (span_digits acc).
  - rewrite !digits_onto_S.
    assert (n mod 10 < 10)%N as Hd by (apply N.mod_lt; lia).
    destruct (n / 10 =? 0)%N.
    + by apply span_digits_cons.
    + rewrite IH, span_digits_cons by done. reflexivity.
Qed.

Lemma span_digits_delimiter (rest : string) :
  at_delimiter rest = true -> span_digits rest = ("", rest).
Proof.
  destruct rest as [|c r]; [done|]. cbn.
  destruct c as [[] [] [] [] [] [] [] []]; cbn; try discriminate; done.
Qed.

Lemma span_digits_N_toString (n : N) (rest : string) :
  at_delimiter rest = true ->
  span_digits (N_toString n ++ rest) = (N_toString n, rest).
Proof.
  intros Hr. unfold N_toString. rewrite <- digits_onto_app, span_digits_onto.
  by rewrite span_digits_delimiter.
Qed.

Lemma digits_onto_lead (f : nat) :
  forall (n : N) (acc : string),
    (n < 2 ^ N.of_nat (S f))%N -> n <> 0%N ->
    exists d r, (0 < d < 10)%N /\ digits_onto (S f) n acc = String (digit_char d) r.
Proof.
  induction f as [|f IH]; intros n acc Hn Hz; rewrite digits_onto_S.
  - assert (n = 1)%N as -> by (simpl in Hn; lia).
    exists 1%N, acc. split; [lia | reflexivity].
  - destruct (N.eqb_spec (n / 10) 0) as [Hq|Hq].
    + apply div10_zero in Hq. exists (n mod 10)%N, acc.
      rewrite N.mod_small by lia. split; [lia | reflexivity].
    + apply IH; [|done]. apply N.Div0.div_lt_upper_bound.
      rewrite (Nat2N.inj_succ (S f)), N.pow_succ_r' in Hn. lia.
Qed.

Lemma N_toString_lead (n : N) :
  n <> 0%N -> exists d r, (0 < d < 10)%N /\ N_toString n = String (digit_char d) r.
Proof. intros Hn. apply digits_onto_lead; [apply enough_fuel | done]. Qed.

Lemma digit_not_zero (d : N) : (0 < d < 10)%N -> Ascii.eqb (digit_char d) "0" = false.
Proof.
  intros Hd. destruct (small_cases d ltac:(lia)) as [->|[->|[->|[->|[->|[->|[->|[->|[->| ->]]]]]]]]];
    [lia | reflexivity ..].
Qed.

Lemma digit_not_minus (d : N) : (d < 10)%N -> Ascii.eqb (digit_char d) "-" = false.
Proof.
  intros Hd. destruct (small_cases d Hd) as [->|[->|[->|[->|[->|[->|[->|[->|[->| ->]]]]]]]]];
    reflexivity.
Qed.

Lemma no_fraction (rest : string) :
  at_delimiter rest = true ->
  match rest with
  | String c _ => Ascii.eqb c "." || Ascii.eqb c "e" || Ascii.eqb c "E"
  | EmptyString => false
  end = false.
Proof.
  destruct rest as [|c r]; [done|]. cbn.
  destruct c as [[] [] [] [] [] [] [] []]; cbn; try discriminate; done.
Qed.

Lemma parse_unsigned_N_toString (negative : bool) (n : N) (rest : string) :
  at_delimiter rest = true ->
  parse_unsigned negative (N_toString n ++ rest) =
  Some (JNum (if negative then - Z.of_N n else Z.of_N n)%Z, rest).
Proof.
  intros Hr. unfold parse_unsigned. rewrite span_digits_N_toString by done.
  rewrite no_fraction by done. rewrite read_N_toString.
  destruct (N.eq_dec n 0%N) as [->|Hn]; [reflexivity|].
  destruct (N_toString_lead n Hn) as (d & r & Hd & ->).
  destruct r; [reflexivity|]. by rewrite digit_not_zero.
Qed.

Lemma parse_number_toString (z : Z) (rest : string) :
  at_delimiter rest = true ->
  parse_number (Number_toString z ++ rest) = Some (JNum z, rest).
Proof.
  intros Hr. unfold Number_toString. destruct (Z.ltb_spec z 0) as [Hneg|Hpos].
  - change (("-" ++ N_toString (Z.to_N (- z))) ++ rest)
      with (String "-" (N_toString (Z.to_N (- z)) ++ rest)).
    cbn [parse_number Ascii.eqb Bool.eqb]. rewrite parse_unsigned_N_toString by done.
    do 2 f_equal. f_equal. lia.
  - destruct (N_toString_head (Z.to_N z)) as (d & r & Hd & Heq).
    pose proof (parse_unsigned_N_toString false (Z.to_N z) rest Hr) as Hp.
    rewrite Heq in *. rewrite append_cons in *. cbn [parse_number].
    rewrite digit_not_minus by done. rewrite Hp. do 2 f_equal. f_equal. lia.
Qed.

(** Induction on values, with the hypothesis for every element and
    every property. *)
Lemma json_induction (P : json -> Prop) :
  P JNull ->
  (forall b, P (JBool b)) ->
  (forall n, P (JNum n)) ->
  (forall s, P (JStr s)) ->
  (forall l, Forall P l -> P (JArr l)) ->
  (forall fields, Forall (fun kv => P (snd kv)) fields -> P (JObj fields)) ->
  forall v, P v.
Proof.
  intros Hnull Hbool Hnum Hstr Harr Hobj.
  fix IH 1. intros [|b|n|s|l|fields];
    [exact Hnull | apply Hbool | apply Hnum | apply Hstr | |].
  - apply Harr. induction l as [|v l IHl]; constructor; [apply IH | exact IHl].
  - apply Hobj. induction fields as [|[k v] fields IHf]; constructor; [apply IH | exact IHf].
Qed.

Lemma append_nil_r (s : string) : s ++ "" = s.
Proof. induction s as [|c s IH]; [done|]. by rewrite append_cons, IH. Qed.

Lemma length_append (a b : string) :
  String.length (a ++ b) = String.length a + String.length b.
Proof. induction a as [|c a IH]; [done|]. rewrite append_cons. cbn. by rewrite IH. Qed.

Lemma Number_toString_head (z : Z) :
  exists c r, Number_toString z = String c r /\
              (c = "-"%char \/ exists d, (d < 10)%N /\ c = digit_char d).
Proof.
  unfold Number_toString. destruct (z <? 0)%Z.
  - exists "-"%char, (N_toString (Z.to_N (- z))). split; [reflexivity | by left].
  - destruct (N_toString_head (Z.to_N z)) as (d & r & Hd & ->).
    exists (digit_char d), r. split; [done | right; by exists d].
Qed.

Lemma stringify_head (v : json) :
  exists c r, stringify v = String c r /\ opens_value c.
Proof.
  destruct v as [|[]|n|s|l|fields]; try (eexists _, _; split; [reflexivity | done]).
  destruct (Number_toString_head n) as (c & r & Heq & [->|(d & Hd & ->)]).
  - exists "-"%char, r. split; [done|done].
  - exists (digit_char d), r. split; [done|].
    destruct (small_cases d Hd) as [->|[->|[->|[->|[->|[->|[->|[->|[->| ->]]]]]]]]]; done.
Qed.

Lemma skip_ws_stringify (v : json) (rest : string) :
  skip_ws (stringify v ++ rest) = stringify v ++ rest.
Proof.
  destruct (stringify_head v) as (c & r & -> & Hws & _).
  rewrite append_cons. cbn [skip_ws]. by rewrite Hws.
Qed.


Lemma stringify_arr (l : list json) (rest : string) :
  stringify (JArr l) ++ rest = String "[" (join "," (map stringify l) ++ String "]" rest).
Proof.
  change (stringify (JArr l)) with ("[" ++ join "," (map stringify l) ++ "]").
  rewrite !append_cons, append_nil_l. f_equal.
  by rewrite string_app_assoc.
Qed.

Lemma stringify_obj (fields : list (string * json)) (rest : string) :
  stringify (JObj fields) ++ rest = String "{" (join "," (map member fields) ++ String "}" rest).
Proof.
  change (stringify (JObj fields)) with ("{" ++ join "," (map member fields) ++ "}").
  rewrite !append_cons, append_nil_l. f_equal.
  by rewrite string_app_assoc.
Qed.

Lemma join_cons (x y : string) (l : list string) :
  join "," (x :: y :: l) = x ++ String "," (join "," (y :: l)).
Proof. reflexivity. Qed.

Lemma join_head (l : list json) :
  l <> [] -> exists c r, join "," (map stringify l) = String c r /\ opens_value c.
Proof.
  destruct l as [|v [|v' l]]; [done| |]; intros _.
  - apply stringify_head.
  - destruct (stringify_head v) as (c & r & Heq & Hc).
    cbn [map]. rewrite join_cons, Heq, append_cons. by eexists _, _.
Qed.

Lemma skip_ws_opens (c : ascii) (r : string) :
  is_ws c = false -> skip_ws (String c r) = String c r.
Proof. intros H. cbn [skip_ws]. by rewrite H. Qed.

Lemma parse_value_bracket (f : nat) (r : string) :
  parse_value (S f) (String "[" r) =
  match skip_ws r with
  | String c' r' =>
      if Ascii.eqb c' "]" then Some (JArr [], r')
      else match parse_elements f (String c' r') with
           | Some (elements, rest) => Some (JArr elements, rest)
           | None => None
           end
  | EmptyString => None
  end.
Proof. reflexivity. Qed.

Lemma parse_value_brace (f : nat) (r : string) :
  parse_value (S f) (String "{" r) =
  match skip_ws r with
  | String c' r' =>
      if Ascii.eqb c' "}" then Some (JObj [], r')
      else match parse_members f (String c' r') [] with
           | Some (fields, rest) => Some (JObj fields, rest)
           | None => None
           end
  | EmptyString => None
  end.
Proof. reflexivity. Qed.

Lemma parse_value_array (f : nat) (l : list json) (rest : string) :
  l <> [] ->
  parse_value (S f) (stringify (JArr l) ++ rest) =
  match parse_elements f (join "," (map stringify l) ++ String "]" rest) with
  | Some (elements, rest') => Some (JArr elements, rest')
  | None => None
  end.
Proof.
  intros Hl. rewrite stringify_arr, parse_value_bracket.
  destruct (join_head l Hl) as (c & r & -> & Hws & Hclose & _).
  rewrite append_cons, skip_ws_opens, Hclose by done. reflexivity.
Qed.

Lemma member_head (k : string) (v : json) :
  member (k, v) = String dquote (escape k ++ String dquote (String ":" (stringify v))).
Proof.
  unfold member, quote. rewrite append_cons, string_app_assoc. reflexivity.
Qed.

Lemma members_head (fields : list (string * json)) :
  fields <> [] -> exists r, join "," (map member fields) = String dquote r.
Proof.
  destruct fields as [|[k v] [|kv' fields]]; [done| |]; intros _.
  - cbn [map join]. rewrite member_head. by eexists.
  - cbn [map]. rewrite join_cons, member_head, append_cons. by eexists.
Qed.

Lemma parse_value_object (f : nat) (fields : list (string * json)) (rest : string) :
  fields <> [] ->
  parse_value (S f) (stringify (JObj fields) ++ rest) =
  match parse_members f (join "," (map member fields) ++ String "}" rest) [] with
  | Some (fields', rest') => Some (JObj fields', rest')
  | None => None
  end.
Proof.
  intros Hf. rewrite stringify_obj, parse_value_brace.
  destruct (members_head fields Hf) as (r & ->).
  rewrite append_cons, skip_ws_opens by done. reflexivity.
Qed.

Lemma parse_elements_S (f : nat) (s : string) :
  parse_elements (S f) s =
  match parse_value f s with
  | Some (v, rest) =>
      match skip_ws rest with
      | String c r =>
          if Ascii.eqb c "," then
            match parse_elements f r with
            | Some (vs, rest') => Some (v :: vs, rest')
            | None => None
            end
          else if Ascii.eqb c "]" then Some ([v], r)
          else None
      | EmptyString => None
      end
  | None => None
  end.
Proof. reflexivity. Qed.

Lemma parse_members_S (f : nat) (s : string) (acc : list (string * json)) :
  parse_members (S f) s acc =
  match skip_ws s with
  | String q r =>
      if Ascii.eqb q dquote then
        match parse_chars r with
        | Some (k, rest) =>
            match skip_ws rest with
            | String colon rest' =>
                if Ascii.eqb colon ":" then
                  match parse_value f rest' with
                  | Some (v, rest'') =>
                      match skip_ws rest'' with
                      | String c r' =>
                          if Ascii.eqb c "," then parse_members f r' (set_field k v acc)
                          else if Ascii.eqb c "}" then Some (set_field k v acc, r')
                          else None
                      | EmptyString => None
                      end
                  | None => None
                  end
                else None
            | EmptyString => None
            end
        | None => None
        end
      else None
  | EmptyString => None
  end.
Proof. reflexivity. Qed.

Lemma set_field_fresh (k : string) (v : json) (acc : list (string * json)) :
  k ∉ map fst acc -> set_field k v acc = (acc ++ [(k, v)])%list.
Proof.
  induction acc as [|[k' v'] acc IH]; intros Hk; [reflexivity|].
  cbn [set_field]. cbn in Hk. apply not_elem_of_cons in Hk as [Hne Hk].
  destruct (String.eqb_spec k k') as [|_]; [done|].
  by rewrite IH.
Qed.

Lemma parse_elements_join (l : list json) :
  l <> [] ->
  Forall reads_back l ->
  forallb well_formed l = true ->
  forall (fuel : nat) (rest : string),
    sum_list_with (fun v => S (size v)) l <= fuel ->
    parse_elements fuel (join "," (map stringify l) ++ String "]" rest) = Some (l, rest).
Proof.
  induction l as [|v l IH]; [done|]. intros _ Hall Hwf fuel rest Hfuel.
  apply Forall_cons in Hall as [Hv Hall].
  cbn [forallb] in Hwf. apply andb_true_iff in Hwf as [Hwfv Hwf].
  cbn [sum_list_with] in Hfuel.
  destruct fuel as [|fuel]; [lia|]. rewrite parse_elements_S.
  destruct l as [|v' l].
  - cbn [map join]. rewrite (Hv Hwfv) by (done || lia).
    rewrite skip_ws_opens by reflexivity. reflexivity.
  - cbn [map]. rewrite join_cons, string_app_assoc, append_cons.
    rewrite (Hv Hwfv) by (done || lia).
    rewrite skip_ws_opens by reflexivity.
    change (Ascii.eqb "," ",") with true. cbv iota.
    change (stringify v' :: map stringify l) with (map stringify (v' :: l)).
    rewrite IH; [reflexivity | done | done | done | lia].
Qed.

Lemma parse_members_join (fields : list (string * json)) :
  fields <> [] ->
  Forall (fun kv => reads_back (snd kv)) fields ->
  forallb (fun '(_, v) => well_formed v) fields = true ->
  forall (acc : list (string * json)) (fuel : nat) (rest : string),
    sum_list_with (fun '(_, v) => S (size v)) fields <= fuel ->
    NoDup (map fst acc ++ map fst fields)%list ->
    parse_members fuel (join "," (map member fields) ++ String "}" rest) acc =
    Some ((acc ++ fields)%list, rest).
Proof.
  induction fields as [|[k v] fields IH]; [done|].
  intros _ Hall Hwf acc fuel rest Hfuel Hdup.
  apply Forall_cons in Hall as [Hv Hall]. cbn [snd] in Hv.
  cbn [forallb] in Hwf. apply andb_true_iff in Hwf as [Hwfv Hwf].
  cbn [sum_list_with] in Hfuel.
  destruct fuel as [|fuel]; [lia|]. rewrite parse_members_S.
  assert (k ∉ map fst acc) as Hfresh.
  { apply NoDup_app in Hdup as (_ & Hdisj & _). intros Hin.
    apply (Hdisj k Hin). cbn. left. }
  assert (NoDup (map fst (acc ++ [(k, v)]) ++ map fst fields)%list) as Hdup'.
  { rewrite map_app. cbn [map fst]. rewrite <- app_assoc. exact Hdup. }
  destruct fields as [|kv' fields].
  - cbn [map join]. rewrite member_head, append_cons, skip_ws_opens by reflexivity.
    change (Ascii.eqb dquote dquote) with true. cbv iota.
    rewrite ?string_app_assoc, ?append_cons, parse_chars_escape.
    rewrite skip_ws_opens by reflexivity.
    change (Ascii.eqb ":" ":") with true. cbv iota.
    rewrite (Hv Hwfv) by (done || lia).
    rewrite skip_ws_opens by reflexivity.
    change (Ascii.eqb "}" ",") with false. change (Ascii.eqb "}" "}") with true.
    cbv iota. by rewrite set_field_fresh.
  - cbn [map]. rewrite join_cons, member_head.
    rewrite !append_cons, skip_ws_opens by reflexivity.
    change (Ascii.eqb dquote dquote) with true. cbv iota.
    rewrite ?string_app_assoc, ?append_cons, parse_chars_escape.
    rewrite skip_ws_opens by reflexivity.
    change (Ascii.eqb ":" ":") with true. cbv iota.
    rewrite ?string_app_assoc, ?append_cons.
    rewrite (Hv Hwfv) by (done || lia).
    rewrite skip_ws_opens by reflexivity.
    change (Ascii.eqb "," ",") with true. cbv iota.
    change (member kv' :: map member fields) with (map member (kv' :: fields)).
    rewrite set_field_fresh by done.
    rewrite IH; [|done|done|done|lia|done].
    by rewrite <- app_assoc.
Qed.

Lemma parse_value_stringify (v : json) : reads_back v.
Proof.
  induction v as [|b|n|s|l IH|fields IH] using json_induction;
    intros Hwf fuel rest Hfuel Hrest; (destruct fuel as [|fuel]; [cbn in Hfuel; lia|]).
  - reflexivity.
  - destruct b; reflexivity.
  - transitivity (parse_number (Number_toString n ++ rest));
      [|by apply parse_number_toString].
    change (stringify (JNum n)) with (Number_toString n).
    destruct (Number_toString_head n) as (c & r & -> & [->|(d & Hd & ->)]).
    + reflexivity.
    + destruct (small_cases d Hd) as [->|[->|[->|[->|[->|[->|[->|[->|[->| ->]]]]]]]]];
        reflexivity.
  - change (stringify (JStr s)) with (quote s). unfold quote.
    rewrite append_cons, string_app_assoc, append_cons, append_nil_l.
    cbn [parse_value skip_ws]. change (is_ws dquote) with false. cbv iota.
    change (Ascii.eqb dquote "n") with false. change (Ascii.eqb dquote "t") with false.
    change (Ascii.eqb dquote "f") with false. change (Ascii.eqb dquote dquote) with true.
    cbv iota. by rewrite parse_chars_escape.
  - destruct l as [|v l]; [reflexivity|].
    rewrite parse_value_array by done.
    cbn [well_formed] in Hwf. cbn [size] in Hfuel.
    rewrite parse_elements_join; [reflexivity | done | done | done | lia].
  - destruct fields as [|kv fields]; [reflexivity|].
    rewrite parse_value_object by done.
    cbn [well_formed] in Hwf. apply andb_true_iff in Hwf as [Hdup Hwf].
    apply bool_decide_eq_true in Hdup. cbn [size] in Hfuel.
    rewrite parse_members_join; [reflexivity | done | done | done | lia | done].
Qed.

Lemma join_length (l : list json) :
  Forall (fun v => size v <= String.length (stringify v)) l ->
  sum_list_with (fun v => S (size v)) l <= S (String.length (join "," (map stringify l))).
Proof.
  induction l as [|v l IH]; intros Hall; [cbn; lia|].
  apply Forall_cons in Hall as [Hv Hall]. specialize (IH Hall). cbv beta in Hv.
  destruct l as [|v' l].
  - cbn [join sum_list_with map]. lia.
  - cbn [map] in *. rewrite join_cons, length_append. cbn [String.length].
    cbn [sum_list_with] in *. lia.
Qed.

Lemma member_length (k : string) (v : json) :
  String.length (stringify v) < String.length (member (k, v)).
Proof.
  rewrite member_head. cbn [String.length]. rewrite length_append.
  cbn [String.length]. lia.
Qed.

Lemma members_length (fields : list (string * json)) :
  Forall (fun kv => size (snd kv) <= String.length (stringify (snd kv))) fields ->
  sum_list_with (fun '(_, v) => S (size v)) fields
  <= S (String.length (join "," (map member fields))).
Proof.
  induction fields as [|[k v] fields IH]; intros Hall; [cbn; lia|].
  apply Forall_cons in Hall as [Hv Hall]. specialize (IH Hall). cbn [snd] in Hv.
  pose proof (member_length k v) as Hm.
  destruct fields as [|kv' fields].
  - cbn [join sum_list_with map]. lia.
  - cbn [map] in *. rewrite join_cons, length_append. cbn [String.length].
    cbn [sum_list_with] in *. lia.
Qed.

Lemma size_le_length (v : json) : size v <= String.length (stringify v).
Proof.
  induction v as [|b|n|s|l IH|fields IH] using json_induction.
  - cbn. lia.
  - destruct b; cbn; lia.
  - change (stringify (JNum n)) with (Number_toString n).
    destruct (Number_toString_head n) as (c & r & -> & _). cbn. lia.
  - cbn. lia.
  - pose proof (join_length l IH) as Hl.
    pose proof (stringify_arr l "") as Heq. rewrite append_nil_r in Heq.
    rewrite Heq. cbn [size String.length]. rewrite length_append. cbn [String.length]. lia.
  - pose proof (members_length fields IH) as Hl.
    pose proof (stringify_obj fields "") as Heq. rewrite append_nil_r in Heq.
    rewrite Heq. cbn [size String.length]. rewrite length_append. cbn [String.length]. lia.
Qed.

(** [parse] reads back the text [stringify] writes of a value every
    object of which names each property once. *)
Theorem parse_stringify (v : json) :
  well_formed v = true -> parse (stringify v) = Normal v.
Proof.
  intros Hwf. unfold parse.
  pose proof (parse_value_stringify v Hwf (S (String.length (stringify v))) ""
                ltac:(pose proof (size_le_length v); lia) eq_refl) as Hp.
  rewrite append_nil_r in Hp. by rewrite Hp.
Qed.

Lemma stringify_nonempty (v : json) : stringify v <> "".
Proof. destruct (stringify_head v) as (c & r & -> & _). discriminate. Qed.

End JsonTextProofs.

(** ** Selection memory *)

Module SelectionMemoryProofs.
Import Js JsFacts SelectionMemory.

Lemma scan_keys_filter (st : Storage) (p : string) (n : nat) :
  denied st = false ->
  forall i : nat,
    scan_keys st p n i =
    Normal (filter (fun k => key_matches p (Some k) = true) (take n (drop i (keys st)))).
Proof.
  intros Hd. induction n as [|n IH]; intros i; [reflexivity|].
  cbn [scan_keys]. unfold key. rewrite Hd. cbn. rewrite (IH (S i)). cbn.
  destruct (keys st !! i) as [k|] eqn:Hk.
  - rewrite (drop_S _ _ _ Hk). cbn [take default].
    rewrite filter_cons. cbn [key_matches].
    destruct (negb (k =? "") && startsWith k p); by case_decide.
  - rewrite (drop_ge (keys st) i) by (by apply lookup_ge_None).
    rewrite (drop_ge (keys st) (S i)) by (apply lookup_ge_None in Hk; lia).
    by rewrite !take_nil.
Qed.

Lemma remove_each_fold (ks : list string) :
  forall st : Storage,
    denied st = false ->
    remove_each st ks =
    Normal (with_entries st (foldl (fun m k => delete k m) (entries st) ks)).
Proof.
  induction ks as [|k ks IH]; intros st Hd.
  - destruct st; reflexivity.
  - cbn [remove_each]. unfold removeItem. rewrite Hd. cbn.
    rewrite IH by exact Hd. reflexivity.
Qed.

Lemma lookup_fold_delete (ks : list string) :
  forall (m : gmap string string) (k : string),
    foldl (fun m k => delete k m) m ks !! k =
    if decide (k ∈ ks) then None else m !! k.
Proof.
  induction ks as [|k' ks IH]; intros m k; cbn [foldl].
  - case_decide as H; [by apply elem_of_nil in H | done].
  - rewrite IH. destruct (decide (k = k')) as [->|Hne].
    + rewrite lookup_delete_eq, (decide_True (P := k' ∈ k' :: ks)) by left.
      by case_decide.
    + rewrite lookup_delete_ne by done.
      destruct (decide (k ∈ ks)) as [Hin|Hnin].
      * by rewrite decide_True by (by right).
      * rewrite decide_False; [done|]. by intros [?|?]%elem_of_cons.
Qed.

Lemma elem_of_keys (st : Storage) (k : string) :
  k ∈ keys st <-> is_Some (entries st !! k).
Proof.
  unfold keys. rewrite list_elem_of_fmap. split.
  - intros [[k' v] [-> Hin]]. apply elem_of_map_to_list in Hin. by exists v.
  - intros [v Hv]. exists (k, v). split; [done|]. by apply elem_of_map_to_list.
Qed.

(** *** Keys *)

Lemma append_inj_r (p a b : string) : p ++ a = p ++ b -> a = b.
Proof. induction p as [|c p IH]; simpl; [done|]. intros [= H]. by apply IH. Qed.

Lemma index_key_inj (t1 t2 : string) : index_key t1 = index_key t2 -> t1 = t2.
Proof. unfold index_key. intros H. by do 2 apply append_inj_r in H. Qed.

Lemma index_key_not_manual (t1 t2 : string) :
  startsWith (index_key t2) (manual_prefix t1) = false.
Proof. reflexivity. Qed.

Lemma manual_key_not_index (t1 t2 : string) (e : Z) : manual_key t2 e ≠ index_key t1.
Proof. unfold manual_key, index_key. intros H. apply append_inj_r in H. discriminate. Qed.

Lemma manual_key_starts (t1 t2 : string) (e : Z) :
  startsWith (manual_key t2 e) (manual_prefix t1) =
  startsWith (t2 ++ "_" ++ Number_toString e) (t1 ++ "_").
Proof. reflexivity. Qed.

Lemma manual_prefix_nonempty (t k : string) :
  startsWith k (manual_prefix t) = true -> k ≠ "".
Proof. intros H ->. discriminate. Qed.

(** *** What [clearDanmakuSelectionMemory] leaves in the storage *)

Lemma clear_elsewhere (t : string) (env : Env) :
  window_defined env = false \/ denied (sessionStorage env) = true ->
  clearDanmakuSelectionMemory t env = env.
Proof.
  unfold clearDanmakuSelectionMemory. intros [Hw|Hd].
  - by rewrite Hw.
  - destruct (window_defined env); [|done]. cbn.
    unfold removeItem. by rewrite Hd.
Qed.

Lemma clear_in_browser (t : string) (env : Env) :
  window_defined env = true ->
  denied (sessionStorage env) = false ->
  let st := with_entries (sessionStorage env)
              (delete (index_key t) (entries (sessionStorage env))) in
  clearDanmakuSelectionMemory t env =
  with_storage env
    (with_entries st
       (foldl (fun m k => delete k m) (entries st)
          (filter (fun k => key_matches (manual_prefix t) (Some k) = true) (keys st)))).
Proof.
  intros Hw Hd st. unfold clearDanmakuSelectionMemory. rewrite Hw. cbn [negb].
  unfold removeItem, Storage_length. rewrite Hd. cbn. fold st.
  assert (denied st = false) as Hd' by exact Hd.
  rewrite Hd. cbn.
  rewrite scan_keys_filter by exact Hd'. cbn.
  rewrite remove_each_fold by exact Hd'. cbn.
  by rewrite drop_0, firstn_all.
Qed.

Lemma clear_lookup (t : string) (env : Env) (k : string) :
  window_defined env = true ->
  denied (sessionStorage env) = false ->
  entries (sessionStorage (clearDanmakuSelectionMemory t env)) !! k =
  if decide (k = index_key t \/ startsWith k (manual_prefix t) = true) then None
  else entries (sessionStorage env) !! k.
Proof.
  intros Hw Hd. rewrite clear_in_browser by done. cbn.
  rewrite lookup_fold_delete.
  destruct (decide (k = index_key t)) as [->|Hne].
  - rewrite (decide_True (P := _ \/ _)) by (by left).
    case_decide; [done|]. apply lookup_delete_eq.
  - rewrite lookup_delete_ne by done.
    destruct (startsWith k (manual_prefix t)) eqn:Hs.
    + rewrite (decide_True (P := _ \/ _)) by (by right).
      case_decide as Hin; [done|].
      destruct (entries (sessionStorage env) !! k) as [v|] eqn:Hk; [|done].
      exfalso. apply Hin. apply list_elem_of_filter. split.
      * cbn. rewrite Hs. apply manual_prefix_nonempty in Hs.
        destruct (String.eqb_spec k ""); done.
      * apply elem_of_keys. cbn. rewrite lookup_delete_ne by done. by exists v.
    + rewrite (decide_False (P := _ \/ _)) by (intros [?|?]; done).
      case_decide as Hin; [|done].
      apply list_elem_of_filter in Hin as [Hm _]. cbn in Hm.
      rewrite Hs in Hm. by destruct (negb _).
Qed.

Lemma clear_window (t : string) (env : Env) :
  window_defined (clearDanmakuSelectionMemory t env) = window_defined env.
Proof.
  destruct (window_defined env) eqn:Hw, (denied (sessionStorage env)) eqn:Hd;
    try (rewrite clear_elsewhere by auto; exact Hw).
  by rewrite clear_in_browser.
Qed.

Lemma clear_denied (t : string) (env : Env) :
  denied (sessionStorage (clearDanmakuSelectionMemory t env)) = denied (sessionStorage env).
Proof.
  destruct (window_defined env) eqn:Hw, (denied (sessionStorage env)) eqn:Hd;
    try (rewrite clear_elsewhere by auto; exact Hd).
  by rewrite clear_in_browser.
Qed.

(** The source-index record of every other title survives. *)
Lemma clear_keeps_index (t1 t2 : string) (env : Env) :
  t1 ≠ t2 ->
  getDanmakuSourceIndex t2 (clearDanmakuSelectionMemory t1 env) =
  getDanmakuSourceIndex t2 env.
Proof.
  intros Hne.
  destruct (window_defined env) eqn:Hw; [|by rewrite clear_elsewhere by auto].
  destruct (denied (sessionStorage env)) eqn:Hd; [by rewrite clear_elsewhere by auto|].
  unfold getDanmakuSourceIndex, getItem.
  rewrite clear_window, clear_denied, Hw, Hd. cbn.
  rewrite clear_lookup by done.
  rewrite decide_False; [done|].
  intros [H|H]; [apply index_key_inj in H; done|].
  by rewrite index_key_not_manual in H.
Qed.

(** A manual-selection record of another title survives when its key
    does not start with the prefix of the cleared title. *)
Lemma clear_keeps_manual (t1 t2 : string) (e : Z) (env : Env) :
  startsWith (t2 ++ "_" ++ Number_toString e) (t1 ++ "_") = false ->
  getManualDanmakuSelection t2 e (clearDanmakuSelectionMemory t1 env) =
  getManualDanmakuSelection t2 e env.
Proof.
  intros Hp.
  destruct (window_defined env) eqn:Hw; [|by rewrite clear_elsewhere by auto].
  destruct (denied (sessionStorage env)) eqn:Hd; [by rewrite clear_elsewhere by auto|].
  unfold getManualDanmakuSelection, getItem.
  rewrite clear_window, clear_denied, Hw, Hd. cbn.
  rewrite clear_lookup by done.
  rewrite decide_False; [done|].
  intros [H|H]; [by apply manual_key_not_index in H|].
  rewrite manual_key_starts in H. congruence.
Qed.

(** The text of a number holds no underscore, so the title ends at the
    last underscore of a key. *)
Lemma digits_no_underscore (f : nat) :
  forall (n : N) (acc : string),
    (forall a b, acc ≠ a ++ "_" ++ b) ->
    forall a b, digits_onto f n acc ≠ a ++ "_" ++ b.
Proof.
  induction f as [|f IH]; intros n acc Hacc; [exact Hacc|].
  rewrite digits_onto_S.
  assert (forall a b, String (digit_char (n mod 10)) acc ≠ a ++ "_" ++ b) as Hcons.
  { intros [|c a] b Heq.
    - injection Heq as Hc _.
      destruct (small_cases (n mod 10) ltac:(apply N.mod_lt; lia))
        as [H|[H|[H|[H|[H|[H|[H|[H|[H|H]]]]]]]]]; rewrite H in Hc; discriminate.
    - rewrite append_cons in Heq. injection Heq as _ Heq. by apply (Hacc a b). }
  destruct (n / 10 =? 0)%N; [exact Hcons | by apply IH].
Qed.

Lemma Number_toString_no_underscore (z : Z) (a b : string) :
  Number_toString z ≠ a ++ "_" ++ b.
Proof.
  assert (forall n a b, N_toString n ≠ a ++ "_" ++ b) as HN.
  { intros n. apply digits_no_underscore. intros [|c a'] b'; discriminate. }
  unfold Number_toString. destruct (z <? 0)%Z; [|apply HN].
  destruct a as [|c a]; [discriminate|].
  change ("-" ++ ?x) with (String "-" x). rewrite append_cons.
  intros [= _ Heq]. by apply (HN (Z.to_N (- z)) a b).
Qed.

Lemma prefix_of_key (t1 : string) :
  forall (t2 text : string),
    (forall a b, text ≠ a ++ "_" ++ b) ->
    startsWith (t2 ++ "_" ++ text) (t1 ++ "_") = true ->
    t1 = t2 \/ startsWith t2 (t1 ++ "_") = true.
Proof.
  induction t1 as [|c t1 IH]; intros t2 text Htext Hp.
  - destruct t2 as [|c' t2]; [by left|]. right.
    unfold startsWith in *. rewrite append_nil_l in *. rewrite append_cons in Hp.
    rewrite prefix_cons in *. destruct (ascii_dec "_" c'); [by destruct t2 | done].
  - unfold startsWith in *. destruct t2 as [|c' t2].
    + exfalso. rewrite append_nil_l in Hp. rewrite !append_cons in Hp.
      rewrite prefix_cons in Hp. destruct (ascii_dec c "_"); [|discriminate].
      apply prefix_spec in Hp as [b Hb]. rewrite string_app_assoc in Hb.
      by apply (Htext t1 b).
    + rewrite !append_cons, prefix_cons in *.
      destruct (ascii_dec c c') as [->|]; [|discriminate].
      destruct (IH t2 text Htext Hp) as [->|Hs]; [by left | by right].
Qed.

(** The manual-selection records of a title that neither is the cleared
    one nor starts with it and an underscore survive. *)
Lemma clear_keeps_manual_of_unrelated (t1 t2 : string) (e : Z) (env : Env) :
  t1 ≠ t2 ->
  startsWith t2 (t1 ++ "_") = false ->
  getManualDanmakuSelection t2 e (clearDanmakuSelectionMemory t1 env) =
  getManualDanmakuSelection t2 e env.
Proof.
  intros Hne Hs. apply clear_keeps_manual.
  destruct (startsWith (t2 ++ "_" ++ Number_toString e) (t1 ++ "_")) eqn:Hp; [|done].
  apply prefix_of_key in Hp as [?|?]; [done | congruence |].
  intros a b. apply Number_toString_no_underscore.
Qed.

(** *** Reading back what was saved *)

Lemma get_after_saveIndex (t : string) (i : Z) (env : Env) :
  window_defined env = true ->
  denied (sessionStorage env) = false ->
  fits (sessionStorage env) (index_key t) (Number_toString i) = true ->
  getDanmakuSourceIndex t (saveDanmakuSourceIndex t i env) =
  if (0 <=? i)%Z then Some i else None.
Proof.
  intros Hw Hd Hf. unfold saveDanmakuSourceIndex, getDanmakuSourceIndex.
  rewrite Hw. cbn [negb]. rewrite setItem_fits by done. cbn.
  rewrite Hw. cbn. unfold getItem. cbn. rewrite Hd. cbn.
  rewrite lookup_insert_eq, parseInt_toString. reflexivity.
Qed.

Lemma get_after_saveManual (t : string) (e id : Z) (env : Env) :
  window_defined env = true ->
  denied (sessionStorage env) = false ->
  fits (sessionStorage env) (manual_key t e) (Number_toString id) = true ->
  getManualDanmakuSelection t e (saveManualDanmakuSelection t e id env) = Some id.
Proof.
  intros Hw Hd Hf. unfold saveManualDanmakuSelection, getManualDanmakuSelection.
  rewrite Hw. cbn [negb]. rewrite setItem_fits by done. cbn.
  rewrite Hw. cbn. unfold getItem. cbn. rewrite Hd. cbn.
  rewrite lookup_insert_eq, parseInt_toString. reflexivity.
Qed.

(** A manual-selection record whose key starts with the prefix of the
    cleared title is removed, whatever title it was saved under. *)
Lemma clear_drops_manual (t1 t2 : string) (e : Z) (env : Env) :
  window_defined env = true ->
  denied (sessionStorage env) = false ->
  startsWith (t2 ++ "_" ++ Number_toString e) (t1 ++ "_") = true ->
  getManualDanmakuSelection t2 e (clearDanmakuSelectionMemory t1 env) = None.
Proof.
  intros Hw Hd Hp. unfold getManualDanmakuSelection, getItem.
  rewrite clear_window, clear_denied, Hw, Hd. cbn.
  rewrite clear_lookup by done.
  rewrite decide_True; [done|]. right. by rewrite manual_key_starts.
Qed.

(** *** The claims *)

(** C1 (the code departs from the claim).  Clearing the memory of one
    title is meant to leave the records of every other title in place.
    With the titles ["A"] and ["A_B"] it does not: the manual selection
    saved for episode 0 of ["A_B"] is stored under a key that starts
    with the prefix [clearDanmakuSelectionMemory "A"] removes, and is
    gone afterwards. *)
Theorem clear_removes_record_of_other_title :
  let env := saveManualDanmakuSelection "A_B" 0 7
               (saveDanmakuSourceIndex "A" 1 fresh_browser) in
  "A" ≠ "A_B" /\
  getManualDanmakuSelection "A_B" 0 env = Some 7%Z /\
  getManualDanmakuSelection "A_B" 0 (clearDanmakuSelectionMemory "A" env) = None.
Proof. repeat split; [discriminate | vm_compute; reflexivity ..]. Qed.

(** C2, as stated, fails: a negative source index is saved but does not
    read back. *)
Lemma save_then_get_negative_index :
  getDanmakuSourceIndex "A" (saveDanmakuSourceIndex "A" (-1) fresh_browser) <> Some (-1)%Z.
Proof. vm_compute. discriminate. Qed.

(** Why the round trip is stated for safe integers: from [10^21] on the
    platform stores a number in exponent notation, and of such a text
    [parseInt] reads the digits in front of the point or the exponent. *)
Lemma exponent_notation_reads_back_short :
  parseInt "1e+21" = Some 1%Z /\ parseInt "-1.5e+21" = Some (-1)%Z.
Proof. split; reflexivity. Qed.

(** C2, amended.  In a browser whose session storage takes the write,
    a manual selection reads back as the episode id that was saved, for
    every title, every episode index and every id that is a safe
    integer; a source index reads back as the index that was saved when
    it is a safe integer and not negative. *)
Theorem save_then_get (t : string) (e i id : Z) (env : Env) :
  window_defined env = true ->
  denied (sessionStorage env) = false ->
  (isSafeInteger id = true ->
   fits (sessionStorage env) (manual_key t e) (Number_toString id) = true ->
   getManualDanmakuSelection t e (saveManualDanmakuSelection t e id env) = Some id) /\
  (isSafeInteger i = true ->
   fits (sessionStorage env) (index_key t) (Number_toString i) = true ->
   (0 <= i)%Z ->
   getDanmakuSourceIndex t (saveDanmakuSourceIndex t i env) = Some i).
Proof.
  intros Hw Hd. split.
  - intros _ Hf. by apply get_after_saveManual.
  - intros _ Hf Hi. rewrite get_after_saveIndex by done.
    by destruct (Z.leb_spec 0 i); [|lia].
Qed.

Lemma save_then_get_witness :
  getManualDanmakuSelection "A" 3 (saveManualDanmakuSelection "A" 3 (-42) fresh_browser)
    = Some (-42)%Z /\
  getDanmakuSourceIndex "A" (saveDanmakuSourceIndex "A" 2 fresh_browser) = Some 2%Z.
Proof.
  destruct (save_then_get "A" 3 2 (-42) fresh_browser eq_refl eq_refl) as [Hm Hi].
  split; [apply Hm; reflexivity | apply Hi; [reflexivity | reflexivity | lia]].
Defined.

(** C10.  The two readers validate what they find differently.
    [getDanmakuSourceIndex] returns a number exactly when the stored
    text parses to an integer that is not negative, so that a negative
    index that was saved reads back as [null]; [getManualDanmakuSelection]
    returns a number exactly when the stored text parses to an integer,
    a negative episode id included: a safe integer that was saved as
    episode id reads back, whatever its sign. *)
Theorem readers_validate_differently (t : string) (e : Z) (env : Env) :
  window_defined env = true ->
  denied (sessionStorage env) = false ->
  (forall n : Z,
     getDanmakuSourceIndex t env = Some n <->
     exists v, entries (sessionStorage env) !! index_key t = Some v /\
               parseInt v = Some n /\ (0 <= n)%Z) /\
  (forall n : Z,
     getManualDanmakuSelection t e env = Some n <->
     exists v, entries (sessionStorage env) !! manual_key t e = Some v /\
               parseInt v = Some n) /\
  (forall i : Z,
     (i < 0)%Z ->
     fits (sessionStorage env) (index_key t) (Number_toString i) = true ->
     getDanmakuSourceIndex t (saveDanmakuSourceIndex t i env) = None) /\
  (forall id : Z,
     isSafeInteger id = true ->
     fits (sessionStorage env) (manual_key t e) (Number_toString id) = true ->
     getManualDanmakuSelection t e (saveManualDanmakuSelection t e id env) = Some id).
Proof.
  intros Hw Hd. repeat split.
  - unfold getDanmakuSourceIndex, getItem. rewrite Hw, Hd. cbn.
    destruct (entries (sessionStorage env) !! index_key t) as [v|]; [|done].
    destruct (parseInt v) as [m|] eqn:Hp; [|done].
    destruct (Z.leb_spec 0 m); [|done].
    intros [= <-]. by exists v.
  - intros (v & Hv & Hp & Hn). unfold getDanmakuSourceIndex, getItem.
    rewrite Hw, Hd. cbn. rewrite Hv, Hp.
    by destruct (Z.leb_spec 0 n); [|lia].
  - unfold getManualDanmakuSelection, getItem. rewrite Hw, Hd. cbn.
    destruct (entries (sessionStorage env) !! manual_key t e) as [v|]; [|done].
    destruct (parseInt v) as [m|] eqn:Hp; [|done].
    intros [= <-]. by exists v.
  - intros (v & Hv & Hp). unfold getManualDanmakuSelection, getItem.
    rewrite Hw, Hd. cbn. by rewrite Hv, Hp.
  - intros i Hi Hf. rewrite get_after_saveIndex by done.
    by destruct (Z.leb_spec 0 i); [lia|].
  - intros id _ Hf. by apply get_after_saveManual.
Qed.

Lemma readers_validate_differently_witness :
  getDanmakuSourceIndex "A" (saveDanmakuSourceIndex "A" (-1) fresh_browser) = None /\
  getManualDanmakuSelection "A" 0 (saveManualDanmakuSelection "A" 0 (-5) fresh_browser)
    = Some (-5)%Z.
Proof.
  destruct (readers_validate_differently "A" 0 fresh_browser eq_refl eq_refl)
    as (_ & _ & Hi & Hm).
  split; [apply Hi; [lia | reflexivity] | apply Hm; reflexivity].
Defined.

End SelectionMemoryProofs.

(** ** The source adapter *)

Module SourceAdapterProofs.
Import Js JsFacts TrendingRoute.

Lemma bind_Normal {A B} (c : completion A) (k : A -> completion B) (b : B) :
  c ≫= k = Normal b -> exists a, c = Normal a /\ k a = Normal b.
Proof. destruct c as [a|e]; [by exists a | discriminate]. Qed.

Lemma Array_filter_elem {A} (p : A -> completion bool) (l l' : list A) (x : A) :
  Array_filter p l = Normal l' -> x ∈ l' -> x ∈ l /\ p x = Normal true.
Proof.
  revert l'. induction l as [|y l IH]; intros l' Hf Hx; cbn in Hf.
  - injection Hf as <-. by apply elem_of_nil in Hx.
  - apply bind_Normal in Hf as (b & Hb & Hf).
    apply bind_Normal in Hf as (rest & Hrest & Hf).
    injection Hf as <-. destruct b.
    + apply elem_of_cons in Hx as [->|Hx].
      * split; [left | done].
      * destruct (IH rest Hrest Hx). split; [by right | done].
    + destruct (IH rest Hrest Hx). split; [by right | done].
Qed.

Lemma Array_map_elem {A B} (f : A -> nat -> completion B) (l : list A) :
  forall (index : nat) (l' : list B) (y : B),
    Array_map_from f index l = Normal l' -> y ∈ l' ->
    exists x j, x ∈ l /\ f x j = Normal y.
Proof.
  induction l as [|x l IH]; intros index l' y Hm Hy; cbn in Hm.
  - injection Hm as <-. by apply elem_of_nil in Hy.
  - apply bind_Normal in Hm as (y0 & Hy0 & Hm).
    apply bind_Normal in Hm as (rest & Hrest & Hm).
    injection Hm as <-. apply elem_of_cons in Hy as [->|Hy].
    + exists x, index. split; [left | done].
    + destruct (IH _ _ _ Hrest Hy) as (x' & j & Hx' & Hj).
      exists x', j. split; [by right | done].
Qed.

(** No shelf card in the list: [find] raises or finds nothing. *)
Lemma Array_find_no_shelf (cardList : list json) :
  (forall card, card ∈ cardList -> get_opt (Some card) "type" ≠ Some (JStr pc_shelves)) ->
  Array_find is_pc_shelves cardList = Normal None \/
  exists e, Array_find is_pc_shelves cardList = Abrupt e.
Proof.
  induction cardList as [|card rest IH]; intros Hno; [by left|].
  cbn [Array_find]. unfold is_pc_shelves at 1.
  pose proof (Hno card ltac:(left)) as Hcard.
  destruct card as [|b|n|s|l|fields]; cbn; try (right; eauto; fail);
    try (apply IH; intros c Hc; apply Hno; by right).
  cbn in Hcard. destruct (field "type" fields) as [[|b|n|s|l|fs]|]; cbn;
    try (apply IH; intros c Hc; apply Hno; by right).
  destruct (String.eqb_spec s pc_shelves) as [->|Hne]; [done|].
  apply IH. intros c Hc. apply Hno. by right.
Qed.

Lemma Array_find_elem {A} (p : A -> completion bool) (l : list A) (x : A) :
  Array_find p l = Normal (Some x) -> x ∈ l /\ p x = Normal true.
Proof.
  induction l as [|y l IH]; cbn; [discriminate|].
  intros Hf. apply bind_Normal in Hf as (b & Hb & Hf). destruct b.
  - injection Hf as <-. split; [left | done].
  - destruct (IH Hf). split; [by right | done].
Qed.

(** One step of a computation in the [completion] monad. *)
Ltac run_in H :=
  cbn [mbind completion_bind mret completion_ret try_catch as_array negb] in H.

Lemma keep_item_true (item : BannerItem.t) :
  keep_item item = Normal true ->
  truthy (Some (BannerItem.title item)) = true /\
  truthy (Some (BannerItem.backdrop_path item)) = true /\
  title_includes (BannerItem.title item) promo_marker = Normal false.
Proof.
  unfold keep_item.
  destruct (truthy (Some (BannerItem.title item))); [|discriminate].
  destruct (truthy (Some (BannerItem.backdrop_path item))); [|discriminate].
  cbn. destruct (title_includes _ _) as [[|]|e]; cbn; try discriminate. done.
Qed.

Lemma to_item_fields (card : json) (index : nat) (item : BannerItem.t) :
  to_item card index = Normal item ->
  exists params t u,
    get (Some card) "params" = Normal params /\
    get params "title" = Normal t /\
    get params "priority_image_url" = Normal u /\
    BannerItem.title item = or_else t (JStr "") /\
    BannerItem.backdrop_path item = or_else u (JStr "").
Proof.
  unfold to_item. intros H.
  apply bind_Normal in H as (params & Hparams & H).
  apply bind_Normal in H as (t & Ht & H).
  apply bind_Normal in H as (s1 & _ & H).
  apply bind_Normal in H as (s2 & _ & H).
  apply bind_Normal in H as (tl & _ & H).
  apply bind_Normal in H as (u & Hu & H).
  apply bind_Normal in H as (tags & _ & H).
  injection H as <-. by exists params, t, u.
Qed.

(** A truthy [v || ''] is [v] itself. *)
Lemma or_else_truthy (v : value) :
  truthy (Some (or_else v (JStr ""))) = true -> v = Some (or_else v (JStr "")).
Proof.
  unfold or_else. destruct v as [x|]; [|discriminate].
  destruct (truthy (Some x)); [done | discriminate].
Qed.

(** Only an object has a property to read. *)
Lemma get_Some (v : value) (k : string) (x : json) :
  get v k = Normal (Some x) -> exists fields, v = Some (JObj fields) /\ field k fields = Some x.
Proof.
  destruct v as [[|b|n|s|l|fields]|]; cbn; try discriminate.
  intros [= H]. by exists fields.
Qed.

Lemma truthy_not_empty (x : json) : truthy (Some x) = true -> x ≠ JStr "".
Proof. intros H ->. discriminate. Qed.

(** *** The claims *)

(** C3.  [parseTXBannerData] returns a list for every payload: what its
    [try] block completes with, or the empty list when the block raises
    (a parse failure).  It returns the empty list when the top-level
    card list is missing or not an array, when no card of that list has
    the type ['pc_shelves'], and when the nested card list of the shelf
    card is missing or not an array. *)
Theorem parseTXBannerData_malformed (data : json) :
  (exists items,
     parseTXBannerData data = items /\
     (parseTXBannerData_try data = Normal items \/
      (exists e, parseTXBannerData_try data = Abrupt e) /\ items = [])) /\
  ((forall l, card_list data ≠ Some (JArr l)) \/
   (exists cardList,
      card_list data = Some (JArr cardList) /\
      forall card, card ∈ cardList ->
        get_opt (Some card) "type" ≠ Some (JStr pc_shelves)) \/
   (exists cardList shelf,
      card_list data = Some (JArr cardList) /\
      Array_find is_pc_shelves cardList = Normal (Some shelf) /\
      forall l, shelf_cards (Some shelf) ≠ Some (JArr l)) ->
   parseTXBannerData data = []).
Proof.
  split.
  - exists (parseTXBannerData data). split; [done|]. unfold parseTXBannerData.
    destruct (parseTXBannerData_try data) as [items|e]; [by left|].
    right. split; [by exists e | done].
  - unfold parseTXBannerData, parseTXBannerData_try.
    intros [Hno|[(cardList & Hcl & Hno)|(cardList & shelf & Hcl & Hfind & Hno)]].
    + destruct (card_list data) as [[|b|n|s|l|fields]|]; cbn; try done.
      by destruct (Hno l).
    + rewrite Hcl. cbn [as_array].
      destruct (Array_find_no_shelf cardList Hno) as [->|[e ->]]; done.
    + rewrite Hcl. cbn [as_array]. rewrite Hfind. cbn [mbind completion_bind].
      apply Array_find_elem in Hfind as [_ Hshelf].
      assert (truthy (Some shelf) = true) as ->.
      { unfold is_pc_shelves in Hshelf.
        destruct shelf as [|b|n|s|l|fields]; cbn in Hshelf; try discriminate; done. }
      cbn. destruct (shelf_cards (Some shelf)) as [[|b|n|s|l|fields]|]; cbn; try done.
      by destruct (Hno l).
Qed.

Lemma parseTXBannerData_malformed_witness :
  parseTXBannerData Samples.no_shelf_payload = [].
Proof.
  apply (parseTXBannerData_malformed Samples.no_shelf_payload).
  right. left. exists [JObj [("type", JStr "pc_banner")]; JNull].
  split; [reflexivity|].
  intros card Hcard. apply elem_of_cons in Hcard as [->|Hcard]; [discriminate|].
  apply elem_of_cons in Hcard as [->|Hcard]; [discriminate|].
  by apply elem_of_nil in Hcard.
Defined.

(** C4.  Every item [parseTXBannerData] returns comes from a card of
    the shelf whose [params] is an object; its title is the [title] of
    these params and its backdrop their [priority_image_url]; neither is
    empty, and the title does not contain the promotional marker. *)
Theorem parseTXBannerData_filtered (data : json) (item : BannerItem.t) :
  item ∈ parseTXBannerData data ->
  (exists cardList shelf cards card params,
     card_list data = Some (JArr cardList) /\
     Array_find is_pc_shelves cardList = Normal (Some shelf) /\
     shelf_cards (Some shelf) = Some (JArr cards) /\
     card ∈ cards /\
     get (Some card) "params" = Normal (Some (JObj params)) /\
     field "title" params = Some (BannerItem.title item) /\
     field "priority_image_url" params = Some (BannerItem.backdrop_path item)) /\
  truthy (Some (BannerItem.title item)) = true /\
  truthy (Some (BannerItem.backdrop_path item)) = true /\
  BannerItem.title item ≠ JStr "" /\
  BannerItem.backdrop_path item ≠ JStr "" /\
  title_includes (BannerItem.title item) promo_marker = Normal false /\
  (forall s, BannerItem.title item = JStr s ->
     ~ exists a b, s = a ++ promo_marker ++ b).
Proof.
  unfold parseTXBannerData, parseTXBannerData_try. intros Hin.
  destruct (card_list data) as [[|b|n|s|cardList|fields]|] eqn:Hcl; run_in Hin;
    try (by apply elem_of_nil in Hin).
  destruct (Array_find is_pc_shelves cardList) as [[shelf|]|e] eqn:Hfind; run_in Hin;
    try (by apply elem_of_nil in Hin).
  destruct (truthy (Some shelf)); run_in Hin; [|by apply elem_of_nil in Hin].
  destruct (shelf_cards (Some shelf)) as [[|b|n|s|cards|fields]|] eqn:Hcards; run_in Hin;
    try (by apply elem_of_nil in Hin).
  destruct (Array_filter has_params cards) as [withParams|e] eqn:Hwith; run_in Hin;
    [|by apply elem_of_nil in Hin].
  destruct (Array_map to_item withParams) as [mapped|e] eqn:Hmap; run_in Hin;
    [|by apply elem_of_nil in Hin].
  destruct (Array_filter keep_item mapped) as [kept|e] eqn:Hkept; run_in Hin;
    [|by apply elem_of_nil in Hin].
  destruct (Array_filter_elem _ _ _ _ Hkept Hin) as [Hmapped Hkeep].
  apply keep_item_true in Hkeep as (Htitle & Hbackdrop & Hpromo).
  destruct (Array_map_elem _ _ _ _ _ Hmap Hmapped) as (card & j & Hcard & Hitem).
  destruct (Array_filter_elem _ _ _ _ Hwith Hcard) as [Hcard' _].
  apply to_item_fields in Hitem as (params & t & u & Hparams & Ht & Hu & Heqt & Hequ).
  rewrite Heqt in Htitle. apply or_else_truthy in Htitle as Ht'.
  rewrite Hequ in Hbackdrop. apply or_else_truthy in Hbackdrop as Hu'.
  rewrite <- Heqt in *. rewrite <- Hequ in *.
  rewrite Ht' in Ht. rewrite Hu' in Hu.
  apply get_Some in Ht as (fields & -> & Hft).
  apply get_Some in Hu as (fields' & [= <-] & Hfu).
  repeat split; try done.
  - by exists cardList, shelf, cards, card, fields.
  - by apply truthy_not_empty.
  - by apply truthy_not_empty.
  - intros s Hs Hsub. rewrite Hs in Hpromo. unfold title_includes in Hpromo.
    injection Hpromo as Hpromo. apply includes_spec in Hsub. congruence.
Qed.

Lemma parseTXBannerData_filtered_witness :
  Samples.show_a ∈ parseTXBannerData Samples.tx_payload /\
  BannerItem.title Samples.show_a ≠ JStr "" /\
  BannerItem.backdrop_path Samples.show_a ≠ JStr "".
Proof.
  assert (Samples.show_a ∈ parseTXBannerData Samples.tx_payload) as Hin
    by (vm_compute; left).
  destruct (parseTXBannerData_filtered Samples.tx_payload Samples.show_a Hin)
    as (_ & _ & _ & Ht & Hb & _).
  repeat split; assumption.
Defined.

End SourceAdapterProofs.

(** ** The trending endpoint and its cache *)

Module HandlerProofs.
Import Js TrendingRoute.

Section Handler.
Context {TMDBContent : Type}.
Implicit Types (w : World (TMDBContent := TMDBContent)) (c : Caches (TMDBContent := TMDBContent)).

(** A valid entry of the selected slot is served, and nothing else
    happens. *)
Lemma GET_hit w c (config : admin_config) (cached : data) :
  getConfig w = Normal config ->
  cache_hit (slot (bannerDataSource config) c) (now_at_check w) = Some cached ->
  GET w c = {| response := json_response cached; caches := c; upstream_calls := [] |}.
Proof. intros Hc Hh. unfold GET. by rewrite Hc, Hh. Qed.

Lemma cache_hit_valid (entry : CacheEntry (TMDBContent := TMDBContent)) (now : Z) :
  (now - timestamp entry < CACHE_DURATION)%Z ->
  cache_hit (Some entry) now = Some (entry_data entry).
Proof. intros H. cbn. by destruct (Z.ltb_spec (now - timestamp entry) CACHE_DURATION); [|lia]. Qed.

Lemma cache_hit_expired (entry : CacheEntry (TMDBContent := TMDBContent)) (now : Z) :
  (CACHE_DURATION <= now - timestamp entry)%Z ->
  cache_hit (Some entry) now = None.
Proof. intros H. cbn. by destruct (Z.ltb_spec (now - timestamp entry) CACHE_DURATION); [lia|]. Qed.

Lemma slot_without (source : string) c : slot source (without_slot source c) = None.
Proof. unfold slot, without_slot. by destruct (String.eqb source "TX"). Qed.

(** On a miss with the video portal as source: the portal is asked and
    its answer stored. *)
Lemma GET_miss_TX w c (config : admin_config) :
  getConfig w = Normal config ->
  bannerDataSource config = "TX" ->
  cache_hit (txCache c) (now_at_check w) = None ->
  GET w c =
  let result := TXData (getTXBannerContent (tx_upstream w)) in
  {| response := json_response result;
     caches := {| tmdbCache := tmdbCache c;
                  txCache := Some {| entry_data := result; timestamp := now_at_store w |} |};
     upstream_calls := [TX] |}.
Proof. intros Hc Hs Hh. unfold GET, slot. rewrite Hc, Hs. cbn. by rewrite Hh. Qed.

(** On a miss with the metadata provider as source and no API key:
    the 400 response, and no upstream call. *)
Lemma GET_miss_no_key w c (config : admin_config) :
  getConfig w = Normal config ->
  bannerDataSource config ≠ "TX" ->
  cache_hit (tmdbCache c) (now_at_check w) = None ->
  string_truthy (SiteConfig config ≫= TMDBApiKey) = false ->
  GET w c = {| response := missing_api_key; caches := c; upstream_calls := [] |}.
Proof.
  intros Hc Hs Hh Hk. unfold GET, slot. rewrite Hc.
  destruct (String.eqb_spec (bannerDataSource config) "TX") as [|_]; [done|].
  by rewrite Hh, Hk.
Qed.

(** On a miss with the metadata provider as source and an API key: the
    provider is asked. *)
Lemma GET_miss_TMDB w c (config : admin_config) :
  getConfig w = Normal config ->
  bannerDataSource config ≠ "TX" ->
  cache_hit (tmdbCache c) (now_at_check w) = None ->
  string_truthy (SiteConfig config ≫= TMDBApiKey) = true ->
  GET w c =
  match getTMDBTrendingContent w (default "" (SiteConfig config ≫= TMDBApiKey))
          (SiteConfig config ≫= TMDBProxy) with
  | Abrupt _ => {| response := failed; caches := c; upstream_calls := [TMDB] |}
  | Normal result =>
      {| response := json_response (TMDBData result);
         caches := {| tmdbCache := Some {| entry_data := TMDBData result;
                                           timestamp := now_at_store w |};
                      txCache := txCache c |};
         upstream_calls := [TMDB] |}
  end.
Proof.
  intros Hc Hs Hh Hk. unfold GET, slot. rewrite Hc.
  destruct (String.eqb_spec (bannerDataSource config) "TX") as [|_]; [done|].
  by rewrite Hh, Hk.
Qed.

(** The response and the upstream calls do not depend on a slot that
    holds an expired entry. *)
Lemma GET_expired_as_absent w c (config : admin_config) (entry : CacheEntry) :
  getConfig w = Normal config ->
  slot (bannerDataSource config) c = Some entry ->
  (CACHE_DURATION <= now_at_check w - timestamp entry)%Z ->
  response (GET w c) = response (GET w (without_slot (bannerDataSource config) c)) /\
  upstream_calls (GET w c) =
    upstream_calls (GET w (without_slot (bannerDataSource config) c)).
Proof.
  intros Hc Hslot Hexp. unfold GET. rewrite Hc, Hslot, slot_without.
  rewrite cache_hit_expired by done. cbn [cache_hit].
  destruct (String.eqb (bannerDataSource config) "TX"); [done|].
  destruct (negb _); [done|]. by destruct (getTMDBTrendingContent _ _ _).
Qed.

(** *** The claims *)

(** C5, amended.  While less than 3 hours have passed since the entry
    of the selected source was stored, [GET] answers with exactly the
    stored data, changes no cache and calls no upstream service.  From
    3 hours on the entry counts as absent: the response and the upstream
    calls are those of a call with the slot empty.  With the video
    portal as source the portal is asked and its answer stored with the
    new time.  With the metadata provider as source and an API key the
    provider is asked: when it answers, the answer goes out and is
    stored with the new time; when it raises, the 500 response goes out
    and both caches stay as they were, the expired entry included.  With
    the metadata provider as source and no API key nothing is fetched,
    the 400 response goes out and both caches stay as they were. *)
Theorem cache_ttl w c (config : admin_config) (entry : CacheEntry) :
  getConfig w = Normal config ->
  slot (bannerDataSource config) c = Some entry ->
  ((now_at_check w - timestamp entry < CACHE_DURATION)%Z ->
   GET w c = {| response := json_response (entry_data entry);
                caches := c; upstream_calls := [] |}) /\
  ((CACHE_DURATION <= now_at_check w - timestamp entry)%Z ->
   (response (GET w c) = response (GET w (without_slot (bannerDataSource config) c)) /\
    upstream_calls (GET w c) =
      upstream_calls (GET w (without_slot (bannerDataSource config) c))) /\
   (bannerDataSource config = "TX" ->
    let fresh := TXData (getTXBannerContent (tx_upstream w)) in
    upstream_calls (GET w c) = [TX] /\
    response (GET w c) = json_response fresh /\
    txCache (caches (GET w c)) =
      Some {| entry_data := fresh; timestamp := now_at_store w |}) /\
   (bannerDataSource config ≠ "TX" ->
    string_truthy (SiteConfig config ≫= TMDBApiKey) = true ->
    upstream_calls (GET w c) = [TMDB] /\
    (forall result,
       getTMDBTrendingContent w (default "" (SiteConfig config ≫= TMDBApiKey))
         (SiteConfig config ≫= TMDBProxy) = Normal result ->
       response (GET w c) = json_response (TMDBData result) /\
       tmdbCache (caches (GET w c)) =
         Some {| entry_data := TMDBData result; timestamp := now_at_store w |}) /\
    (forall e,
       getTMDBTrendingContent w (default "" (SiteConfig config ≫= TMDBApiKey))
         (SiteConfig config ≫= TMDBProxy) = Abrupt e ->
       response (GET w c) = failed /\
       caches (GET w c) = c /\
       slot (bannerDataSource config) (caches (GET w c)) = Some entry)) /\
   (bannerDataSource config ≠ "TX" ->
    string_truthy (SiteConfig config ≫= TMDBApiKey) = false ->
    upstream_calls (GET w c) = [] /\ response (GET w c) = missing_api_key /\
    caches (GET w c) = c)).
Proof.
  intros Hc Hslot. split.
  - intros Hfresh. apply (GET_hit w c config); [done|].
    rewrite Hslot. by apply cache_hit_valid.
  - intros Hexp. split; [by apply (GET_expired_as_absent w c config entry)|].
    pose proof (cache_hit_expired entry _ Hexp) as Hmiss. rewrite <- Hslot in Hmiss.
    unfold slot in Hmiss.
    destruct (String.eqb_spec (bannerDataSource config) "TX") as [Htx|Htx].
    + split; [|split; intros Hne; done].
      intros _. by rewrite (GET_miss_TX w c config).
    + split; [done|]. split.
      * intros _ Hkey. rewrite (GET_miss_TMDB w c config) by done.
        split; [by destruct (getTMDBTrendingContent _ _ _)|]. split.
        -- intros result Hresult. by rewrite Hresult.
        -- intros e He. rewrite He. cbn [response caches]. by rewrite Hslot.
      * intros _ Hkey. by rewrite (GET_miss_no_key w c config).
Qed.

(** C8, amended.  When the metadata provider is the selected source,
    its slot holds no valid entry and the API key is missing, [GET]
    answers [{ code: 400, message }] with status 400.  When loading the
    configuration raises, or the client of the metadata provider does,
    it answers [{ code: 500, message }] with status 500. *)
Theorem error_mapping w c :
  (forall config,
     getConfig w = Normal config ->
     bannerDataSource config ≠ "TX" ->
     cache_hit (tmdbCache c) (now_at_check w) = None ->
     string_truthy (SiteConfig config ≫= TMDBApiKey) = false ->
     response (GET w c) =
       {| status := 400; response_body := ErrorBody 400 "TMDB API Key 未配置" |}) /\
  (forall e,
     getConfig w = Abrupt e ->
     response (GET w c) =
       {| status := 500; response_body := ErrorBody 500 "获取热门内容失败" |}) /\
  (forall config e,
     getConfig w = Normal config ->
     bannerDataSource config ≠ "TX" ->
     cache_hit (tmdbCache c) (now_at_check w) = None ->
     string_truthy (SiteConfig config ≫= TMDBApiKey) = true ->
     getTMDBTrendingContent w (default "" (SiteConfig config ≫= TMDBApiKey))
       (SiteConfig config ≫= TMDBProxy) = Abrupt e ->
     response (GET w c) =
       {| status := 500; response_body := ErrorBody 500 "获取热门内容失败" |}).
Proof.
  repeat split.
  - intros config Hc Hs Hh Hk. by rewrite (GET_miss_no_key w c config).
  - intros e He. unfold GET. by rewrite He.
  - intros config e Hc Hs Hh Hk He. rewrite (GET_miss_TMDB w c config) by done.
    by rewrite He.
Qed.

(** C9.  The cache is consulted before the configuration is validated:
    a valid entry of the selected source is served whatever the API key
    is, a missing one included.  The 400 response goes out only when the
    metadata provider is the selected source, its slot holds no valid
    entry and the API key is missing. *)
Theorem cache_before_configuration w c :
  (forall config cached,
     getConfig w = Normal config ->
     cache_hit (slot (bannerDataSource config) c) (now_at_check w) = Some cached ->
     GET w c = {| response := json_response cached; caches := c; upstream_calls := [] |}) /\
  (status (response (GET w c)) = 400%Z ->
   exists config,
     getConfig w = Normal config /\
     bannerDataSource config ≠ "TX" /\
     cache_hit (tmdbCache c) (now_at_check w) = None /\
     string_truthy (SiteConfig config ≫= TMDBApiKey) = false).
Proof.
  split; [intros config cached; apply GET_hit|].
  unfold GET, slot. destruct (getConfig w) as [config|e]; [|discriminate].
  destruct (String.eqb_spec (bannerDataSource config) "TX") as [Htx|Htx].
  - destruct (cache_hit (txCache c) _); discriminate.
  - destruct (cache_hit (tmdbCache c) _) eqn:Hh; [discriminate|].
    destruct (string_truthy _) eqn:Hk; cbn [negb].
    + destruct (getTMDBTrendingContent _ _ _); discriminate.
    + intros _. by exists config.
Qed.

End Handler.

(** C5, as stated, fails: the entry of the metadata provider is 3 hours
    old, the API key is missing, and no upstream fetch is performed. *)
Lemma expired_entry_without_api_key :
  let w := Samples.world Samples.config_no_key (1000 + CACHE_DURATION) in
  (CACHE_DURATION <= now_at_check w - 1000)%Z /\
  slot (bannerDataSource Samples.config_no_key) Samples.tmdb_cached =
    Some {| entry_data := TMDBData Samples.tmdb_list; timestamp := 1000 |} /\
  upstream_calls (GET w Samples.tmdb_cached) = [] /\
  status (response (GET w Samples.tmdb_cached)) = 400%Z.
Proof. vm_compute. repeat split; discriminate. Qed.

Lemma cache_ttl_witness :
  GET (Samples.world Samples.config_with_key 5000) Samples.tmdb_cached =
    {| response := json_response (TMDBData Samples.tmdb_list);
       caches := Samples.tmdb_cached; upstream_calls := [] |} /\
  upstream_calls
    (GET (Samples.world Samples.config_with_key (1000 + CACHE_DURATION)) Samples.tmdb_cached)
    = [TMDB].
Proof.
  split.
  - apply (cache_ttl (Samples.world Samples.config_with_key 5000) Samples.tmdb_cached
             Samples.config_with_key
             {| entry_data := TMDBData Samples.tmdb_list; timestamp := 1000 |}
             eq_refl eq_refl).
    reflexivity.
  - destruct (cache_ttl (Samples.world Samples.config_with_key (1000 + CACHE_DURATION))
                Samples.tmdb_cached Samples.config_with_key
                {| entry_data := TMDBData Samples.tmdb_list; timestamp := 1000 |}
                eq_refl eq_refl) as [_ Hexp].
    destruct Hexp as (_ & _ & Hcall & _); [vm_compute; discriminate|].
    apply Hcall; [discriminate | reflexivity].
Defined.

(** C8, as stated, fails: the API key is missing, the video portal is
    the selected source, and the answer has status 200. *)
Lemma missing_api_key_with_other_source :
  let w := Samples.world Samples.config_tx 5000 in
  string_truthy (SiteConfig Samples.config_tx ≫= TMDBApiKey) = false /\
  status (response (GET w Samples.no_caches)) = 200%Z /\
  status (response (GET w Samples.no_caches)) ≠ 400%Z.
Proof. vm_compute. repeat split; discriminate. Qed.

Lemma error_mapping_witness :
  response (GET (Samples.world Samples.config_no_key 5000) Samples.no_caches) =
    {| status := 400; response_body := ErrorBody 400 "TMDB API Key 未配置" |}.
Proof.
  destruct (error_mapping (Samples.world Samples.config_no_key 5000) Samples.no_caches)
    as (H400 & _ & _).
  apply (H400 Samples.config_no_key); [reflexivity | discriminate | reflexivity | reflexivity].
Defined.

Lemma cache_before_configuration_witness :
  GET (Samples.world Samples.config_no_key 5000) Samples.tmdb_cached =
    {| response := json_response (TMDBData Samples.tmdb_list);
       caches := Samples.tmdb_cached; upstream_calls := [] |}.
Proof.
  destruct (cache_before_configuration
              (Samples.world Samples.config_no_key 5000) Samples.tmdb_cached) as [Hhit _].
  apply (Hhit Samples.config_no_key); reflexivity.
Defined.

End HandlerProofs.

(** ** The carousel *)

Module CarouselProofs.
Import BannerCarousel.

(** [next], [k] times from the first slide, shows slide [k] as long as
    there is one. *)
Lemma next_iter (n : Z) (s : Carousel) (k : nat) :
  currentIndex s = 0%Z ->
  (Z.of_nat k < n)%Z ->
  currentIndex (Nat.iter k (goToNext n) s) = Z.of_nat k.
Proof.
  intros Hs. induction k as [|k IH]; intros Hk; [exact Hs|].
  rewrite Nat.iter_succ. cbn [goToNext currentIndex]. rewrite IH by lia.
  rewrite Z.rem_small by lia. lia.
Qed.

(** C6.  With [N > 0] items and the first slide showing, [N] times
    [next] shows the first slide again, and [previous] shows the last
    one, at index [N - 1]. *)
Theorem carousel_wraps (N : nat) (s : Carousel) :
  0 < N ->
  currentIndex s = 0%Z ->
  currentIndex (Nat.iter N (goToNext (Z.of_nat N)) s) = 0%Z /\
  currentIndex (goToPrevious (Z.of_nat N) s) = (Z.of_nat N - 1)%Z.
Proof.
  intros HN Hs. split.
  - destruct N as [|k]; [lia|].
    rewrite Nat.iter_succ. cbn [goToNext currentIndex].
    rewrite (next_iter (Z.of_nat (S k)) s k Hs) by lia.
    replace (Z.of_nat k + 1)%Z with (Z.of_nat (S k)) by lia.
    apply Z.rem_same. lia.
  - cbn [goToPrevious currentIndex]. rewrite Hs.
    rewrite Z.rem_small by lia. lia.
Qed.

Lemma carousel_wraps_witness :
  currentIndex (Nat.iter 5 (goToNext 5) initial) = 0%Z /\
  currentIndex (goToPrevious 5 initial) = 4%Z.
Proof. apply (carousel_wraps 5 initial); [lia | reflexivity]. Defined.

End CarouselProofs.

(** ** The client cache *)

Module ClientCacheProofs.
Import Js JsFacts BannerCarousel.

Section ClientCache.

Variable JSON_parse : string -> completion json.
Variable JSON_stringify : json -> string.
Variable ToNumber_other : json -> option Z.

Lemma read_cached_fresh (text : string) (list : json) (written now : Z) :
  JSON_parse text = Normal (cache_record list written) ->
  (now - written < LOCALSTORAGE_DURATION)%Z ->
  read_cached JSON_parse ToNumber_other text now = Some (Some list).
Proof.
  intros Hp Hfresh. unfold read_cached. rewrite Hp. cbn.
  unfold minus_lt. cbn.
  by destruct (Z.ltb_spec (now - written) LOCALSTORAGE_DURATION); [|lia].
Qed.


(** A run that finds nothing usable in the storage asks the API. *)
Lemma fetchTrending_miss (w : World) (ls : Storage) (v : View) :
  denied ls = false ->
  match entries ls !! LOCALSTORAGE_KEY with
  | Some cached =>
      cached = "" \/ read_cached JSON_parse ToNumber_other cached (now_at_read w) = None
  | None => True
  end ->
  fetchTrending JSON_parse JSON_stringify ToNumber_other w ls v =
  match api w ≫= usable ToNumber_other with
  | Abrupt _ | Normal None =>
      {| view := {| items := items v; isLoading := false |};
         localStorage := ls; requested := true |}
  | Normal (Some list) =>
      {| view := {| items := Some list; isLoading := false |};
         localStorage :=
           try_catch
             (setItem ls LOCALSTORAGE_KEY
                (JSON_stringify (cache_record list (now_at_write w))))
             (fun _ => ls);
         requested := true |}
  end.
Proof.
  intros Hd Hmiss. unfold fetchTrending, getItem. rewrite Hd.
  destruct (entries ls !! LOCALSTORAGE_KEY) as [cached|]; [|done].
  destruct Hmiss as [->|Hmiss]; [done|].
  rewrite Hmiss. by destruct (String.eqb cached "").
Qed.

(** A run that finds nothing usable in the storage, is given a usable
    list and whose write succeeds stores the text of the record; a later
    run within the 24 hours that parses the text back sets this list and
    asks nothing. *)
Lemma write_then_read (w1 w2 : World) (ls : Storage) (v : View) (list : json) :
  let fetchTrending := fetchTrending JSON_parse JSON_stringify ToNumber_other in
  let text := JSON_stringify (cache_record list (now_at_write w1)) in
  denied ls = false ->
  match entries ls !! LOCALSTORAGE_KEY with
  | Some cached =>
      cached = "" \/ read_cached JSON_parse ToNumber_other cached (now_at_read w1) = None
  | None => True
  end ->
  api w1 ≫= usable ToNumber_other = Normal (Some list) ->
  fits ls LOCALSTORAGE_KEY text = true ->
  text ≠ "" ->
  JSON_parse text = Normal (cache_record list (now_at_write w1)) ->
  (now_at_read w2 - now_at_write w1 < LOCALSTORAGE_DURATION)%Z ->
  let first := fetchTrending w1 ls v in
  entries (localStorage first) !! LOCALSTORAGE_KEY = Some text /\
  items (view first) = Some list /\
  fetchTrending w2 (localStorage first) (view first) =
    {| view := {| items := Some list; isLoading := false |};
       localStorage := localStorage first;
       requested := false |}.
Proof.
  intros fetch text Hd Hmiss Hapi Hfits Htext Hparse Hfresh first.
  subst fetch first.
  rewrite fetchTrending_miss by done.
  rewrite Hapi. fold text. rewrite setItem_fits by done.
  cbn [try_catch localStorage view items]. split; [|split; [done|]].
  - cbn. apply lookup_insert_eq.
  - unfold fetchTrending, getItem. cbn. rewrite Hd, lookup_insert_eq.
    destruct (String.eqb_spec text "") as [|_]; [done|].
    by rewrite (read_cached_fresh text list (now_at_write w1)).
Qed.


(** *** The claim *)


End ClientCache.


(** With [JsonText] for the platform, the contract holds of every
    well-formed list: the round trip needs no assumption on the text. *)
Lemma write_then_read_json_text (w1 w2 : World) (ls : Storage) (v : View) (list : json) :
  let fetchTrending :=
    fetchTrending JsonText.parse JsonText.stringify JsonText.ToNumber_other in
  JsonText.well_formed list = true ->
  denied ls = false ->
  match entries ls !! LOCALSTORAGE_KEY with
  | Some cached =>
      cached = "" \/
      read_cached JsonText.parse JsonText.ToNumber_other cached (now_at_read w1) = None
  | None => True
  end ->
  api w1 ≫= usable JsonText.ToNumber_other = Normal (Some list) ->
  fits ls LOCALSTORAGE_KEY (JsonText.stringify (cache_record list (now_at_write w1))) = true ->
  (now_at_read w2 - now_at_write w1 < LOCALSTORAGE_DURATION)%Z ->
  let first := fetchTrending w1 ls v in
  items (view first) = Some list /\
  fetchTrending w2 (localStorage first) (view first) =
    {| view := {| items := Some list; isLoading := false |};
       localStorage := localStorage first;
       requested := false |}.
Proof.
  intros fetch Hwf Hd Hmiss Hapi Hfits Hfresh first.
  assert (JsonText.parse (JsonText.stringify (cache_record list (now_at_write w1))) =
          Normal (cache_record list (now_at_write w1))) as Hparse.
  { apply JsonTextProofs.parse_stringify. cbn. by rewrite Hwf. }
  destruct (write_then_read JsonText.parse JsonText.stringify JsonText.ToNumber_other
              w1 w2 ls v list Hd Hmiss Hapi Hfits
              (JsonTextProofs.stringify_nonempty _) Hparse Hfresh)
    as (_ & Hitems & Hsecond).
  by split.
Qed.

End ClientCacheProofs.

(** * Further properties *)

From stdpp Require Import sorting.

Open Scope string_scope.

(** ** Selection memory: clearing, framing and the storage keys *)

Module SelectionMemoryMore.
Import Js JsFacts SelectionMemory SelectionMemoryProofs.

Lemma with_entries_twice (st : Storage) (m m' : gmap string string) :
  with_entries (with_entries st m) m' = with_entries st m'.
Proof. reflexivity. Qed.

Lemma with_storage_twice (env : Env) (st st' : Storage) :
  with_storage (with_storage env st) st' = with_storage env st'.
Proof. reflexivity. Qed.

Lemma with_same (env : Env) :
  with_storage env (with_entries (sessionStorage env) (entries (sessionStorage env))) = env.
Proof. by destruct env as [w [d q m]]. Qed.

(** What removing the keys with a prefix leaves. *)
Lemma remove_prefix (st : Storage) (p : string) :
  denied st = false ->
  String.prefix p "" = false ->
  exists m,
    (len ← Storage_length st;
     keysToRemove ← scan_keys st p len 0;
     remove_each st keysToRemove) = Normal (with_entries st m) /\
    forall k, m !! k = if startsWith k p then None else entries st !! k.
Proof.
  intros Hd Hp. unfold Storage_length. rewrite Hd. cbn.
  rewrite scan_keys_filter by exact Hd. cbn.
  rewrite remove_each_fold by exact Hd. rewrite drop_0, firstn_all.
  eexists. split; [reflexivity|]. intros k. rewrite lookup_fold_delete.
  destruct (startsWith k p) eqn:Hs.
  - case_decide as Hin; [done|].
    destruct (entries st !! k) as [v|] eqn:Hk; [|done].
    exfalso. apply Hin. apply list_elem_of_filter. split.
    + cbn. rewrite Hs. destruct (String.eqb_spec k "") as [->|]; [|done].
      unfold startsWith in Hs. congruence.
    + apply elem_of_keys. by exists v.
  - case_decide as Hin; [|done].
    apply list_elem_of_filter in Hin as [Hm _]. cbn in Hm.
    rewrite Hs in Hm. by destruct (negb _).
Qed.

Lemma clearAll_elsewhere (env : Env) :
  window_defined env = false \/ denied (sessionStorage env) = true ->
  clearAllDanmakuSelectionMemory env = env.
Proof.
  unfold clearAllDanmakuSelectionMemory. intros [Hw|Hd].
  - by rewrite Hw.
  - destruct (window_defined env); [|done]. cbn.
    unfold Storage_length. by rewrite Hd.
Qed.

(** In a browser, clearing leaves the entries whose key is not removed,
    and nothing else changes. *)
Lemma clearAll_shape (env : Env) :
  window_defined env = true ->
  denied (sessionStorage env) = false ->
  exists m,
    clearAllDanmakuSelectionMemory env =
      with_storage env (with_entries (sessionStorage env) m) /\
    forall k, m !! k =
      if startsWith k STORAGE_KEY_PREFIX then None else entries (sessionStorage env) !! k.
Proof.
  intros Hw Hd. unfold clearAllDanmakuSelectionMemory. rewrite Hw. cbn [negb].
  destruct (remove_prefix (sessionStorage env) STORAGE_KEY_PREFIX Hd eq_refl)
    as (m & Hrun & Hm).
  exists m. split; [|exact Hm].
  revert Hrun. cbn. destruct (Storage_length _) as [len|]; cbn; [|discriminate].
  destruct (scan_keys _ _ _ _) as [ks|]; cbn; [|discriminate].
  by intros ->.
Qed.

Lemma clear_shape (t : string) (env : Env) :
  window_defined env = true ->
  denied (sessionStorage env) = false ->
  exists m,
    clearDanmakuSelectionMemory t env =
      with_storage env (with_entries (sessionStorage env) m) /\
    forall k, m !! k =
      if decide (k = index_key t \/ startsWith k (manual_prefix t) = true) then None
      else entries (sessionStorage env) !! k.
Proof.
  intros Hw Hd. eexists. split; [by apply clear_in_browser|].
  intros k. rewrite <- (clear_lookup t env k Hw Hd).
  by rewrite clear_in_browser.
Qed.

(** The readers depend on the window, on whether the storage is denied
    and on the entry under their key only. *)
Lemma getIndex_ext (t : string) (env env' : Env) :
  window_defined env' = window_defined env ->
  denied (sessionStorage env') = denied (sessionStorage env) ->
  entries (sessionStorage env') !! index_key t = entries (sessionStorage env) !! index_key t ->
  getDanmakuSourceIndex t env' = getDanmakuSourceIndex t env.
Proof.
  intros Hw Hd Hk. unfold getDanmakuSourceIndex, getItem. by rewrite Hw, Hd, Hk.
Qed.

Lemma getManual_ext (t : string) (e : Z) (env env' : Env) :
  window_defined env' = window_defined env ->
  denied (sessionStorage env') = denied (sessionStorage env) ->
  entries (sessionStorage env') !! manual_key t e =
    entries (sessionStorage env) !! manual_key t e ->
  getManualDanmakuSelection t e env' = getManualDanmakuSelection t e env.
Proof.
  intros Hw Hd Hk. unfold getManualDanmakuSelection, getItem. by rewrite Hw, Hd, Hk.
Qed.

Lemma getIndex_absent (t : string) (env : Env) :
  (window_defined env = true -> denied (sessionStorage env) = false ->
   entries (sessionStorage env) !! index_key t = None) ->
  getDanmakuSourceIndex t env = None.
Proof.
  intros H. unfold getDanmakuSourceIndex, getItem.
  destruct (window_defined env); [|done].
  destruct (denied (sessionStorage env)); [done|]. cbn. by rewrite H.
Qed.

Lemma getManual_absent (t : string) (e : Z) (env : Env) :
  (window_defined env = true -> denied (sessionStorage env) = false ->
   entries (sessionStorage env) !! manual_key t e = None) ->
  getManualDanmakuSelection t e env = None.
Proof.
  intros H. unfold getManualDanmakuSelection, getItem.
  destruct (window_defined env); [|done].
  destruct (denied (sessionStorage env)); [done|]. cbn. by rewrite H.
Qed.

Lemma clearAll_window (env : Env) :
  window_defined (clearAllDanmakuSelectionMemory env) = window_defined env.
Proof.
  destruct (window_defined env) eqn:Hw, (denied (sessionStorage env)) eqn:Hd;
    try (rewrite clearAll_elsewhere by auto; exact Hw).
  by destruct (clearAll_shape env Hw Hd) as (m & -> & _).
Qed.

Lemma clearAll_denied (env : Env) :
  denied (sessionStorage (clearAllDanmakuSelectionMemory env)) = denied (sessionStorage env).
Proof.
  destruct (window_defined env) eqn:Hw, (denied (sessionStorage env)) eqn:Hd;
    try (rewrite clearAll_elsewhere by auto; exact Hd).
  by destruct (clearAll_shape env Hw Hd) as (m & -> & _).
Qed.

(** Every key of the module starts with the prefix of the module. *)
Lemma prefix_app (a b s : string) :
  String.prefix (a ++ b) s = true -> String.prefix a s = true.
Proof.
  rewrite !prefix_spec. intros [c ->]. exists (b ++ c). apply string_app_assoc.
Qed.

Lemma index_key_in_namespace (t : string) :
  startsWith (index_key t) STORAGE_KEY_PREFIX = true.
Proof. apply prefix_spec. by eexists. Qed.

Lemma manual_key_in_namespace (t : string) (e : Z) :
  startsWith (manual_key t e) STORAGE_KEY_PREFIX = true.
Proof. apply prefix_spec. by eexists. Qed.

Lemma manual_key_own_prefix (t : string) (e : Z) :
  startsWith (manual_key t e) (manual_prefix t) = true.
Proof.
  apply prefix_spec. exists (Number_toString e). unfold manual_key, manual_prefix.
  rewrite !string_app_assoc. reflexivity.
Qed.

(** X1.  After [clearDanmakuSelectionMemory t] nothing is remembered of
    the title [t]: its source index and its manual selection of every
    episode read as [null]. *)
Theorem clear_forgets_title (t : string) (e : Z) (env : Env) :
  getDanmakuSourceIndex t (clearDanmakuSelectionMemory t env) = None /\
  getManualDanmakuSelection t e (clearDanmakuSelectionMemory t env) = None.
Proof.
  split.
  - apply getIndex_absent. rewrite clear_window, clear_denied. intros Hw Hd.
    rewrite clear_lookup by done. by rewrite decide_True by (by left).
  - apply getManual_absent. rewrite clear_window, clear_denied. intros Hw Hd.
    rewrite clear_lookup by done.
    rewrite decide_True; [done|]. right. apply manual_key_own_prefix.
Qed.

(** X2.  After [clearAllDanmakuSelectionMemory] nothing is remembered of
    any title: every source index and every manual selection reads as
    [null]. *)
Theorem clearAll_forgets_everything (t : string) (e : Z) (env : Env) :
  getDanmakuSourceIndex t (clearAllDanmakuSelectionMemory env) = None /\
  getManualDanmakuSelection t e (clearAllDanmakuSelectionMemory env) = None.
Proof.
  split.
  - apply getIndex_absent. rewrite clearAll_window, clearAll_denied. intros Hw Hd.
    destruct (clearAll_shape env Hw Hd) as (m & -> & Hm). cbn.
    by rewrite Hm, index_key_in_namespace.
  - apply getManual_absent. rewrite clearAll_window, clearAll_denied. intros Hw Hd.
    destruct (clearAll_shape env Hw Hd) as (m & -> & Hm). cbn.
    by rewrite Hm, manual_key_in_namespace.
Qed.

(** X3.  Clearing, of one title or of all, never touches an entry of the
    session storage whose key does not start with ['danmaku_selection_']. *)
Theorem clearing_keeps_foreign_entries (t k : string) (env : Env) :
  startsWith k STORAGE_KEY_PREFIX = false ->
  entries (sessionStorage (clearDanmakuSelectionMemory t env)) !! k =
    entries (sessionStorage env) !! k /\
  entries (sessionStorage (clearAllDanmakuSelectionMemory env)) !! k =
    entries (sessionStorage env) !! k.
Proof.
  intros Hk.
  destruct (window_defined env) eqn:Hw; [|by rewrite clear_elsewhere, clearAll_elsewhere by auto].
  destruct (denied (sessionStorage env)) eqn:Hd;
    [by rewrite clear_elsewhere, clearAll_elsewhere by auto|].
  split.
  - rewrite clear_lookup by done. rewrite decide_False; [done|].
    intros [->|Hs].
    + by rewrite index_key_in_namespace in Hk.
    + unfold startsWith, manual_prefix in *.
      apply prefix_app in Hs. congruence.
  - destruct (clearAll_shape env Hw Hd) as (m & -> & Hm). cbn. by rewrite Hm, Hk.
Qed.

Lemma clearing_keeps_foreign_entries_witness :
  let env := with_storage fresh_browser
               {| denied := false; quota := None;
                  entries := {[ "theme" := "dark"; index_key "A" := "1" ]} |} in
  entries (sessionStorage (clearDanmakuSelectionMemory "A" env)) !! "theme" = Some "dark" /\
  entries (sessionStorage (clearAllDanmakuSelectionMemory env)) !! "theme" = Some "dark".
Proof.
  intros env.
  destruct (clearing_keeps_foreign_entries "A" "theme" env eq_refl) as [-> ->].
  split; reflexivity.
Defined.

(** The title of a key ends at its last underscore. *)
Lemma split_at_last_underscore (t : string) :
  forall (t' d d' : string),
    (forall a b, d ≠ a ++ "_" ++ b) ->
    (forall a b, d' ≠ a ++ "_" ++ b) ->
    t ++ "_" ++ d = t' ++ "_" ++ d' ->
    t = t' /\ d = d'.
Proof.
  induction t as [|c t IH]; intros t' d d' Hd Hd' Heq.
  - destruct t' as [|c' t']; [by injection Heq|].
    rewrite append_nil_l, !append_cons in Heq. injection Heq as _ Heq.
    by destruct (Hd t' d').
  - destruct t' as [|c' t'].
    + rewrite append_nil_l, !append_cons in Heq. injection Heq as _ Heq.
      symmetry in Heq. by destruct (Hd' t d).
    + rewrite !append_cons in Heq. injection Heq as -> Heq.
      destruct (IH t' d d' Hd Hd' Heq) as [-> ->]. done.
Qed.

Lemma Number_toString_inj (a b : Z) : Number_toString a = Number_toString b -> a = b.
Proof.
  intros H. pose proof (parseInt_toString a) as Ha.
  rewrite H, parseInt_toString in Ha. by injection Ha.
Qed.

Lemma manual_key_inj (t t' : string) (e e' : Z) :
  manual_key t e = manual_key t' e' -> t = t' /\ e = e'.
Proof.
  unfold manual_key. intros H. do 2 apply append_inj_r in H.
  apply split_at_last_underscore in H as [-> H];
    try (intros a b; apply Number_toString_no_underscore).
  split; [done|]. by apply Number_toString_inj.
Qed.

(** X4.  The storage keys tell the records apart: two titles have
    different source-index keys, two pairs of title and episode index
    have different manual-selection keys, and no source-index key is a
    manual-selection key. *)
Theorem storage_keys_distinct (t t' : string) (e e' : Z) :
  (index_key t = index_key t' -> t = t') /\
  (manual_key t e = manual_key t' e' -> t = t' /\ e = e') /\
  index_key t ≠ manual_key t' e'.
Proof.
  split; [apply index_key_inj|]. split; [apply manual_key_inj|].
  intros H. symmetry in H. by apply manual_key_not_index in H.
Qed.

Lemma storage_keys_distinct_witness :
  index_key "A" ≠ manual_key "A" 0 /\ index_key "A_1" ≠ manual_key "A" 1.
Proof.
  split.
  - apply (storage_keys_distinct "A" "A" 0 0).
  - apply (storage_keys_distinct "A_1" "A" 1 1).
Defined.

(** What a save leaves: the environment as it was, or the storage with
    the one entry written. *)
Lemma saveIndex_cases (t : string) (i : Z) (env : Env) :
  saveDanmakuSourceIndex t i env = env \/
  saveDanmakuSourceIndex t i env =
    with_storage env (with_entries (sessionStorage env)
      (<[index_key t := Number_toString i]> (entries (sessionStorage env)))).
Proof.
  unfold saveDanmakuSourceIndex, setItem.
  destruct (window_defined env); [|by left]. cbn.
  destruct (denied (sessionStorage env)); [by left|].
  destruct (fits _ _ _); [by right | by left].
Qed.

Lemma saveManual_cases (t : string) (e id : Z) (env : Env) :
  saveManualDanmakuSelection t e id env = env \/
  saveManualDanmakuSelection t e id env =
    with_storage env (with_entries (sessionStorage env)
      (<[manual_key t e := Number_toString id]> (entries (sessionStorage env)))).
Proof.
  unfold saveManualDanmakuSelection, setItem.
  destruct (window_defined env); [|by left]. cbn.
  destruct (denied (sessionStorage env)); [by left|].
  destruct (fits _ _ _); [by right | by left].
Qed.

(** X5.  A save changes what is read under its own key only: saving a
    source index leaves every manual selection and the source index of
    every other title as they read before; saving a manual selection
    leaves every source index and the manual selection of every other
    pair of title and episode as they read before. *)
Theorem save_leaves_other_records (t t' : string) (e e' i id : Z) (env : Env) :
  getManualDanmakuSelection t' e' (saveDanmakuSourceIndex t i env) =
    getManualDanmakuSelection t' e' env /\
  (t ≠ t' ->
   getDanmakuSourceIndex t' (saveDanmakuSourceIndex t i env) =
     getDanmakuSourceIndex t' env) /\
  getDanmakuSourceIndex t' (saveManualDanmakuSelection t e id env) =
    getDanmakuSourceIndex t' env /\
  (t ≠ t' \/ e ≠ e' ->
   getManualDanmakuSelection t' e' (saveManualDanmakuSelection t e id env) =
     getManualDanmakuSelection t' e' env).
Proof.
  repeat split.
  - destruct (saveIndex_cases t i env) as [->| ->]; [done|].
    apply getManual_ext; try done. cbn. apply lookup_insert_ne.
    intros H. symmetry in H. by apply manual_key_not_index in H.
  - intros Hne. destruct (saveIndex_cases t i env) as [->| ->]; [done|].
    apply getIndex_ext; try done. cbn. apply lookup_insert_ne.
    intros H. by apply index_key_inj in H.
  - destruct (saveManual_cases t e id env) as [->| ->]; [done|].
    apply getIndex_ext; try done. cbn. apply lookup_insert_ne.
    by apply manual_key_not_index.
  - intros Hne. destruct (saveManual_cases t e id env) as [->| ->]; [done|].
    apply getManual_ext; try done. cbn. apply lookup_insert_ne.
    intros H. apply manual_key_inj in H as [-> ->]. by destruct Hne.
Qed.

Lemma save_leaves_other_records_witness :
  let env := saveManualDanmakuSelection "A" 1 77 fresh_browser in
  getManualDanmakuSelection "A" 1 (saveManualDanmakuSelection "A_1" 1 5 env) = Some 77%Z /\
  getManualDanmakuSelection "A" 1 (saveManualDanmakuSelection "A" 11 5 env) = Some 77%Z.
Proof.
  intros env. split.
  - destruct (save_leaves_other_records "A_1" "A" 1 1 0 5 env) as (_ & _ & _ & H).
    rewrite H; [reflexivity | left; discriminate].
  - destruct (save_leaves_other_records "A" "A" 11 1 0 5 env) as (_ & _ & _ & H).
    rewrite H; [reflexivity | right; discriminate].
Defined.

(** X6.  The last save wins: after an earlier save under the same key,
    a save of a safe integer that the storage accepts is what is read
    (a source index that is not negative, any episode id). *)
Theorem last_save_wins (t : string) (e i1 i2 id1 id2 : Z) (env : Env) :
  window_defined env = true ->
  denied (sessionStorage env) = false ->
  (let env1 := saveDanmakuSourceIndex t i1 env in
   isSafeInteger i2 = true ->
   fits (sessionStorage env1) (index_key t) (Number_toString i2) = true ->
   (0 <= i2)%Z ->
   getDanmakuSourceIndex t (saveDanmakuSourceIndex t i2 env1) = Some i2) /\
  (let env1 := saveManualDanmakuSelection t e id1 env in
   isSafeInteger id2 = true ->
   fits (sessionStorage env1) (manual_key t e) (Number_toString id2) = true ->
   getManualDanmakuSelection t e (saveManualDanmakuSelection t e id2 env1) = Some id2).
Proof.
  intros Hw Hd. split.
  - intros env1 _ Hf Hi. rewrite get_after_saveIndex; try done.
    + by destruct (Z.leb_spec 0 i2); [|lia].
    + subst env1. by destruct (saveIndex_cases t i1 env) as [->| ->].
    + subst env1. by destruct (saveIndex_cases t i1 env) as [->| ->].
  - intros env1 _ Hf. apply get_after_saveManual; try done.
    + subst env1. by destruct (saveManual_cases t e id1 env) as [->| ->].
    + subst env1. by destruct (saveManual_cases t e id1 env) as [->| ->].
Qed.

Lemma last_save_wins_witness :
  getDanmakuSourceIndex "A"
    (saveDanmakuSourceIndex "A" 4 (saveDanmakuSourceIndex "A" 2 fresh_browser)) = Some 4%Z /\
  getManualDanmakuSelection "A" 0
    (saveManualDanmakuSelection "A" 0 9 (saveManualDanmakuSelection "A" 0 8 fresh_browser))
    = Some 9%Z.
Proof.
  destruct (last_save_wins "A" 0 2 4 8 9 fresh_browser eq_refl eq_refl) as [Hi Hm].
  split; [apply Hi; [reflexivity | reflexivity | lia] | apply Hm; reflexivity].
Defined.

(** X7.  The module is best effort.  On the server (no [window]) and
    when the session storage denies access, the two saves and the two
    clears change nothing and the two readers return [null]; a save the
    quota refuses changes nothing either. *)
Theorem unavailable_storage_is_silent (t : string) (e i id : Z) (env : Env) :
  (window_defined env = false \/ denied (sessionStorage env) = true ->
   saveDanmakuSourceIndex t i env = env /\
   saveManualDanmakuSelection t e id env = env /\
   clearDanmakuSelectionMemory t env = env /\
   clearAllDanmakuSelectionMemory env = env /\
   getDanmakuSourceIndex t env = None /\
   getManualDanmakuSelection t e env = None) /\
  (fits (sessionStorage env) (index_key t) (Number_toString i) = false ->
   saveDanmakuSourceIndex t i env = env) /\
  (fits (sessionStorage env) (manual_key t e) (Number_toString id) = false ->
   saveManualDanmakuSelection t e id env = env).
Proof.
  split; [intros H; repeat split | split; intros Hf].
  - unfold saveDanmakuSourceIndex, setItem. destruct H as [->| ->]; [done|].
    by destruct (window_defined env).
  - unfold saveManualDanmakuSelection, setItem. destruct H as [->| ->]; [done|].
    by destruct (window_defined env).
  - by apply clear_elsewhere.
  - by apply clearAll_elsewhere.
  - apply getIndex_absent. intros Hw Hd. destruct H; congruence.
  - apply getManual_absent. intros Hw Hd. destruct H; congruence.
  - unfold saveDanmakuSourceIndex, setItem. rewrite Hf.
    by destruct (window_defined env), (denied (sessionStorage env)).
  - unfold saveManualDanmakuSelection, setItem. rewrite Hf.
    by destruct (window_defined env), (denied (sessionStorage env)).
Qed.

Lemma unavailable_storage_is_silent_witness :
  let server := {| window_defined := false; sessionStorage := sessionStorage fresh_browser |} in
  let full := with_storage fresh_browser {| denied := false; quota := Some 0; entries := ∅ |} in
  saveDanmakuSourceIndex "A" 1 server = server /\
  getDanmakuSourceIndex "A" server = None /\
  saveDanmakuSourceIndex "A" 1 full = full.
Proof.
  intros server full.
  destruct (unavailable_storage_is_silent "A" 0 1 0 server) as [Hs _].
  destruct Hs as (Hsave & _ & _ & _ & Hget & _); [by left|].
  destruct (unavailable_storage_is_silent "A" 0 1 0 full) as (_ & Hq & _).
  split; [exact Hsave | split; [exact Hget | apply Hq; reflexivity]].
Defined.

(** Two environments of a browser with the same entries are the same. *)
Lemma with_entries_ext (env : Env) (m m' : gmap string string) :
  (forall k, m !! k = m' !! k) ->
  with_storage env (with_entries (sessionStorage env) m) =
  with_storage env (with_entries (sessionStorage env) m').
Proof. intros H. by rewrite (map_eq m m' H). Qed.

(** X8.  Clearing composes as expected: clearing a title twice is
    clearing it once, the clears of two titles commute, and clearing a
    title before or after clearing all is clearing all. *)
Theorem clearing_composes (t1 t2 : string) (env : Env) :
  clearDanmakuSelectionMemory t1 (clearDanmakuSelectionMemory t1 env) =
    clearDanmakuSelectionMemory t1 env /\
  clearDanmakuSelectionMemory t1 (clearDanmakuSelectionMemory t2 env) =
    clearDanmakuSelectionMemory t2 (clearDanmakuSelectionMemory t1 env) /\
  clearAllDanmakuSelectionMemory (clearDanmakuSelectionMemory t1 env) =
    clearAllDanmakuSelectionMemory env /\
  clearDanmakuSelectionMemory t1 (clearAllDanmakuSelectionMemory env) =
    clearAllDanmakuSelectionMemory env.
Proof.
  destruct (decide (window_defined env = false \/ denied (sessionStorage env) = true))
    as [Hout|Hin].
  { rewrite !(clear_elsewhere _ env Hout), !(clearAll_elsewhere env Hout).
    by rewrite !(clear_elsewhere _ env Hout). }
  assert (window_defined env = true) as Hw
    by (destruct (window_defined env); [done | destruct Hin; by left]).
  assert (denied (sessionStorage env) = false) as Hd
    by (destruct (denied (sessionStorage env)); [destruct Hin; by right | done]).
  destruct (clear_shape t1 env Hw Hd) as (m1 & E1 & Hm1).
  destruct (clear_shape t2 env Hw Hd) as (m2 & E2 & Hm2).
  destruct (clearAll_shape env Hw Hd) as (ma & Ea & Hma).
  set (env1 := with_storage env (with_entries (sessionStorage env) m1)) in *.
  set (env2 := with_storage env (with_entries (sessionStorage env) m2)) in *.
  set (enva := with_storage env (with_entries (sessionStorage env) ma)) in *.
  destruct (clear_shape t1 env1 Hw Hd) as (m11 & E11 & Hm11).
  destruct (clear_shape t1 env2 Hw Hd) as (m21 & E21 & Hm21).
  destruct (clear_shape t2 env1 Hw Hd) as (m12 & E12 & Hm12).
  destruct (clearAll_shape env1 Hw Hd) as (m1a & E1a & Hm1a).
  destruct (clear_shape t1 enva Hw Hd) as (ma1 & Ea1 & Hma1).
  rewrite E1, E2, Ea, E11, E21, E12, E1a, Ea1.
  subst env1 env2 enva. rewrite !with_storage_twice. cbn [sessionStorage with_storage].
  rewrite !with_entries_twice.
  repeat split; apply with_entries_ext; intros k; cbn in *.
  - rewrite Hm11, Hm1. by repeat case_decide.
  - rewrite Hm21, Hm12, Hm1, Hm2. by repeat case_decide.
  - rewrite Hm1a, Hma, Hm1. destruct (startsWith k STORAGE_KEY_PREFIX) eqn:Hs; [done|].
    rewrite decide_False; [done|]. intros [->|Hp].
    + by rewrite index_key_in_namespace in Hs.
    + unfold startsWith, manual_prefix in *. apply prefix_app in Hp. congruence.
  - rewrite Hma1, Hma. destruct (startsWith k STORAGE_KEY_PREFIX) eqn:Hs; [by case_decide|].
    rewrite decide_False; [done|]. intros [->|Hp].
    + by rewrite index_key_in_namespace in Hs.
    + unfold startsWith, manual_prefix in *. apply prefix_app in Hp. congruence.
Qed.

End SelectionMemoryMore.

(** ** The source adapter: what the items look like *)

Module SourceAdapterMore.
Import Js JsFacts TrendingRoute SourceAdapterProofs.

(** *** [split] *)

Lemma split_cons (sep c : ascii) (r : string) :
  split sep (String c r) =
  if Ascii.eqb c sep then "" :: split sep r
  else match split sep r with
       | piece :: pieces => String c piece :: pieces
       | [] => [String c ""]
       end.
Proof. reflexivity. Qed.

Lemma split_not_nil (sep : ascii) (s : string) : split sep s ≠ [].
Proof.
  induction s as [|c r IH]; [done|]. rewrite split_cons.
  destruct (Ascii.eqb c sep); [done|]. by destruct (split sep r).
Qed.

(** No piece holds the separator. *)
Lemma split_no_sep (sep : ascii) (s : string) :
  forall piece, piece ∈ split sep s -> forall a b, piece ≠ a ++ String sep b.
Proof.
  induction s as [|c r IH]; intros piece Hin a b.
  - apply list_elem_of_singleton in Hin as ->. by destruct a.
  - rewrite split_cons in Hin. destruct (Ascii.eqb_spec c sep) as [->|Hne].
    + apply elem_of_cons in Hin as [->|Hin]; [by destruct a | by apply IH].
    + destruct (split sep r) as [|p ps] eqn:Hs; [by destruct (split_not_nil sep r)|].
      apply elem_of_cons in Hin as [->|Hin].
      * destruct a as [|c' a]; [intros [= ? _]; done|].
        rewrite append_cons. intros [= _ Heq]. apply (IH p ltac:(left) a b Heq).
      * apply IH. by right.
Qed.

(** Putting the separator back between the pieces gives the string. *)
Lemma join_split (sep : ascii) (s : string) :
  JsonText.join (String sep "") (split sep s) = s.
Proof.
  induction s as [|c r IH]; [reflexivity|]. rewrite split_cons.
  destruct (Ascii.eqb_spec c sep) as [->|Hne].
  - destruct (split sep r) as [|p ps] eqn:Hs; [by destruct (split_not_nil sep r)|].
    change (JsonText.join (String sep "") ("" :: p :: ps))
      with ("" ++ String sep "" ++ JsonText.join (String sep "") (p :: ps)).
    by rewrite IH.
  - destruct (split sep r) as [|p ps] eqn:Hs; [by destruct (split_not_nil sep r)|].
    destruct ps as [|q ps].
    + cbn in *. by rewrite IH.
    + change (JsonText.join (String sep "") (String c p :: q :: ps))
        with (String c p ++ String sep "" ++ JsonText.join (String sep "") (q :: ps)).
      change (JsonText.join (String sep "") (p :: q :: ps))
        with (p ++ String sep "" ++ JsonText.join (String sep "") (q :: ps)) in IH.
      by rewrite append_cons, IH.
Qed.

(** *** The pipeline of [parseTXBannerData] *)

Lemma Array_filter_sublist {A} (p : A -> completion bool) (l l' : list A) :
  Array_filter p l = Normal l' -> l' `sublist_of` l.
Proof.
  revert l'. induction l as [|x l IH]; intros l' Hf; cbn in Hf.
  - injection Hf as <-. constructor.
  - apply bind_Normal in Hf as (b & _ & Hf).
    apply bind_Normal in Hf as (rest & Hrest & Hf).
    injection Hf as <-. destruct b; [apply sublist_skip | apply sublist_cons]; by apply IH.
Qed.

Lemma Array_map_from_length {A B} (f : A -> nat -> completion B) (l : list A) :
  forall index l', Array_map_from f index l = Normal l' -> length l' = length l.
Proof.
  induction l as [|x l IH]; intros index l' Hm; cbn in Hm.
  - by injection Hm as <-.
  - apply bind_Normal in Hm as (y & _ & Hm).
    apply bind_Normal in Hm as (rest & Hrest & Hm).
    injection Hm as <-. cbn. f_equal. by apply (IH (S index)).
Qed.

Lemma to_item_id (card : json) (index : nat) (item : BannerItem.t) :
  to_item card index = Normal item -> BannerItem.id item = (Z.of_nat index + 1)%Z.
Proof.
  unfold to_item. intros H.
  repeat (apply bind_Normal in H as (? & _ & H)). by injection H as <-.
Qed.

(** The items [map] builds are numbered from [index + 1] on. *)
Lemma Array_map_from_ids (l : list json) :
  forall index l',
    Array_map_from to_item index l = Normal l' ->
    BannerItem.id <$> l' = (fun j => (Z.of_nat j + 1)%Z) <$> seq index (length l).
Proof.
  induction l as [|x l IH]; intros index l' Hm; cbn in Hm.
  - by injection Hm as <-.
  - apply bind_Normal in Hm as (y & Hy & Hm).
    apply bind_Normal in Hm as (rest & Hrest & Hm).
    injection Hm as <-. cbn. f_equal; [by apply (to_item_id x) | by apply IH].
Qed.

Lemma numbered_sorted (n : nat) :
  forall index, StronglySorted Z.lt ((fun j => (Z.of_nat j + 1)%Z) <$> seq index n).
Proof.
  induction n as [|n IH]; intros index; cbn; constructor; [apply IH|].
  apply Forall_fmap, Forall_forall. intros j Hj. apply elem_of_seq in Hj. cbn. lia.
Qed.

Lemma sublist_sorted {A} (R : A -> A -> Prop) (l' l : list A) :
  l' `sublist_of` l -> StronglySorted R l -> StronglySorted R l'.
Proof.
  induction 1 as [|x l1 l2 Hsub IH|x l1 l2 Hsub IH]; intros Hs; [done| |].
  - apply StronglySorted_inv in Hs as [Hs Hall]. constructor; [by apply IH|].
    apply Forall_forall. intros y Hy. rewrite Forall_forall in Hall.
    apply Hall. by apply (sublist_subseteq _ _ Hsub).
  - apply StronglySorted_inv in Hs as [Hs _]. by apply IH.
Qed.

Lemma sorted_NoDup (l : list Z) : StronglySorted Z.lt l -> NoDup l.
Proof.
  induction 1 as [|x l Hs IH Hall]; constructor; [|done].
  intros Hin. rewrite Forall_forall in Hall. specialize (Hall x Hin). lia.
Qed.

(** What the [try] block returns, stage by stage, when it returns
    items. *)
Lemma parse_stages (data : json) (item : BannerItem.t) :
  item ∈ parseTXBannerData data ->
  exists cards withParams mapped,
    Array_filter has_params cards = Normal withParams /\
    Array_map to_item withParams = Normal mapped /\
    Array_filter keep_item mapped = Normal (parseTXBannerData data).
Proof.
  unfold parseTXBannerData, parseTXBannerData_try.
  destruct (card_list data) as [[|b|n|s|cardList|fields]|]; cbn [as_array];
    try (intros Hin; by apply elem_of_nil in Hin).
  destruct (Array_find is_pc_shelves cardList) as [[shelf|]|e];
    cbn [mbind completion_bind];
    try (intros Hin; by apply elem_of_nil in Hin).
  destruct (truthy (Some shelf)); cbn [negb];
    [|intros Hin; by apply elem_of_nil in Hin].
  destruct (shelf_cards (Some shelf)) as [[|b|n|s|cards|fields]|]; cbn [as_array];
    try (intros Hin; by apply elem_of_nil in Hin).
  destruct (Array_filter has_params cards) as [withParams|e] eqn:Hwith;
    cbn [mbind completion_bind]; [|intros Hin; by apply elem_of_nil in Hin].
  destruct (Array_map to_item withParams) as [mapped|e] eqn:Hmap;
    cbn [mbind completion_bind]; [|intros Hin; by apply elem_of_nil in Hin].
  destruct (Array_filter keep_item mapped) as [kept|e] eqn:Hkept;
    cbn [try_catch]; [|intros Hin; by apply elem_of_nil in Hin].
  intros _. by exists cards, withParams, mapped.
Qed.

(** X9.  The items come out numbered by their place among the cards
    that have [params]: the ids are at least 1 and strictly increasing,
    hence pairwise different. *)
Theorem item_ids_increase (data : json) :
  StronglySorted Z.lt (BannerItem.id <$> parseTXBannerData data) /\
  NoDup (BannerItem.id <$> parseTXBannerData data) /\
  Forall (fun item => (1 <= BannerItem.id item)%Z) (parseTXBannerData data).
Proof.
  assert (exists n index,
            (BannerItem.id <$> parseTXBannerData data)
              `sublist_of` ((fun j => (Z.of_nat j + 1)%Z) <$> seq index n)) as (n & i & Hsub).
  { destruct (parseTXBannerData data) as [|item rest] eqn:E.
    - exists 0, 0. constructor.
    - destruct (parse_stages data item) as (cards & withParams & mapped & _ & Hmap & Hkept).
      { rewrite E. left. }
      rewrite E in Hkept. apply Array_filter_sublist in Hkept.
      apply Array_map_from_ids in Hmap.
      exists (length withParams), 0. rewrite <- Hmap. by apply fmap_sublist. }
  pose proof (sublist_sorted _ _ _ Hsub (numbered_sorted n i)) as Hsorted.
  split; [done|]. split; [by apply sorted_NoDup|].
  apply Forall_forall. intros item Hitem.
  assert (BannerItem.id item ∈ (fun j => (Z.of_nat j + 1)%Z) <$> seq i n) as Hin.
  { apply (sublist_subseteq _ _ Hsub). by apply list_elem_of_fmap_2. }
  apply list_elem_of_fmap in Hin as (j & -> & _). lia.
Qed.

Lemma to_item_constants (card : json) (index : nat) (item : BannerItem.t) :
  to_item card index = Normal item ->
  BannerItem.poster_path item = BannerItem.backdrop_path item /\
  BannerItem.overview item = BannerItem.subtitle item /\
  BannerItem.release_date item = "" /\
  BannerItem.vote_average item = 0%Z /\
  BannerItem.media_type item = "tv" /\
  BannerItem.genre_ids item = [].
Proof.
  unfold to_item. intros H.
  repeat (apply bind_Normal in H as (? & _ & H)). by injection H as <-.
Qed.

(** An item [parseTXBannerData] returns is an item [to_item] built of a
    card. *)
Lemma item_of_card (data : json) (item : BannerItem.t) :
  item ∈ parseTXBannerData data ->
  exists card index, to_item card index = Normal item.
Proof.
  intros Hin.
  destruct (parse_stages data item Hin) as (cards & withParams & mapped & _ & Hmap & Hkept).
  destruct (Array_filter_elem _ _ _ _ Hkept Hin) as [Hmapped _].
  destruct (Array_map_elem _ _ _ _ _ Hmap Hmapped) as (card & j & _ & Hitem).
  by exists card, j.
Qed.

(** X10.  Every item of the video portal has its poster equal to its
    backdrop and its overview equal to its subtitle, an empty release
    date, rating 0, media type ['tv'] and no genre ids. *)
Theorem item_fixed_fields (data : json) (item : BannerItem.t) :
  item ∈ parseTXBannerData data ->
  BannerItem.poster_path item = BannerItem.backdrop_path item /\
  BannerItem.overview item = BannerItem.subtitle item /\
  BannerItem.release_date item = "" /\
  BannerItem.vote_average item = 0%Z /\
  BannerItem.media_type item = "tv" /\
  BannerItem.genre_ids item = [].
Proof.
  intros Hin. destruct (item_of_card data item Hin) as (card & j & Hitem).
  by apply (to_item_constants card j).
Qed.

Lemma item_fixed_fields_witness :
  BannerItem.poster_path Samples.show_a = BannerItem.backdrop_path Samples.show_a /\
  BannerItem.overview Samples.show_a = BannerItem.subtitle Samples.show_a.
Proof.
  assert (Samples.show_a ∈ parseTXBannerData Samples.tx_payload) as Hin
    by (vm_compute; left).
  destruct (item_fixed_fields Samples.tx_payload Samples.show_a Hin) as (Hp & Ho & _).
  split; assumption.
Defined.

Lemma to_item_tags (card : json) (index : nat) (item : BannerItem.t) :
  to_item card index = Normal item ->
  exists params label,
    get (Some card) "params" = Normal params /\
    get params "topic_label" = Normal label /\
    tags_of (or_else label (JStr "")) = Normal (BannerItem.tags item).
Proof.
  unfold to_item. intros H.
  apply bind_Normal in H as (params & Hparams & H).
  apply bind_Normal in H as (t & _ & H).
  apply bind_Normal in H as (s1 & _ & H).
  apply bind_Normal in H as (s2 & _ & H).
  apply bind_Normal in H as (label & Hlabel & H).
  apply bind_Normal in H as (u & _ & H).
  apply bind_Normal in H as (tags & Htags & H).
  injection H as <-. by exists params, label.
Qed.

Lemma get_get_opt (v : value) (k : string) (x : value) :
  get v k = Normal x -> get_opt v k = x.
Proof. destruct v as [[|b|n|s|l|fields]|]; cbn; by intros [= <-]. Qed.

Lemma tags_of_label (label : value) (tags : list string) :
  tags_of (or_else label (JStr "")) = Normal tags ->
  match label with
  | Some (JStr s) => tags = filter (fun piece => piece ≠ "") (split "|" s)
  | _ => tags = []
  end.
Proof.
  destruct label as [[|b|n|s|l|fields]|]; unfold or_else, tags_of.
  - cbn. by intros [= <-].
  - destruct b; cbn; [discriminate | by intros [= <-]].
  - cbn [truthy]. destruct (n =? 0)%Z eqn:Hn; cbn [negb truthy].
    + change (String.eqb "" "") with true. cbn. by intros [= <-].
    + rewrite Hn. cbn. discriminate.
  - cbn [truthy]. destruct (String.eqb_spec s "") as [->|Hs]; cbn [negb truthy].
    + change (String.eqb "" "") with true. cbn [negb]. by intros [= <-].
    + destruct (String.eqb_spec s ""); [done|]. cbn [negb]. by intros [= <-].
  - cbn. discriminate.
  - cbn. discriminate.
  - cbn. by intros [= <-].
Qed.

(** An item comes from a card of the shelf of the payload, through the
    callback of [map], and passes the last filter. *)
Lemma item_from_shelf_card (data : json) (item : BannerItem.t) :
  item ∈ parseTXBannerData data ->
  exists cardList shelf cards card index,
    card_list data = Some (JArr cardList) /\
    Array_find is_pc_shelves cardList = Normal (Some shelf) /\
    shelf_cards (Some shelf) = Some (JArr cards) /\
    card ∈ cards /\
    to_item card index = Normal item /\
    keep_item item = Normal true.
Proof.
  unfold parseTXBannerData, parseTXBannerData_try. intros Hin.
  destruct (card_list data) as [[|b|n|s|cardList|fields]|] eqn:Hcl; run_in Hin;
    try (by apply elem_of_nil in Hin).
  destruct (Array_find is_pc_shelves cardList) as [[shelf|]|e] eqn:Hfind; run_in Hin;
    try (by apply elem_of_nil in Hin).
  destruct (truthy (Some shelf)); run_in Hin; [|by apply elem_of_nil in Hin].
  destruct (shelf_cards (Some shelf)) as [[|b|n|s|cards|fields]|] eqn:Hcards; run_in Hin;
    try (by apply elem_of_nil in Hin).
  destruct (Array_filter has_params cards) as [withParams|e] eqn:Hwith; run_in Hin;
    [|by apply elem_of_nil in Hin].
  destruct (Array_map to_item withParams) as [mapped|e] eqn:Hmap; run_in Hin;
    [|by apply elem_of_nil in Hin].
  destruct (Array_filter keep_item mapped) as [kept|e] eqn:Hkept; run_in Hin;
    [|by apply elem_of_nil in Hin].
  destruct (Array_filter_elem _ _ _ _ Hkept Hin) as [Hmapped Hkeep].
  destruct (Array_map_elem _ _ _ _ _ Hmap Hmapped) as (card & j & Hcard & Hitem).
  destruct (Array_filter_elem _ _ _ _ Hwith Hcard) as [Hcard' _].
  by exists cardList, shelf, cards, card, j.
Qed.

(** X11.  The tags of an item are the non-empty pieces of the
    [topic_label] of its own card, in their order: the item is what the
    callback of [map] makes of a card of the shelf of the payload, the
    params of this card are an object that holds the title of the item,
    and the tags are what is left of the pieces of the [topic_label] of
    these params when the empty ones are dropped.  The pieces are the
    label cut at every ['|']: joined with ['|'] they give the label, and
    none of them holds a ['|'].  When the label is missing or not a
    string the item has no tags.  No tag is empty and no tag holds a
    ['|']. *)
Theorem item_tags (data : json) (item : BannerItem.t) :
  item ∈ parseTXBannerData data ->
  exists cardList shelf cards card index params,
    card_list data = Some (JArr cardList) /\
    Array_find is_pc_shelves cardList = Normal (Some shelf) /\
    shelf_cards (Some shelf) = Some (JArr cards) /\
    card ∈ cards /\
    to_item card index = Normal item /\
    get (Some card) "params" = Normal (Some (JObj params)) /\
    field "title" params = Some (BannerItem.title item) /\
    match field "topic_label" params with
    | Some (JStr label) =>
        BannerItem.tags item = filter (fun piece => piece ≠ "") (split "|" label) /\
        JsonText.join "|" (split "|" label) = label /\
        (forall piece, piece ∈ split "|" label -> forall a b, piece ≠ a ++ "|" ++ b)
    | _ => BannerItem.tags item = []
    end /\
    (forall tag, tag ∈ BannerItem.tags item ->
       tag ≠ "" /\ forall a b, tag ≠ a ++ "|" ++ b).
Proof.
  intros Hin.
  destruct (item_from_shelf_card data item Hin)
    as (cardList & shelf & cards & card & j & Hcl & Hfind & Hcards & Hcard & Hitem & Hkeep).
  apply keep_item_true in Hkeep as (Htitle & _ & _).
  pose proof Hitem as Hfields.
  apply to_item_fields in Hfields as (params & t & u & Hparams & Ht & _ & Heqt & _).
  rewrite Heqt in Htitle. apply or_else_truthy in Htitle as Ht'.
  rewrite <- Heqt in Ht'. rewrite Ht' in Ht.
  apply get_Some in Ht as (fields & -> & Hft).
  pose proof Hitem as Htags.
  apply to_item_tags in Htags as (params' & label & Hparams' & Hlabel & Htags).
  rewrite Hparams in Hparams'. injection Hparams' as <-.
  apply get_get_opt in Hlabel. cbn [get_opt] in Hlabel.
  apply tags_of_label in Htags. rewrite <- Hlabel in Htags.
  exists cardList, shelf, cards, card, j, fields.
  split_and!; try done.
  - destruct (field "topic_label" fields) as [[|b|n|s|l|fs]|]; try done.
    split_and!; [done | apply join_split |].
    intros piece Hpiece a b. by apply (split_no_sep "|" s piece Hpiece a b).
  - intros tag Htag.
    destruct (field "topic_label" fields) as [[|b|n|s|l|fs]|];
      try (rewrite Htags in Htag; by apply elem_of_nil in Htag).
    rewrite Htags in Htag. apply list_elem_of_filter in Htag as [Hne Hpiece].
    split; [done|]. intros a b. by apply (split_no_sep "|" s tag Hpiece a b).
Qed.

Lemma item_tags_witness :
  Samples.show_a ∈ parseTXBannerData Samples.tx_payload /\
  "2024" ≠ "" /\ forall a b, "2024" ≠ a ++ "|" ++ b.
Proof.
  assert (Samples.show_a ∈ parseTXBannerData Samples.tx_payload) as Hin
    by (vm_compute; left).
  split; [exact Hin|].
  destruct (item_tags Samples.tx_payload Samples.show_a Hin)
    as (cardList & shelf & cards & card & index & params & H).
  destruct H as (_ & _ & _ & _ & _ & _ & _ & _ & Htags).
  apply (Htags "2024"). cbn. right. left.
Defined.

(** A callback that raises on one element makes [filter] and [map]
    raise. *)
Lemma Array_filter_raises {A} (p : A -> completion bool) (l : list A) (x : A) (e : error) :
  x ∈ l -> p x = Abrupt e -> exists e', Array_filter p l = Abrupt e'.
Proof.
  induction l as [|y l IH]; intros Hx Hp; [by apply elem_of_nil in Hx|].
  cbn [Array_filter]. apply elem_of_cons in Hx as [<-|Hx].
  - rewrite Hp. by exists e.
  - destruct (IH Hx Hp) as [e' ->]. destruct (p y) as [b|e'']; cbn; eauto.
Qed.

Lemma Array_map_raises {A B} (f : A -> nat -> completion B) (l : list A) (x : A) :
  x ∈ l -> (forall j, exists e, f x j = Abrupt e) ->
  forall index, exists e', Array_map_from f index l = Abrupt e'.
Proof.
  induction l as [|y l IH]; intros Hx Hf index; [by apply elem_of_nil in Hx|].
  cbn [Array_map_from]. apply elem_of_cons in Hx as [<-|Hx].
  - destruct (Hf index) as [e ->]. by exists e.
  - destruct (IH Hx Hf (S index)) as [e' ->]. destruct (f y index) as [b|e'']; cbn; eauto.
Qed.

(** [filter] keeps the elements its callback accepts. *)
Lemma Array_filter_keeps {A} (p : A -> completion bool) (l l' : list A) (x : A) :
  Array_filter p l = Normal l' -> x ∈ l -> p x = Normal true -> x ∈ l'.
Proof.
  revert l'. induction l as [|y l IH]; intros l' Hf Hx Hp; [by apply elem_of_nil in Hx|].
  cbn in Hf. apply bind_Normal in Hf as (b & Hb & Hf).
  apply bind_Normal in Hf as (rest & Hrest & Hf). injection Hf as <-.
  apply elem_of_cons in Hx as [<-|Hx].
  - rewrite Hp in Hb. injection Hb as <-. left.
  - destruct b; [right|]; by apply IH.
Qed.

(** The result when the shelf and its cards are found. *)
Lemma parse_cards (data : json) (cardList : list json) (shelf : json) (cards : list json) :
  card_list data = Some (JArr cardList) ->
  Array_find is_pc_shelves cardList = Normal (Some shelf) ->
  shelf_cards (Some shelf) = Some (JArr cards) ->
  parseTXBannerData data =
  try_catch
    (withParams ← Array_filter has_params cards;
     mapped ← Array_map to_item withParams;
     Array_filter keep_item mapped)
    (fun _ => []).
Proof.
  intros Hcl Hfind Hcards. unfold parseTXBannerData, parseTXBannerData_try.
  rewrite Hcl. cbn [as_array]. rewrite Hfind. cbn [mbind completion_bind].
  apply Array_find_elem in Hfind as [_ Hshelf].
  assert (truthy (Some shelf) = true) as ->.
  { unfold is_pc_shelves in Hshelf.
    destruct shelf as [|b|n|s|l|fields]; cbn in Hshelf; try discriminate; done. }
  cbn [negb]. rewrite Hcards. reflexivity.
Qed.

(** X12.  One malformed card empties the whole list: when a card of the
    shelf is [null], or the [topic_label] of a card is a truthy value
    that is not a string, the result is the empty list, whatever the
    other cards are. *)
Theorem malformed_card_empties_result
    (data : json) (cardList : list json) (shelf : json) (cards : list json) :
  card_list data = Some (JArr cardList) ->
  Array_find is_pc_shelves cardList = Normal (Some shelf) ->
  shelf_cards (Some shelf) = Some (JArr cards) ->
  (JNull ∈ cards \/
   exists card params label,
     card ∈ cards /\
     get (Some card) "params" = Normal (Some (JObj params)) /\
     field "topic_label" params = Some label /\
     truthy (Some label) = true /\
     forall s, label ≠ JStr s) ->
  parseTXBannerData data = [].
Proof.
  intros Hcl Hfind Hcards Hbad.
  rewrite (parse_cards data cardList shelf cards) by done.
  destruct Hbad as [Hnull|(card & params & label & Hcard & Hparams & Hlabel & Htruthy & Hstr)].
  - destruct (Array_filter_raises has_params cards JNull TypeError Hnull eq_refl) as [e ->].
    reflexivity.
  - destruct (Array_filter has_params cards) as [withParams|e] eqn:Hwith; [|reflexivity].
    cbn [mbind completion_bind].
    assert (card ∈ withParams) as Hin.
    { apply (Array_filter_keeps _ _ _ _ Hwith Hcard). unfold has_params. by rewrite Hparams. }
    destruct (Array_map_raises to_item withParams card Hin) with (index := 0) as [e Hmap].
    { intros j. unfold to_item. rewrite Hparams. cbn [mbind completion_bind get].
      rewrite Hlabel.
      assert (tags_of (or_else (Some label) (JStr "")) = Abrupt TypeError) as ->.
      { unfold or_else. rewrite Htruthy. unfold tags_of. rewrite Htruthy.
        destruct label as [|b|n|s|l|fs]; try reflexivity. by destruct (Hstr s). }
      by exists TypeError. }
    unfold Array_map. by rewrite Hmap.
Qed.

Lemma malformed_card_empties_result_witness :
  parseTXBannerData
    (JObj [("data", JObj [("CardList", JArr [
       JObj [("type", JStr "pc_shelves");
             ("children_list", JObj [("list", JObj [("cards", JArr [
                Samples.card [("title", JStr "Show A");
                              ("priority_image_url", JStr "https://img/1.jpg")];
                JNull])])])]])])]) = [].
Proof.
  eapply malformed_card_empties_result; [reflexivity | reflexivity | reflexivity |].
  left. right. left.
Defined.

End SourceAdapterMore.

(** ** The trending endpoint: the video portal and repeated calls *)

Module HandlerMore.
Import Js TrendingRoute HandlerProofs.

(** A result with a code other than 200 carries no item. *)
Lemma tx_content_fails (upstream : fetch_outcome) :
  TXResult.code (getTXBannerContent upstream) ≠ 200%Z ->
  TXResult.list (getTXBannerContent upstream) = [].
Proof.
  unfold getTXBannerContent.
  destruct upstream as [e|st [data|e]]; cbn; [done|..];
    by destruct (response_ok st).
Qed.

(** X13.  [getTXBannerContent] raises nothing and tells a failure by its
    code: the code is 200 only when the portal answered with a status
    from 200 to 299 and a body that parses, and the list is then what
    [parseTXBannerData] makes of the body; with any other status the
    code is that status, and when the request or the parsing of the body
    fails the code is 500.  Whenever the code is not 200 the list is
    empty. *)
Theorem tx_content_by_code (upstream : fetch_outcome) :
  let result := getTXBannerContent upstream in
  (TXResult.code result ≠ 200%Z -> TXResult.list result = []) /\
  (TXResult.code result = 200%Z ->
   exists status data,
     upstream = FetchResponse status (Normal data) /\
     (200 <= status <= 299)%Z /\
     TXResult.list result = parseTXBannerData data) /\
  (forall status body,
     upstream = FetchResponse status body ->
     ~ (200 <= status <= 299)%Z ->
     result = {| TXResult.code := status; TXResult.list := [] |}) /\
  (forall e, upstream = FetchRejected e ->
     result = {| TXResult.code := 500; TXResult.list := [] |}) /\
  (forall status e,
     upstream = FetchResponse status (Abrupt e) ->
     (200 <= status <= 299)%Z ->
     result = {| TXResult.code := 500; TXResult.list := [] |}).
Proof.
  assert (forall status, response_ok status = true <-> (200 <= status <= 299)%Z) as Hok.
  { intros status. unfold response_ok. rewrite andb_true_iff, !Z.leb_le. done. }
  cbn zeta. unfold getTXBannerContent.
  destruct upstream as [e|status [data|e]]; cbn;
    [|destruct (response_ok status) eqn:Hs; cbn;
      [apply Hok in Hs
      |assert (~ (200 <= status <= 299)%Z) as Hno by (rewrite <- Hok; congruence)]..];
    split_and!;
    try done;
    try (intros ->; lia);
    try (intros ? ? [= <- <-] ?; done);
    try (intros ? ? [=]; done).
  intros _. by exists status, data.
Qed.

Lemma tx_content_by_code_witness :
  getTXBannerContent (FetchResponse 503 (Normal Samples.tx_payload)) =
    {| TXResult.code := 503; TXResult.list := [] |} /\
  TXResult.list (getTXBannerContent (FetchRejected NetworkError)) = [].
Proof.
  split.
  - destruct (tx_content_by_code (FetchResponse 503 (Normal Samples.tx_payload)))
      as (_ & _ & H & _).
    apply (H 503%Z (Normal Samples.tx_payload)); [reflexivity | lia].
  - destruct (tx_content_by_code (FetchRejected NetworkError)) as (H & _).
    apply H. vm_compute. discriminate.
Defined.

Section Handler.
Context {TMDBContent : Type}.
Implicit Types (w : World (TMDBContent := TMDBContent)) (c : Caches (TMDBContent := TMDBContent)).

(** The answers of [GET], case by case. *)
Lemma GET_cases w c :
  (exists e, getConfig w = Abrupt e /\
     GET w c = {| response := failed; caches := c; upstream_calls := [] |}) \/
  (exists config cached,
     getConfig w = Normal config /\
     cache_hit (slot (bannerDataSource config) c) (now_at_check w) = Some cached /\
     GET w c = {| response := json_response cached; caches := c; upstream_calls := [] |}) \/
  (exists config,
     getConfig w = Normal config /\ bannerDataSource config = "TX" /\
     cache_hit (txCache c) (now_at_check w) = None /\
     GET w c =
       let result := TXData (getTXBannerContent (tx_upstream w)) in
       {| response := json_response result;
          caches := {| tmdbCache := tmdbCache c;
                       txCache := Some {| entry_data := result;
                                          timestamp := now_at_store w |} |};
          upstream_calls := [TX] |}) \/
  (exists config,
     getConfig w = Normal config /\ bannerDataSource config ≠ "TX" /\
     cache_hit (tmdbCache c) (now_at_check w) = None /\
     string_truthy (SiteConfig config ≫= TMDBApiKey) = false /\
     GET w c = {| response := missing_api_key; caches := c; upstream_calls := [] |}) \/
  (exists config,
     getConfig w = Normal config /\ bannerDataSource config ≠ "TX" /\
     cache_hit (tmdbCache c) (now_at_check w) = None /\
     GET w c = {| response := failed; caches := c; upstream_calls := [TMDB] |}) \/
  (exists config result,
     getConfig w = Normal config /\ bannerDataSource config ≠ "TX" /\
     cache_hit (tmdbCache c) (now_at_check w) = None /\
     GET w c =
       {| response := json_response (TMDBData result);
          caches := {| tmdbCache := Some {| entry_data := TMDBData result;
                                            timestamp := now_at_store w |};
                       txCache := txCache c |};
          upstream_calls := [TMDB] |}).
Proof.
  destruct (getConfig w) as [config|e] eqn:Hc.
  2:{ left. exists e. split; [done|]. unfold GET. by rewrite Hc. }
  right.
  destruct (cache_hit (slot (bannerDataSource config) c) (now_at_check w)) as [cached|] eqn:Hh.
  { left. exists config, cached. split; [done|]. split; [done|]. by apply (GET_hit w c config). }
  right. unfold slot in Hh.
  destruct (String.eqb_spec (bannerDataSource config) "TX") as [Htx|Htx].
  { left. exists config. split_and!; try done. by apply (GET_miss_TX w c config). }
  right. destruct (string_truthy (SiteConfig config ≫= TMDBApiKey)) eqn:Hk.
  2:{ left. exists config. split_and!; try done. by apply (GET_miss_no_key w c config). }
  right. rewrite (GET_miss_TMDB w c config) by done.
  destruct (getTMDBTrendingContent _ _ _) as [result|e].
  - right. by exists config, result.
  - left. by exists config.
Qed.

Lemma slot_same_source (source source' : string) c :
  String.eqb source' "TX" = String.eqb source "TX" ->
  slot source' c = slot source c.
Proof. unfold slot. by intros ->. Qed.

(** X14.  A call that asked an upstream service and answered with
    status 200 has filled the slot of its source: a later call for the
    same source, made less than 3 hours after the entry was stored, gets
    the same response, asks no upstream service and changes no cache. *)
Theorem fetched_answer_is_served_again w w' c (config config' : admin_config) :
  getConfig w = Normal config ->
  getConfig w' = Normal config' ->
  String.eqb (bannerDataSource config') "TX" = String.eqb (bannerDataSource config) "TX" ->
  upstream_calls (GET w c) ≠ [] ->
  status (response (GET w c)) = 200%Z ->
  (now_at_check w' - now_at_store w < CACHE_DURATION)%Z ->
  GET w' (caches (GET w c)) =
    {| response := response (GET w c);
       caches := caches (GET w c);
       upstream_calls := [] |}.
Proof.
  intros Hc Hc' Hsame Hcalls Hstatus Hfresh.
  destruct (GET_cases w c)
    as [(e & He & HG)|[(cfg & cached & _ & _ & HG)|[(cfg & Hcfg & Htx & _ & HG)
       |[(cfg & _ & _ & _ & _ & HG)|[(cfg & _ & _ & _ & HG)
       |(cfg & result & Hcfg & Htx & _ & HG)]]]]];
    rewrite HG in Hcalls, Hstatus |- *; try done.
  - assert (cfg = config) as -> by congruence.
    cbn zeta. cbn [response caches].
    apply (GET_hit w' _ config'); [done|].
    rewrite (slot_same_source (bannerDataSource config)) by done.
    unfold slot. rewrite Htx.
    replace (String.eqb "TX" "TX") with true by reflexivity.
    cbn [txCache]. by rewrite cache_hit_valid.
  - assert (cfg = config) as -> by congruence.
    cbn [response caches].
    apply (GET_hit w' _ config'); [done|].
    rewrite (slot_same_source (bannerDataSource config)) by done.
    unfold slot. destruct (String.eqb_spec (bannerDataSource config) "TX"); [done|].
    cbn [tmdbCache]. by rewrite cache_hit_valid.
Qed.

(** X15.  A failure of the video portal is cached like an answer: when
    the portal is the selected source, its slot holds no valid entry and
    the request to the portal fails (it is rejected, or the status is
    not from 200 to 299, or the body does not parse), [GET] answers with
    HTTP status 200 and a body with a code that is not 200 and an empty
    list, and calls made in the next 3 hours get this body again without
    the portal being asked. *)
Theorem portal_failure_is_cached w w' c (config config' : admin_config) :
  getConfig w = Normal config ->
  bannerDataSource config = "TX" ->
  cache_hit (txCache c) (now_at_check w) = None ->
  (forall status data,
     tx_upstream w = FetchResponse status (Normal data) -> response_ok status = false) ->
  getConfig w' = Normal config' ->
  bannerDataSource config' = "TX" ->
  (now_at_check w' - now_at_store w < CACHE_DURATION)%Z ->
  exists code,
    code ≠ 200%Z /\
    response (GET w c) =
      {| status := 200;
         response_body := DataBody (TXData {| TXResult.code := code; TXResult.list := [] |}) |} /\
    response (GET w' (caches (GET w c))) = response (GET w c) /\
    upstream_calls (GET w' (caches (GET w c))) = [].
Proof.
  intros Hc Htx Hmiss Hfail Hc' Htx' Hfresh.
  rewrite (GET_miss_TX w c config) by done. cbn zeta.
  cbn [response caches upstream_calls].
  rewrite (GET_hit w' _ config' (TXData (getTXBannerContent (tx_upstream w)))); [|done|].
  2:{ unfold slot. rewrite Htx'.
      replace (String.eqb "TX" "TX") with true by reflexivity.
      cbn [txCache]. by rewrite cache_hit_valid. }
  cbn [response upstream_calls].
  exists (TXResult.code (getTXBannerContent (tx_upstream w))).
  assert (TXResult.code (getTXBannerContent (tx_upstream w)) ≠ 200%Z) as Hcode.
  { unfold getTXBannerContent.
    destruct (tx_upstream w) as [e|st [data|e]] eqn:Hup; cbn; [done|..].
    - rewrite (Hfail st data eq_refl). cbn. intros ->.
      specialize (Hfail _ _ eq_refl). vm_compute in Hfail. discriminate.
    - destruct (response_ok st) eqn:Hok; cbn; [done|].
      intros ->. done. }
  split; [done|]. split; [|done].
  unfold json_response. do 2 f_equal.
  pose proof (tx_content_fails (tx_upstream w) Hcode) as Hl.
  destruct (getTXBannerContent (tx_upstream w)) as [code l]. cbn in *. by subst.
Qed.

(** X16.  [GET] writes to a cache only together with an upstream call
    that succeeded: a response with a status other than 200 leaves both
    caches as they were, and so does a call that asks no upstream
    service.  A call asks at most one upstream service, that of the
    selected source, and never changes the slot of the other source. *)
Theorem caches_change_only_on_fetch w c :
  (status (response (GET w c)) ≠ 200%Z -> caches (GET w c) = c) /\
  (upstream_calls (GET w c) = [] -> caches (GET w c) = c) /\
  (forall config,
     getConfig w = Normal config ->
     (upstream_calls (GET w c) = [] \/
      upstream_calls (GET w c) =
        [if String.eqb (bannerDataSource config) "TX" then TX else TMDB]) /\
     (if String.eqb (bannerDataSource config) "TX"
      then tmdbCache (caches (GET w c)) = tmdbCache c
      else txCache (caches (GET w c)) = txCache c)).
Proof.
  destruct (GET_cases w c)
    as [(e & He & HG)|[(cfg & cached & Hcfg & _ & HG)|[(cfg & Hcfg & Htx & _ & HG)
       |[(cfg & Hcfg & Htx & _ & _ & HG)|[(cfg & Hcfg & Htx & _ & HG)
       |(cfg & result & Hcfg & Htx & _ & HG)]]]]];
    rewrite HG; cbn zeta; cbn [response caches upstream_calls status json_response];
    (split_and!; [done..|]); intros config Hconfig;
    try (assert (cfg = config) as -> by congruence);
    try congruence.
  - split; [by left|]. by destruct (String.eqb _ _).
  - rewrite Htx. split; [by right|done].
  - split; [by left|]. by destruct (String.eqb _ _).
  - destruct (String.eqb_spec (bannerDataSource config) "TX"); [done|].
    split; [by right|done].
  - destruct (String.eqb_spec (bannerDataSource config) "TX"); [done|].
    split; [by right|done].
Qed.

End Handler.

Lemma fetched_answer_is_served_again_witness :
  let first := GET (Samples.world Samples.config_tx 5000) Samples.no_caches in
  GET (Samples.world Samples.config_tx 6000) (caches first) =
    {| response := response first; caches := caches first; upstream_calls := [] |}.
Proof.
  apply (fetched_answer_is_served_again
           (Samples.world Samples.config_tx 5000) (Samples.world Samples.config_tx 6000)
           Samples.no_caches Samples.config_tx Samples.config_tx eq_refl eq_refl eq_refl).
  - vm_compute. discriminate.
  - reflexivity.
  - reflexivity.
Defined.

Lemma portal_failure_is_cached_witness :
  let down now : World (TMDBContent := json) :=
    {| getConfig := Normal Samples.config_tx;
       now_at_check := now;
       tx_upstream := FetchRejected NetworkError;
       getTMDBTrendingContent := fun _ _ => Normal Samples.tmdb_list;
       now_at_store := now + 250 |} in
  exists code,
    code ≠ 200%Z /\
    response (GET (down 5000%Z) Samples.no_caches) =
      {| status := 200;
         response_body := DataBody (TXData {| TXResult.code := code; TXResult.list := [] |}) |} /\
    response (GET (Samples.world Samples.config_tx 6000)
                (caches (GET (down 5000%Z) Samples.no_caches))) =
      response (GET (down 5000%Z) Samples.no_caches) /\
    upstream_calls (GET (Samples.world Samples.config_tx 6000)
                      (caches (GET (down 5000%Z) Samples.no_caches))) = [].
Proof.
  intros down.
  apply (portal_failure_is_cached (down 5000%Z) (Samples.world Samples.config_tx 6000)
           Samples.no_caches Samples.config_tx Samples.config_tx eq_refl eq_refl eq_refl).
  - intros status data. discriminate.
  - reflexivity.
  - reflexivity.
  - reflexivity.
Defined.

Lemma caches_change_only_on_fetch_witness :
  caches (GET (Samples.world Samples.config_no_key 5000) Samples.no_caches) =
    Samples.no_caches /\
  txCache (caches (GET (Samples.world Samples.config_with_key 5000) Samples.no_caches)) = None.
Proof.
  split.
  - apply (proj1 (caches_change_only_on_fetch
                    (Samples.world Samples.config_no_key 5000) Samples.no_caches)).
    vm_compute. discriminate.
  - apply (proj2 (proj2 (caches_change_only_on_fetch
                    (Samples.world Samples.config_with_key 5000) Samples.no_caches))
             Samples.config_with_key eq_refl).
Defined.

End HandlerMore.

(** ** The carousel: touch gestures and event sequences *)

Module CarouselMore.
Import BannerCarousel CarouselEvents.

Lemma run_app (n : Z) (t : Component) (es es' : list event) :
  run n t (es ++ es')%list = run n (run n t es) es'.
Proof. apply foldl_app. Qed.

Lemma last_cons {A} (x d : A) (l : list A) : List.last (x :: l) d = List.last l x.
Proof.
  revert x d. induction l as [|y l IH]; intros x d; [done|].
  change (List.last (x :: y :: l) d) with (List.last (y :: l) d).
  by rewrite !IH.
Qed.

(** The moves of a touch change the end position only. *)
Lemma moves_keep (n : Z) (moves : list Z) (t : Component) :
  carousel (run n t (map TouchMove moves)) = carousel t /\
  touchStartX (run n t (map TouchMove moves)) = touchStartX t /\
  touchEndX (run n t (map TouchMove moves)) =
    if isManualChange (carousel t) then touchEndX t else List.last moves (touchEndX t).
Proof.
  revert t. induction moves as [|x moves IH]; intros t.
  - cbn. by destruct (isManualChange _).
  - change (run n t (map TouchMove (x :: moves)))
      with (run n (handleTouchMove x t) (map TouchMove moves)).
    destruct (IH (handleTouchMove x t)) as (Hc & Hs & He).
    rewrite Hc, Hs, He. unfold handleTouchMove.
    destruct (isManualChange (carousel t)) eqn:Hm;
      cbn [carousel touchStartX touchEndX]; rewrite ?Hm; [done|].
    split_and!; try done. by rewrite last_cons.
Qed.

(** X17.  A touch on a carousel with no manual change in progress that
    starts at a position other than 0 and whose last move is to a
    position other than 0 navigates by the distance between the two: to
    the next slide when the finger went more than 50 pixels to the left,
    to the previous one when it went more than 50 pixels to the right,
    and not at all otherwise.  Either way both positions are reset. *)
Theorem swipe_navigates (n : Z) (t : Component) (start last : Z) (moves : list Z) :
  isManualChange (carousel t) = false ->
  start ≠ 0%Z ->
  last ≠ 0%Z ->
  let t' := run n t (gesture start (moves ++ [last])) in
  touchStartX t' = 0%Z /\ touchEndX t' = 0%Z /\
  (50 < start - last -> carousel t' = goToNext n (carousel t))%Z /\
  (50 < last - start -> carousel t' = goToPrevious n (carousel t))%Z /\
  (Z.abs (start - last) <= 50 -> carousel t' = carousel t)%Z.
Proof.
  intros Hm Hstart Hlast. cbn zeta. unfold gesture.
  change (run n t (TouchStart start :: ?es)) with (run n (handleTouchStart start t) es).
  rewrite run_app.
  destruct (moves_keep n (moves ++ [last]) (handleTouchStart start t)) as (Hc & Hs & He).
  revert Hc Hs He. unfold handleTouchStart. rewrite Hm. cbn [carousel touchStartX touchEndX].
  rewrite Hm, List.last_last.
  generalize (run n {| carousel := carousel t; touchStartX := start; touchEndX := 0 |}
                (map TouchMove (moves ++ [last]))).
  intros [c s e]. cbn [carousel touchStartX touchEndX]. intros -> -> ->.
  cbn [run foldl step]. unfold handleTouchEnd. cbn [carousel touchStartX touchEndX].
  rewrite Hm.
  destruct (Z.eqb_spec start 0) as [|_]; [done|].
  destruct (Z.eqb_spec last 0) as [|_]; [done|]. cbn [negb].
  cbn [touchStartX touchEndX carousel].
  destruct (Z.ltb_spec 50 (Z.abs (start - last))) as [Hfar|Hnear];
    [destruct (Z.ltb_spec 0 (start - last)) as [Hleft|Hright]|];
    split_and!; try done; intros; lia.
Qed.

Lemma swipe_navigates_witness :
  carousel (run 5 mounted (gesture 300 [280; 200]%Z)) = goToNext 5 initial /\
  carousel (run 5 mounted (gesture 200 [300]%Z)) = goToPrevious 5 initial /\
  carousel (run 5 mounted (gesture 200 [230]%Z)) = initial.
Proof.
  split; [|split].
  - apply (swipe_navigates 5 mounted 300 200 [280]%Z); [reflexivity | lia | lia | lia].
  - apply (swipe_navigates 5 mounted 200 300 []); [reflexivity | lia | lia | lia].
  - apply (swipe_navigates 5 mounted 200 230 []); [reflexivity | lia | lia | lia].
Defined.

(** X18.  Touches that are not taken as a swipe, however far the finger
    went: while a manual change is in progress (the 100 ms after a
    navigation) a whole gesture leaves the component as it is; a touch
    that starts at position 0, one without a move, and one whose last
    move is to position 0 leave the carousel as it is. *)
Theorem touches_not_taken_as_swipe (n : Z) (t : Component) (start : Z) (moves : list Z) :
  (isManualChange (carousel t) = true ->
   run n t (gesture start moves) = t) /\
  (start = 0%Z \/ moves = [] \/ (exists before, moves = before ++ [0%Z])%list ->
   carousel (run n t (gesture start moves)) = carousel t).
Proof.
  unfold gesture.
  change (run n t (TouchStart start :: ?es)) with (run n (handleTouchStart start t) es).
  rewrite run_app.
  destruct (moves_keep n moves (handleTouchStart start t)) as (Hc & Hs & He).
  revert Hc Hs He. unfold handleTouchStart.
  destruct (isManualChange (carousel t)) eqn:Hm.
  - rewrite Hm.
    generalize (run n t (map TouchMove moves)).
    intros [c s e]. cbn [carousel touchStartX touchEndX]. intros -> -> ->.
    cbn [run foldl step]. unfold handleTouchEnd. cbn [carousel]. rewrite Hm.
    split; [by destruct t|done].
  - cbn [carousel touchStartX touchEndX]. rewrite Hm.
    generalize (run n {| carousel := carousel t; touchStartX := start; touchEndX := 0 |}
                  (map TouchMove moves)).
    intros [c s e]. cbn [carousel touchStartX touchEndX]. intros -> -> ->.
    cbn [run foldl step]. unfold handleTouchEnd. cbn [carousel touchStartX touchEndX].
    rewrite Hm. split; [done|].
    destruct (Z.eqb_spec start 0) as [|Hstart]; [done|].
    cbn [carousel].
    intros [?|[->|[before ->]]]; [done|done|].
    by rewrite List.last_last.
Qed.

Lemma touches_not_taken_as_swipe_witness :
  run 5 (on_carousel (goToNext 5) mounted) (gesture 300 [100]%Z) =
    on_carousel (goToNext 5) mounted /\
  carousel (run 5 mounted (gesture 300 [150; 0]%Z)) = initial.
Proof.
  split.
  - apply (proj1 (touches_not_taken_as_swipe 5 (on_carousel (goToNext 5) mounted)
                    300 [100]%Z)).
    reflexivity.
  - apply (proj2 (touches_not_taken_as_swipe 5 mounted 300 [150; 0]%Z)).
    right. right. exists [150%Z]. reflexivity.
Defined.

(** A step keeps the index of the slide shown an index of [items]. *)
Lemma step_in_range (n : Z) (t : Component) (e : event) :
  (0 < n)%Z ->
  (0 <= currentIndex (carousel t) < n)%Z ->
  (0 <= currentIndex (carousel (step n t e)) < n)%Z.
Proof.
  intros Hn Ht.
  assert (0 <= Z.rem (currentIndex (carousel t) + 1) n < n)%Z as Hnext.
  { split; [apply Z.rem_nonneg; lia|]. apply Z.rem_bound_pos; lia. }
  assert (0 <= Z.rem (currentIndex (carousel t) - 1 + n) n < n)%Z as Hprevious.
  { split; [apply Z.rem_nonneg; lia|]. apply Z.rem_bound_pos; lia. }
  destruct e; cbn [step]; try done.
  - unfold handleTouchStart. by destruct (isManualChange _).
  - unfold handleTouchMove. by destruct (isManualChange _).
  - unfold handleTouchEnd.
    destruct (isManualChange _); [done|].
    destruct (touchStartX t =? 0)%Z; [done|].
    cbn [carousel]. destruct (negb _); [|done].
    destruct (_ <? _)%Z; [|done].
    by destruct (_ <? _)%Z.
  - destruct (Z.ltb_spec (Z.of_nat index) n); [|done]. cbn. lia.
  - destruct (_ || _); [done|]. cbn [on_carousel carousel]. unfold autoPlayTick.
    by destruct (skipNextAutoPlay _).
Qed.

(** X19.  With items, the index of the slide shown stays an index of
    [items] whatever happens to the carousel: clicks on the arrows and
    the indicators, touch gestures, the timer and the timeout, in any
    order and number. *)
Theorem index_stays_in_range (n : Z) (t : Component) (events : list event) :
  (0 < n)%Z ->
  (0 <= currentIndex (carousel t) < n)%Z ->
  (0 <= currentIndex (carousel (run n t events)) < n)%Z.
Proof.
  intros Hn. revert t. induction events as [|e events IH]; intros t Ht; [done|].
  apply (IH (step n t e)). by apply step_in_range.
Qed.

Lemma index_stays_in_range_witness :
  (0 <= currentIndex (carousel
          (run 3 mounted (ClickPrevious :: AutoPlayTimer :: AutoPlayTimer
                          :: ManualChangeTimeout :: gesture 300 [100]%Z))) < 3)%Z.
Proof. apply (index_stays_in_range 3 mounted); [lia | cbn; lia]. Defined.

(** X20.  With items and the index in range, [goToNext] and
    [goToPrevious] undo each other: one after the other shows the slide
    that was shown before. *)
Theorem next_and_previous_are_inverse (n : Z) (s : Carousel) :
  (0 < n)%Z ->
  (0 <= currentIndex s < n)%Z ->
  currentIndex (goToPrevious n (goToNext n s)) = currentIndex s /\
  currentIndex (goToNext n (goToPrevious n s)) = currentIndex s.
Proof.
  intros Hn Hs. cbn [goToPrevious goToNext currentIndex]. split.
  - destruct (decide (currentIndex s + 1 = n)%Z) as [Hlast|Hinner].
    + rewrite Hlast, Z.rem_same by lia.
      rewrite Z.rem_small by lia. lia.
    + rewrite (Z.rem_small (currentIndex s + 1)) by lia.
      replace (currentIndex s + 1 - 1 + n)%Z with (currentIndex s + 1 * n)%Z by lia.
      rewrite Z.rem_add by nia. apply Z.rem_small. lia.
  - destruct (decide (currentIndex s = 0)%Z) as [Hfirst|Hinner].
    + rewrite Hfirst. rewrite (Z.rem_small (0 - 1 + n)) by lia.
      replace (0 - 1 + n + 1)%Z with n by lia. apply Z.rem_same. lia.
    + replace (currentIndex s - 1 + n)%Z with (currentIndex s - 1 + 1 * n)%Z by lia.
      rewrite Z.rem_add by nia. rewrite (Z.rem_small (currentIndex s - 1)) by lia.
      rewrite Z.rem_small by lia. lia.
Qed.

Lemma next_and_previous_are_inverse_witness :
  currentIndex (goToPrevious 5 (goToNext 5 (goToSlide 4 initial))) = 4%Z /\
  currentIndex (goToNext 5 (goToPrevious 5 initial)) = 0%Z.
Proof.
  split.
  - apply (next_and_previous_are_inverse 5 (goToSlide 4 initial)); cbn; lia.
  - apply (next_and_previous_are_inverse 5 initial); cbn; lia.
Defined.

Lemma manual_sets_skip (n : Z) (t : Component) (e : event) :
  manual e = true ->
  (forall index, e = ClickIndicator index -> (Z.of_nat index < n)%Z) ->
  skipNextAutoPlay (carousel (step n t e)) = true /\
  isPaused (carousel (step n t e)) = isPaused (carousel t).
Proof.
  destruct e; try done; intros _ Hindex; cbn [step]; try done.
  specialize (Hindex index eq_refl).
  by destruct (Z.ltb_spec (Z.of_nat index) n); [|lia].
Qed.

(** X21.  The flag that makes the timer skip is a flag, not a counter:
    after any number of clicks on the arrows and the indicators, one or
    more, on a carousel that is not paused, the next firing of the timer
    leaves the slide shown and the one after it advances by one. *)
Theorem one_tick_is_skipped (n : Z) (t : Component) (clicks : list event) (e : event) :
  (0 < n)%Z ->
  isPaused (carousel t) = false ->
  Forall (fun e => manual e = true) (clicks ++ [e]) ->
  Forall (fun e => forall index, e = ClickIndicator index -> (Z.of_nat index < n)%Z)
    (clicks ++ [e]) ->
  let t' := run n t (clicks ++ [e]) in
  currentIndex (carousel (run n t' [AutoPlayTimer])) = currentIndex (carousel t') /\
  currentIndex (carousel (run n t' [AutoPlayTimer; AutoPlayTimer])) =
    Z.rem (currentIndex (carousel t') + 1) n.
Proof.
  intros Hn Hp Hmanual Hindex. cbn zeta.
  assert (isPaused (carousel (run n t clicks)) = false) as Hp'.
  { apply Forall_app in Hmanual as [Hmanual _]. apply Forall_app in Hindex as [Hindex _].
    revert t Hp. induction clicks as [|c clicks IH]; intros t Hp; [done|].
    apply Forall_cons in Hmanual as [Hc Hmanual]. apply Forall_cons in Hindex as [Hi Hindex].
    apply (IH Hmanual Hindex (step n t c)).
    by rewrite (proj2 (manual_sets_skip n t c Hc Hi)). }
  rewrite run_app. generalize dependent (run n t clicks). clear t Hp. intros t Hp.
  apply Forall_app in Hmanual as [_ [He _]%Forall_cons].
  apply Forall_app in Hindex as [_ [Hi _]%Forall_cons].
  destruct (manual_sets_skip n t e He Hi) as [Hskip Hpaused]. rewrite Hp in Hpaused.
  cbn [run foldl]. generalize dependent (step n t e). intros [[i p k m] s x].
  cbn [carousel skipNextAutoPlay isPaused]. intros -> ->.
  cbn [step carousel isPaused orb]. destruct (Z.eqb_spec n 0) as [|_]; [lia|].
  cbn. destruct (Z.eqb_spec n 0) as [|_]; [lia|]. done.
Qed.

Lemma one_tick_is_skipped_witness :
  let t' := run 5 mounted [ClickNext; ClickNext; ClickIndicator 3] in
  currentIndex (carousel (run 5 t' [AutoPlayTimer])) = currentIndex (carousel t') /\
  currentIndex (carousel (run 5 t' [AutoPlayTimer; AutoPlayTimer])) =
    Z.rem (currentIndex (carousel t') + 1) 5.
Proof.
  apply (one_tick_is_skipped 5 mounted [ClickNext; ClickNext] (ClickIndicator 3)).
  - lia.
  - reflexivity.
  - repeat constructor.
  - repeat constructor; intros index [= <-]; lia.
Defined.

End CarouselMore.

(** ** The client cache: expiry, failures and what a run may change *)

Module ClientCacheMore.
Import Js JsFacts BannerCarousel ClientCacheProofs.

Section ClientCache.

Variable JSON_parse : string -> completion json.
Variable JSON_stringify : json -> string.
Variable ToNumber_other : json -> option Z.

Local Abbreviation fetchTrending :=
  (fetchTrending JSON_parse JSON_stringify ToNumber_other).
Local Abbreviation read_cached := (read_cached JSON_parse ToNumber_other).
Local Abbreviation usable := (usable ToNumber_other).

Lemma read_cached_record (text : string) (list : json) (written now : Z) :
  JSON_parse text = Normal (cache_record list written) ->
  read_cached text now =
    if (now - written <? LOCALSTORAGE_DURATION)%Z then Some (Some list) else None.
Proof. intros Hp. unfold BannerCarousel.read_cached. by rewrite Hp. Qed.

Lemma other_number {A} (n : Z) (a b : A) :
  n ≠ 200%Z ->
  match n with 200%Z => a | _ => b end = b.
Proof.
  intros Hn. destruct n as [|q|q]; try done.
  do 8 (destruct q as [q|q|]; try done).
Qed.

Lemma not_200 {A} (code : value) (a b : A) :
  code ≠ Some (JNum 200) ->
  match code with Some (JNum 200) => a | _ => b end = b.
Proof.
  intros Hcode. destruct code as [[| |n| | |]|]; try done.
  apply other_number. congruence.
Qed.

Lemma usable_other_code (fields : list (string * json)) :
  field "code" fields ≠ Some (JNum 200) ->
  usable (JObj fields) = Normal None.
Proof. intros Hcode. unfold BannerCarousel.usable. cbn. by apply not_200. Qed.

Lemma usable_empty_list (fields : list (string * json)) :
  field "list" fields = Some (JArr []) ->
  usable (JObj fields) = Normal None.
Proof.
  intros Hlist. unfold BannerCarousel.usable. cbn.
  destruct (field "code" fields) as [[| |n| | |]|]; try done.
  destruct (Z.eq_dec n 200%Z) as [->|Hn]; [by rewrite Hlist|].
  by apply other_number.
Qed.

(** X22.  A stored record is used for exactly 24 hours: with the text
    under the key parsing to [{ data, timestamp }], the API is left
    alone when less than 24 hours have passed since [timestamp] and
    asked from 24 hours on.  An expired record is no fallback: when the
    API then gives nothing usable, the items stay as they were and the
    stale record stays in the storage. *)
Theorem record_expires_after_a_day (w : World) (ls : Storage) (v : View)
    (cached : string) (list : json) (written : Z) :
  denied ls = false ->
  entries ls !! LOCALSTORAGE_KEY = Some cached ->
  cached ≠ "" ->
  JSON_parse cached = Normal (cache_record list written) ->
  ((now_at_read w - written < LOCALSTORAGE_DURATION)%Z ->
   fetchTrending w ls v =
     {| view := {| items := Some list; isLoading := false |};
        localStorage := ls; requested := false |}) /\
  ((LOCALSTORAGE_DURATION <= now_at_read w - written)%Z ->
   requested (fetchTrending w ls v) = true /\
   ((forall l, api w ≫= usable ≠ Normal (Some l)) ->
    fetchTrending w ls v =
      {| view := {| items := items v; isLoading := false |};
         localStorage := ls; requested := true |})).
Proof.
  intros Hd Hcached Hne Hparse. split.
  - intros Hfresh. unfold BannerCarousel.fetchTrending, getItem. rewrite Hd, Hcached.
    destruct (String.eqb_spec cached "") as [|_]; [done|].
    rewrite (read_cached_record cached list written) by done.
    by destruct (Z.ltb_spec (now_at_read w - written) LOCALSTORAGE_DURATION); [|lia].
  - intros Hexpired. rewrite fetchTrending_miss; [|done|].
    + destruct (api w ≫= usable) as [[l|]|e]; split; try done.
      intros Hno. by destruct (Hno l).
    + rewrite Hcached. right.
      rewrite (read_cached_record cached list written) by done.
      by destruct (Z.ltb_spec (now_at_read w - written) LOCALSTORAGE_DURATION); [lia|].
Qed.

(** X23.  An answer of the API that is not usable changes nothing: when
    the storage holds nothing usable and the request fails, or the
    answer is an object whose [code] is not 200 or whose [list] is the
    empty array, the items stay as they were and nothing is written to
    the storage. *)
Theorem unusable_answer_changes_nothing (w : World) (ls : Storage) (v : View) :
  denied ls = false ->
  match entries ls !! LOCALSTORAGE_KEY with
  | Some cached => cached = "" \/ read_cached cached (now_at_read w) = None
  | None => True
  end ->
  (exists e, api w = Abrupt e) \/
  (exists fields,
     api w = Normal (JObj fields) /\
     (field "code" fields ≠ Some (JNum 200) \/ field "list" fields = Some (JArr []))) ->
  fetchTrending w ls v =
      {| view := {| items := items v; isLoading := false |};
         localStorage := ls; requested := true |}.
Proof.
  intros Hd Hmiss Hapi. rewrite fetchTrending_miss by done.
  destruct Hapi as [[e ->]|(fields & -> & [Hcode|Hlist])]; [done|..].
  - cbn [mbind completion_bind]. by rewrite usable_other_code.
  - cbn [mbind completion_bind]. by rewrite usable_empty_list.
Qed.

(** X24.  Failures of the storage raise nothing.  When reading the
    storage is denied the run ends there: the API is not asked and the
    items stay as they were.  When the storage holds nothing usable, the
    API gives a usable list and writing it fails for lack of room, the
    list is shown all the same and the storage is left as it was. *)
Theorem storage_failures_are_swallowed (w : World) (ls : Storage) (v : View) :
  (denied ls = true -> fetchTrending w ls v =
     {| view := {| items := items v; isLoading := false |};
        localStorage := ls; requested := false |}) /\
  (forall list,
     denied ls = false ->
     match entries ls !! LOCALSTORAGE_KEY with
     | Some cached => cached = "" \/ read_cached cached (now_at_read w) = None
     | None => True
     end ->
     api w ≫= usable = Normal (Some list) ->
     fits ls LOCALSTORAGE_KEY (JSON_stringify (cache_record list (now_at_write w))) = false ->
     fetchTrending w ls v =
       {| view := {| items := Some list; isLoading := false |};
          localStorage := ls; requested := true |}).
Proof.
  split.
  - intros Hd. unfold BannerCarousel.fetchTrending, getItem. by rewrite Hd.
  - intros list Hd Hmiss Hapi Hfits. rewrite fetchTrending_miss by done.
    rewrite Hapi. unfold setItem. by rewrite Hd, Hfits.
Qed.

(** X25.  What a run may change: it always ends with the loading flag
    off; in the storage it writes at most the entry under the fixed key,
    all other entries, the quota and the access staying as they were;
    and a run that does not ask the API changes nothing in the storage
    at all. *)
Theorem run_changes_one_entry (w : World) (ls : Storage) (v : View) :
  let out := fetchTrending w ls v in
  isLoading (view out) = false /\
  denied (localStorage out) = denied ls /\
  quota (localStorage out) = quota ls /\
  (forall k, k ≠ LOCALSTORAGE_KEY ->
     entries (localStorage out) !! k = entries ls !! k) /\
  (requested out = false -> localStorage out = ls).
Proof.
  cbn zeta. unfold BannerCarousel.fetchTrending.
  destruct (getItem ls LOCALSTORAGE_KEY) as [cached|e]; [|done].
  destruct (match cached with
            | Some cached => if String.eqb cached "" then None
                             else read_cached cached (now_at_read w)
            | None => None
            end) as [data|]; [done|].
  destruct (api w ≫= usable) as [[list|]|e]; try done.
  cbn [view localStorage requested isLoading].
  unfold setItem. destruct (denied ls) eqn:Hd; [by rewrite ?Hd|].
  destruct (fits ls _ _); cbn [try_catch with_entries denied quota entries];
    split_and!; try done.
  intros k Hk. by rewrite lookup_insert_ne.
Qed.

End ClientCache.

Lemma record_expires_after_a_day_witness :
  let fetchTrending :=
    fetchTrending JsonText.parse JsonText.stringify JsonText.ToNumber_other in
  let stored :=
    localStorage (fetchTrending Samples.first_visit Samples.empty_storage Samples.loading) in
  let late : World :=
    {| now_at_read := 1010 + LOCALSTORAGE_DURATION;
       api := Abrupt NetworkError;
       now_at_write := 1010 + LOCALSTORAGE_DURATION |} in
  requested (fetchTrending Samples.second_visit stored Samples.loading) = false /\
  fetchTrending late stored Samples.loading =
    {| view := {| items := items Samples.loading; isLoading := false |};
       localStorage := stored; requested := true |}.
Proof.
  intros fetch stored late.
  pose (text := JsonText.stringify (cache_record Samples.trending_list 1010)).
  split.
  - destruct (record_expires_after_a_day JsonText.parse JsonText.stringify
                JsonText.ToNumber_other Samples.second_visit stored Samples.loading
                text Samples.trending_list 1010) as [Hfresh _];
      [reflexivity | reflexivity | vm_compute; discriminate | reflexivity |].
    unfold fetch. rewrite Hfresh; [reflexivity | reflexivity].
  - destruct (record_expires_after_a_day JsonText.parse JsonText.stringify
                JsonText.ToNumber_other late stored Samples.loading
                text Samples.trending_list 1010) as [_ Hexpired];
      [reflexivity | reflexivity | vm_compute; discriminate | reflexivity |].
    destruct Hexpired as [_ Hnothing]; [vm_compute; discriminate|].
    apply Hnothing. intros l. discriminate.
Defined.

Lemma unusable_answer_changes_nothing_witness :
  let failed_portal : World :=
    {| now_at_read := 1000;
       api := Normal (JObj [("code", JNum 500); ("list", JArr [])]);
       now_at_write := 1010 |} in
  fetchTrending JsonText.parse JsonText.stringify JsonText.ToNumber_other
    failed_portal Samples.corrupted_storage Samples.loading =
  {| view := {| items := items Samples.loading; isLoading := false |};
     localStorage := Samples.corrupted_storage; requested := true |}.
Proof.
  intros failed_portal.
  apply (unusable_answer_changes_nothing JsonText.parse JsonText.stringify
           JsonText.ToNumber_other failed_portal Samples.corrupted_storage Samples.loading).
  - reflexivity.
  - right. reflexivity.
  - right. exists [("code", JNum 500); ("list", JArr [])].
    split; [reflexivity|]. left. discriminate.
Defined.

Lemma storage_failures_are_swallowed_witness :
  let no_access : Storage := {| denied := true; quota := None; entries := ∅ |} in
  let full : Storage := {| denied := false; quota := Some 10; entries := ∅ |} in
  let fetchTrending :=
    fetchTrending JsonText.parse JsonText.stringify JsonText.ToNumber_other in
  requested (fetchTrending Samples.first_visit no_access Samples.loading) = false /\
  fetchTrending Samples.first_visit full Samples.loading =
    {| view := {| items := Some Samples.trending_list; isLoading := false |};
       localStorage := full; requested := true |}.
Proof.
  intros no_access full fetch. split.
  - unfold fetch.
    rewrite (proj1 (storage_failures_are_swallowed JsonText.parse JsonText.stringify
                      JsonText.ToNumber_other Samples.first_visit no_access Samples.loading));
      reflexivity.
  - apply (proj2 (storage_failures_are_swallowed JsonText.parse JsonText.stringify
                    JsonText.ToNumber_other Samples.first_visit full Samples.loading));
      [reflexivity | exact I | reflexivity | reflexivity].
Defined.

End ClientCacheMore.

(** ** The danmaku panel *)

Module DanmakuPanelProofs.
Import Js DanmakuPanel.

Lemma string_or_nonempty (s : option string) (d : string) :
  d ≠ "" -> TrendingRoute.string_or s d ≠ "".
Proof.
  intros Hd. unfold TrendingRoute.string_or, TrendingRoute.string_truthy.
  destruct s as [x|]; [|done]. cbn.
  by destruct (String.eqb_spec x "").
Qed.

Section Handlers.

Variable searchAnime : string -> completion SearchResponse.
Variable getEpisodes : Z -> completion EpisodesResponse.

(** X26.  A search with a keyword that is blank once trimmed asks
    nothing of the API and only puts up the prompt for a keyword, the
    results staying as they were.  Any other search asks the API once,
    for the trimmed keyword, and ends, whatever the API did, with the
    searching flag off and either a list of results that is not empty
    and no message, or no result and a message that is not empty. *)
Theorem search_gives_results_or_message (keyword : string) (p : Panel) :
  let out := handleSearch searchAnime keyword p in
  (trim keyword = "" ->
   asked out = [] /\
   searchResults (panel out) = searchResults p /\
   searchError (panel out) = Some "请输入搜索关键词") /\
  (trim keyword ≠ "" ->
   asked out = [trim keyword] /\
   isSearching (panel out) = false /\
   ((searchResults (panel out) ≠ [] /\ searchError (panel out) = None) \/
    (searchResults (panel out) = [] /\
     exists message, searchError (panel out) = Some message /\ message ≠ ""))).
Proof.
  cbn zeta. unfold handleSearch.
  destruct (String.eqb_spec (trim keyword) "") as [Hblank|Hword]; [by split|].
  split; [done|]. intros _. split; [done|]. split; [done|].
  destruct (searchAnime (trim keyword)) as [response|e]; cbn.
  - destruct (search_success response); cbn.
    + destruct (animes response) as [|anime rest] eqn:Hanimes; cbn; rewrite ?Hanimes.
      * right. split; [done|]. eexists. split; [done|]. by apply string_or_nonempty.
      * by left.
    + right. split; [done|]. eexists. split; [done|]. by apply string_or_nonempty.
  - right. split; [done|]. by eexists.
Qed.

(** X27.  Loading episodes does not take a message down.  Loading the
    episodes of an anime that has some leaves the message as it was, and
    so does going back to the results: after a load that failed or found
    no episode, going back and choosing an anime that has episodes shows
    these episodes together with the message of the earlier failure. *)
Theorem episode_message_stays (anime other : DanmakuAnime.t) (p : Panel)
    (response : EpisodesResponse) :
  getEpisodes (DanmakuAnime.animeId other) = Normal response ->
  episodes_success response = true ->
  bangumi_episodes (bangumi response) ≠ [] ->
  searchError (handleAnimeSelect getEpisodes other p) = searchError p /\
  searchError (handleBackToResults p) = searchError p /\
  ((forall found,
      getEpisodes (DanmakuAnime.animeId anime) = Normal found ->
      episodes_success found = false \/ bangumi_episodes (bangumi found) = []) ->
   let p' :=
     handleAnimeSelect getEpisodes other
       (handleBackToResults (handleAnimeSelect getEpisodes anime p)) in
   selectedAnime p' = Some other /\
   episodes p' = bangumi_episodes (bangumi response) /\
   exists message,
     searchError p' = Some message /\
     (message = "该剧集暂无弹幕信息" \/ message = "获取剧集失败")).
Proof.
  intros Hother Hsuccess Hsome.
  assert (forall q, handleAnimeSelect getEpisodes other q =
            setIsLoadingEpisodes false
              (setEpisodes (bangumi_episodes (bangumi response))
                 (setIsLoadingEpisodes true (setSelectedAnime (Some other) q)))) as Hload.
  { intros q. unfold handleAnimeSelect. rewrite Hother. cbn. rewrite Hsuccess.
    by destruct (bangumi_episodes (bangumi response)). }
  split; [by rewrite Hload|]. split; [done|].
  intros Hnone. cbn zeta. rewrite Hload. cbn. split; [done|]. split; [done|].
  destruct (getEpisodes (DanmakuAnime.animeId anime)) as [found|e]; cbn.
  - destruct (Hnone found eq_refl) as [->| ->]; cbn.
    + eexists. split; [done|]. by left.
    + rewrite andb_false_r. cbn. eexists. split; [done|]. by left.
  - eexists. split; [done|]. by right.
Qed.

End Handlers.

(** X28.  The search box is filled from the title of the video once:
    on a panel just mounted the box holds, after any sequence of titles,
    the first one that is not empty; and once the box was filled from a
    title, later titles change nothing: the box holds what the user
    typed last, or what it held when no one typed. *)
Theorem keyword_is_filled_once (titles : list string) (p : Panel) (inputs : list input) :
  searchKeyword (foldl fill mounted (VideoTitle <$> titles)) =
    default "" (head (filter (fun t => t ≠ "") titles)) /\
  (initializedRef p = true ->
   searchKeyword (foldl fill p inputs) =
     List.last (omap typed inputs) (searchKeyword p)).
Proof.
  assert (forall (inputs : list input) (p : Panel),
            initializedRef p = true ->
            searchKeyword (foldl fill p inputs) =
              List.last (omap typed inputs) (searchKeyword p)) as Hfilled.
  { clear. intros inputs. induction inputs as [|i inputs IH]; intros p Hp; [done|].
    cbn [foldl]. destruct i as [title|text]; cbn [fill omap typed].
    - unfold onVideoTitle. rewrite Hp, andb_false_r. by apply IH.
    - rewrite IH by done. cbn [setSearchKeyword searchKeyword].
      change (list_omap input string typed (Typed text :: inputs))
        with (text :: omap typed inputs).
      by rewrite CarouselMore.last_cons. }
  split; [|apply Hfilled].
  clear p inputs.
  assert (forall p, initializedRef p = false ->
            searchKeyword (foldl fill p (VideoTitle <$> titles)) =
              default (searchKeyword p) (head (filter (fun t => t ≠ "") titles))) as Hfirst.
  { induction titles as [|t titles IH]; intros p Hp; [done|].
    cbn [fmap list_fmap foldl fill]. unfold onVideoTitle. rewrite Hp.
    destruct (String.eqb_spec t "") as [->|Ht]; cbn [negb andb].
    - rewrite filter_cons_False by (intros H; by apply H). by apply IH.
    - rewrite filter_cons_True by done. cbn [head default].
      specialize (Hfilled (VideoTitle <$> titles) (setInitialized true (setSearchKeyword t p))
                    eq_refl).
      rewrite Hfilled.
      replace (omap typed (VideoTitle <$> titles)) with (@nil string); [done|].
      clear. induction titles as [|x l IHl]; [done|]. exact IHl. }
  by apply Hfirst.
Qed.

(** X29.  Choosing an episode while an anime is selected reports a
    selection, and none after going back to the results.  The selection
    names the selected anime and the episode, carries the trimmed text
    of the search box, or no keyword when the box is blank, and
    [isEpisodeSelected] then marks the episodes with the id of the
    chosen one, and no other. *)
Theorem chosen_episode_is_marked (episode : DanmakuEpisode.t) (anime : DanmakuAnime.t)
    (p : Panel) :
  selectedAnime p = Some anime ->
  handleEpisodeSelect episode (handleBackToResults p) = None /\
  exists selection,
    handleEpisodeSelect episode p = Some selection /\
    DanmakuSelection.animeId selection = DanmakuAnime.animeId anime /\
    DanmakuSelection.animeTitle selection = DanmakuAnime.animeTitle anime /\
    DanmakuSelection.episodeTitle selection = DanmakuEpisode.episodeTitle episode /\
    (DanmakuSelection.searchKeyword selection = None <-> trim (searchKeyword p) = "") /\
    (forall keyword,
       DanmakuSelection.searchKeyword selection = Some keyword ->
       keyword = trim (searchKeyword p)) /\
    (forall episodeId,
       isEpisodeSelected (Some selection) episodeId = true <->
       episodeId = DanmakuEpisode.episodeId episode).
Proof.
  intros Hanime. split; [done|].
  unfold handleEpisodeSelect. rewrite Hanime. eexists. split; [done|].
  cbn [DanmakuSelection.animeId DanmakuSelection.animeTitle DanmakuSelection.episodeTitle
       DanmakuSelection.searchKeyword DanmakuSelection.episodeId isEpisodeSelected].
  split_and!; try done.
  - by destruct (String.eqb_spec (trim (searchKeyword p)) "").
  - intros keyword. destruct (String.eqb_spec (trim (searchKeyword p)) ""); [done|].
    by intros [= <-].
  - intros episodeId. rewrite Z.eqb_eq. split; by intros ->.
Qed.

Lemma chosen_episode_is_marked_witness :
  let naruto := {| DanmakuAnime.animeId := 7; DanmakuAnime.animeTitle := "Naruto" |} in
  let first := {| DanmakuEpisode.episodeId := 70;
                  DanmakuEpisode.episodeTitle := "Episode 1" |} in
  handleEpisodeSelect first (handleBackToResults (setSelectedAnime (Some naruto) mounted)) =
    None.
Proof.
  intros naruto first.
  apply (chosen_episode_is_marked first naruto (setSelectedAnime (Some naruto) mounted)).
  reflexivity.
Defined.

Lemma search_gives_results_or_message_witness :
  let api (keyword : string) : completion SearchResponse :=
    if String.eqb keyword "naruto"
    then Normal {| search_success := true;
                   animes := [ {| DanmakuAnime.animeId := 7;
                                  DanmakuAnime.animeTitle := "Naruto" |} ];
                   errorMessage := None |}
    else Abrupt NetworkError in
  asked (handleSearch api " 	 " mounted) = [] /\
  asked (handleSearch api "  naruto " mounted) = ["naruto"].
Proof.
  intros api. split.
  - apply (proj1 (search_gives_results_or_message api " 	 " mounted)). reflexivity.
  - apply (proj2 (search_gives_results_or_message api "  naruto " mounted)).
    vm_compute. discriminate.
Defined.

Lemma episode_message_stays_witness :
  let api (animeId : Z) : completion EpisodesResponse :=
    if (animeId =? 7)%Z
    then Normal {| episodes_success := true;
                   bangumi := {| bangumi_episodes :=
                     [ {| DanmakuEpisode.episodeId := 70;
                          DanmakuEpisode.episodeTitle := "Episode 1" |} ] |} |}
    else Abrupt NetworkError in
  let naruto := {| DanmakuAnime.animeId := 7; DanmakuAnime.animeTitle := "Naruto" |} in
  let bleach := {| DanmakuAnime.animeId := 8; DanmakuAnime.animeTitle := "Bleach" |} in
  searchError (handleAnimeSelect api naruto (handleAnimeSelect api bleach mounted)) =
  searchError (handleAnimeSelect api bleach mounted).
Proof.
  intros api naruto bleach.
  apply (episode_message_stays api bleach naruto (handleAnimeSelect api bleach mounted)
           {| episodes_success := true;
              bangumi := {| bangumi_episodes :=
                [ {| DanmakuEpisode.episodeId := 70;
                     DanmakuEpisode.episodeTitle := "Episode 1" |} ] |} |});
    [reflexivity | reflexivity | discriminate].
Defined.

Lemma keyword_is_filled_once_witness :
  searchKeyword
    (foldl fill (onVideoTitle "Naruto" mounted) [Typed "bleach"; VideoTitle "Naruto 2"]) =
  "bleach".
Proof.
  apply (proj2 (keyword_is_filled_once [] (onVideoTitle "Naruto" mounted)
                  [Typed "bleach"; VideoTitle "Naruto 2"])).
  reflexivity.
Defined.

End DanmakuPanelProofs.
